(** * InputMagic: the render module (src/render/render.ts)

    A shallow embedding of the voxel renderer's coordinate conversions, facing
    latch, palette functions, sliding-window grid and pointer edit handler,
    with the properties the specification states about them.

    Conventions.
    - JavaScript numbers that the code only uses as integers are [Z]; a number
      that may be [NaN] is [option Z] with [None] for [NaN].
    - Strings are [string], one [ascii] per code unit: the strings considered
      are those of code units up to 255.
    - An object literal used as a map ([colorMapper], [textures]) is its own
      properties together with the members it inherits from
      [Object.prototype]: a read, an [in] test or an assignment goes through
      [JSObject], and a value read from it is a [JS.value], which is a string
      only when an own property answered.
    - Pixi objects are modelled by identity: a container is a reference into a
      heap of container records, a sprite carries its own identifier.
    - Pixel coordinates ([getRenderFactor], container [x]/[y], the ticker's
      stage moves) are floating point and take no part in any property below;
      the model does not carry them.  The display list of [app.stage] is Pixi's
      own bookkeeping and is not modelled either.
    - A JavaScript exception is the [Throw] outcome of the state monad [M]; the
      state reached before the exception is kept, as in the source. *)

From stdpp Require Import gmap strings list fin_maps.
From Stdlib Require Import ZArith Ascii.

Local Open Scope Z_scope.

(** ** Positions *)

(** [BlockPos] of the data model ([@/data/map/block]): x, y horizontal, z up. *)
Module BlockPos.
Record t : Type := mk { x : Z; y : Z; z : Z }.
#[global] Instance eq_dec : EqDecision t.
Proof. solve_decision. Defined.
End BlockPos.

(** [RenderBlockPos]: x to the right, y down, z towards the viewer. *)
Module RenderBlockPos.
Record t : Type := mk { x : Z; y : Z; z : Z }.
#[global] Instance eq_dec : EqDecision t.
Proof. solve_decision. Defined.
End RenderBlockPos.

(** [CenterPos] and a container's [indexPos]: both are [{ x; y }] objects. *)
Module XY.
Record t : Type := mk { x : Z; y : Z }.
#[global] Instance eq_dec : EqDecision t.
Proof. solve_decision. Defined.
End XY.

(** ** The JavaScript string and number primitives the module calls *)

Module JS.

Definition code (c : ascii) : Z := Z.of_N (N_of_ascii c).

(** [StrWhiteSpaceChar] among the code units up to 255: tab, the line
    terminators, vertical tab, form feed, space and the no-break space. *)
Definition is_white_space (c : ascii) : bool :=
  let n := code c in
  ((9 <=? n) && (n <=? 13)) || (n =? 32) || (n =? 160).

Fixpoint skip_white_space (s : string) : string :=
  match s with
  | String c r => if is_white_space c then skip_white_space r else s
  | EmptyString => s
  end.

(** Value of a digit character in any radix up to 36. *)
Definition digit_of_char (c : ascii) : option Z :=
  let n := code c in
  if (48 <=? n) && (n <=? 57) then Some (n - 48)
  else if (97 <=? n) && (n <=? 122) then Some (n - 87)
  else if (65 <=? n) && (n <=? 90) then Some (n - 55)
  else None.

(** Longest prefix of digits below [radix]; [None] when there is no digit. *)
Fixpoint parse_digits (radix : Z) (acc : option Z) (s : string) : option Z :=
  match s with
  | EmptyString => acc
  | String c r =>
      match digit_of_char c with
      | Some d =>
          if d <? radix then parse_digits radix (Some (radix * default 0 acc + d)) r
          else acc
      | None => acc
      end
  end.

Definition strip_hex_prefix (s : string) : string :=
  match s with
  | String "0" (String c r) =>
      if (code c =? 120) || (code c =? 88) then r else s
  | _ => s
  end.

(** [Number.parseInt(s, radix)] for an explicit radix; [None] is [NaN]. *)
Definition parseInt (s : string) (radix : Z) : option Z :=
  let s1 := skip_white_space s in
  let '(neg, s2) :=
    match s1 with
    | String "-" r => (true, r)
    | String "+" r => (false, r)
    | _ => (false, s1)
    end in
  let s3 := if radix =? 16 then strip_hex_prefix s2 else s2 in
  (fun n => if neg : bool then - n else n) <$> parse_digits radix None s3.

(** [s.slice(a, b)] for indices [0 <= a <= b]. *)
Definition slice (a b : nat) (s : string) : string := String.substring a (b - a) s.

(** [s.indexOf(c)] for a one-character needle, counting from [i]. *)
Fixpoint indexOf_from (c : ascii) (s : string) (i : Z) : Z :=
  match s with
  | EmptyString => -1
  | String d r => if Ascii.eqb d c then i else indexOf_from c r (i + 1)
  end.

Definition indexOf (c : ascii) (s : string) : Z := indexOf_from c s 0.

(** [s.includes(c)] for a one-character needle. *)
Fixpoint includes (c : ascii) (s : string) : bool :=
  match s with
  | EmptyString => false
  | String d r => Ascii.eqb d c || includes c r
  end.

Definition char_of_digit (d : Z) : ascii :=
  if d <? 10 then ascii_of_N (Z.to_N (48 + d)) else ascii_of_N (Z.to_N (87 + d)).

Fixpoint digits_to_string (fuel : nat) (radix n : Z) (acc : string) : string :=
  match fuel with
  | O => acc
  | S f =>
      let acc' := String (char_of_digit (n mod radix)) acc in
      if n / radix =? 0 then acc' else digits_to_string f radix (n / radix) acc'
  end.

(** [n.toString(radix)] for an integer or [NaN]. *)
Definition toString (n : option Z) (radix : Z) : string :=
  match n with
  | None => "NaN"
  | Some v =>
      let body := digits_to_string (S (Z.to_nat (Z.log2 (Z.abs v)))) radix (Z.abs v) "" in
      if v <? 0 then String "-" body else body
  end.

Fixpoint cycle_take (k : nat) (pad cur : string) : string :=
  match k with
  | O => EmptyString
  | S k' =>
      match cur with
      | String c r => String c (cycle_take k' pad r)
      | EmptyString =>
          match pad with
          | String c r => String c (cycle_take k' pad r)
          | EmptyString => EmptyString
          end
      end
  end.

(** [s.padStart(n, pad)]. *)
Definition padStart (n : nat) (pad s : string) : string :=
  if (n <=? String.length s)%nat then s
  else cycle_take (n - String.length s) pad pad +:+ s.

(** [Math.max(a, b)] with [NaN] contagious. *)
Definition max (a b : option Z) : option Z :=
  match a, b with
  | Some u, Some v => Some (Z.max u v)
  | _, _ => None
  end.

Definition sub (a b : option Z) : option Z :=
  match a, b with
  | Some u, Some v => Some (u - v)
  | _, _ => None
  end.

(** [a >= b] and [a <= b] on numbers: false as soon as one side is [NaN]. *)
Definition ge (a : option Z) (b : Z) : bool :=
  match a with Some u => b <=? u | None => false end.

Definition le (a : option Z) (b : Z) : bool :=
  match a with Some u => u <=? b | None => false end.

(** The values a read of the palette can give: a string, a member of
    [Object.prototype] found by its name, or [undefined]. *)
Inductive value : Type :=
  | Str (s : string)
  | Member (name : string)
  | Undefined.

#[global] Instance value_eq_dec : EqDecision value.
Proof. solve_decision. Defined.

(** [String(v)], as a property key or the subject of a regular expression
    needs it.  [Object.prototype], the value of the member [__proto__], prints
    as [[object Object]]; the other members are built-in functions and print
    as their source text, in V8's spelling ([constructor] is the function
    [Object]). *)
Definition ToString (v : value) : string :=
  match v with
  | Str s => s
  | Member name =>
      if bool_decide (name = "__proto__") then "[object Object]"
      else
        "function "
        +:+ (if bool_decide (name = "constructor") then "Object" else name)
        +:+ "() { [native code] }"
  | Undefined => "undefined"
  end.

(** [a || b]: the empty string and [undefined] are falsy. *)
Definition or (a b : value) : value :=
  match a with
  | Str s => if bool_decide (s = EmptyString) then b else a
  | Member _ => a
  | Undefined => b
  end.

End JS.

(** ** Object literals used as maps

    [colorMapper] and [this.textures] are object literals: a read by name
    that finds no own property goes on to [Object.prototype].  An object is
    modelled by its own properties; the members of [Object.prototype] are the
    same for all. *)
Module JSObject.

(** The names [Object.prototype] answers to. *)
Definition prototype_names : list string :=
  ["constructor"; "__defineGetter__"; "__defineSetter__"; "hasOwnProperty";
   "__lookupGetter__"; "__lookupSetter__"; "isPrototypeOf"; "propertyIsEnumerable";
   "toString"; "valueOf"; "__proto__"; "toLocaleString"]%string.

Definition inherited (k : string) : bool := bool_decide (k ∈ prototype_names).

(** [o[k]] for an object whose own properties are strings. *)
Definition get (own : gmap string string) (k : string) : JS.value :=
  match own !! k with
  | Some v => JS.Str v
  | None => if inherited k then JS.Member k else JS.Undefined
  end.

(** [k in o]. *)
Definition has (own : gmap string string) (k : string) : bool :=
  bool_decide (is_Some (own !! k)) || inherited k.

(** [o[k] = v] for a string [v]: an own property is made or overwritten,
    except under the name [__proto__], where the assignment reaches the setter
    of [Object.prototype], which ignores a value that is not an object. *)
Definition set (own : gmap string string) (k v : string) : gmap string string :=
  if bool_decide (k = "__proto__") && bool_decide (own !! k = None) then own
  else <[k := v]> own.

End JSObject.

(** ** The facing latch ([keyState] and its two listeners) *)

Record KeyState : Type := { lastKey : option Z; isActive : bool }.

#[global] Instance KeyState_eq_dec : EqDecision KeyState.
Proof. solve_decision. Defined.

(** [window.addEventListener("keydown", ...)], on [event.key]. *)
Definition keydown (event_key : string) (keyState : KeyState) : KeyState :=
  let key := JS.parseInt event_key 10 in
  if JS.ge key 1 && JS.le key 6
  then {| lastKey := key; isActive := true |}
  else keyState.

(** [window.addEventListener("keyup", ...)], on [event.key]. *)
Definition keyup (event_key : string) (keyState : KeyState) : KeyState :=
  let key := JS.parseInt event_key 10 in
  if JS.ge key 1 && JS.le key 6
  then {| lastKey := None; isActive := false |}
  else keyState.

Inductive KeyEvent : Type :=
  | KeyDown (event_key : string)
  | KeyUp (event_key : string).

Definition key_step (keyState : KeyState) (e : KeyEvent) : KeyState :=
  match e with
  | KeyDown k => keydown k keyState
  | KeyUp k => keyup k keyState
  end.

Definition key_run (es : list KeyEvent) (keyState : KeyState) : KeyState :=
  foldl key_step keyState es.

(** The two shapes of the latch the specification names. *)
Definition Neutral : KeyState := {| lastKey := None; isActive := false |}.
Definition Facing (d : Z) : KeyState := {| lastKey := Some d; isActive := true |}.

(** The [event.key] of the digit key [d]. *)
Definition digit_key (d : Z) : string :=
  String (ascii_of_N (Z.to_N (48 + d))) EmptyString.

(** ** Palette colours *)

(** The character class [[\dA-Fa-f]]. *)
Definition is_hex_class (c : ascii) : bool :=
  let n := JS.code c in
  ((48 <=? n) && (n <=? 57)) || ((65 <=? n) && (n <=? 70)) || ((97 <=? n) && (n <=? 102)).

(** [k] characters of the class; the rest of the input when they are there. *)
Fixpoint match_hex_times (k : nat) (s : string) : option string :=
  match k with
  | O => Some s
  | S k' =>
      match s with
      | String c r => if is_hex_class c then match_hex_times k' r else None
      | EmptyString => None
      end
  end.

(** [/^#[\dA-Fa-f]{6}$/.test(color)]: both anchors, no flag. *)
Definition test_hex_color (color : string) : bool :=
  match color with
  | String "#" r =>
      match match_hex_times 6 r with
      | Some EmptyString => true
      | _ => false
      end
  | _ => false
  end.

(** One channel of a variant: [Math.max(0, c - 30 * (i + 1)).toString(16).padStart(2, "0")]. *)
Definition shade_channel (c : option Z) (i : Z) : string :=
  JS.padStart 2 "0" (JS.toString (JS.max (Some 0) (JS.sub c (Some (30 * (i + 1))))) 16).

(** [colorVariants]; [inl] carries the message of the [Error] thrown. *)
Definition colorVariants (color : string) : string + list string :=
  if negb (test_hex_color color) then inl "Invalid hex color format"
  else
    let r := JS.parseInt (JS.slice 1 3 color) 16 in
    let g := JS.parseInt (JS.slice 3 5 color) 16 in
    let b := JS.parseInt (JS.slice 5 7 color) 16 in
    inr (foldl
           (fun variants i =>
              variants ++ ["#" +:+ shade_channel r i +:+ shade_channel g i +:+ shade_channel b i])
           [color] [1; 2]).

(** The specification's wording of a well-formed palette colour: a [#]
    followed by exactly six hexadecimal digits. *)
Definition hex_digits : list ascii := String.list_ascii_of_string "0123456789abcdefABCDEF".

Definition strict_hex_color (color : string) : Prop :=
  exists h : list ascii,
    List.length h = 6%nat /\ Forall (fun c => c ∈ hex_digits) h
    /\ color = String "#" (String.string_of_list_ascii h).

(** Channel [k] (0 red, 1 green, 2 blue) of a colour string, as the code reads it. *)
Definition channel (k : nat) (color : string) : option Z :=
  JS.parseInt (JS.slice (1 + 2 * k) (3 + 2 * k) color) 16.

(** Checks run over the finitely many channel digits and channel values. *)
Definition hex_pair_ok (a b : ascii) : bool :=
  match JS.parseInt (String a (String b EmptyString)) 16 with
  | Some v => (0 <=? v) && (v <=? 255)
  | None => false
  end.

Definition padded_hex_ok (n : Z) : bool :=
  match JS.padStart 2 "0" (JS.toString (Some n) 16) with
  | String a (String b EmptyString) =>
      is_hex_class a && is_hex_class b
      && bool_decide (JS.parseInt (String a (String b EmptyString)) 16 = Some n)
  | _ => false
  end.

(** ** Block type names *)

Definition extractFirstKey (path : string) : string :=
  let dotIndex := JS.indexOf "." path in
  if dotIndex =? -1 then path
  else JS.slice 0 (Z.to_nat dotIndex) path.

(** ** Blocks, chunks and the world store's carrier *)

(** Modelled from the spec: the classes [Block] and [EmptyBlock] of
    [@/data/map/block] are not among the sources.  A block is [Empty] or a
    [Material] of some kind; [new Block(t)] is [Material t], [new
    EmptyBlock(t)] is [Empty t], and [b.type] is the string it was built with. *)
Inductive Block : Type :=
  | Material (type : string)
  | Empty (type : string).

#[global] Instance Block_eq_dec : EqDecision Block.
Proof. solve_decision. Defined.

Definition Block_type (b : Block) : string :=
  match b with Material t => t | Empty t => t end.

(** [v instanceof EmptyBlock], where [None] is [undefined]. *)
Definition instanceof_EmptyBlock (v : option Block) : bool :=
  match v with Some (Empty _) => true | _ => false end.

(** Modelled from the spec: a chunk ([@/data/map/chunk]) is a dense grid
    [blocks[x][y][z]] of 8 x 8 x [Chunk.HEIGHT] blocks. *)
Abbreviation Chunk := (list (list (list Block))).

(** Modelled from the spec: the [Dimension] ([@/data/map/dimension]) owns the
    map from chunk coordinate to chunk. *)
Record Dimension : Type := { chunks : gmap (Z * Z) Chunk }.

(** [a[i]] on an array: [undefined] outside it. *)
Definition lookupZ {A : Type} (l : list A) (i : Z) : option A :=
  if bool_decide (0 <= i) then l !! Z.to_nat i else None.

(** ** Scene objects *)

(** What [getTexture] hands to a sprite: the texture generated for a colour
    key, or the member of [Object.prototype] that the read of the cache found
    under that name. *)
Inductive Texture : Type :=
  | TextureOf (key : string)
  | TextureMember (name : string).

#[global] Instance Texture_eq_dec : EqDecision Texture.
Proof. solve_decision. Defined.

Module ExtendedSprite.
Record t : Type := mk {
  id : nat;
  texture : Texture;
  pos : RenderBlockPos.t;
  containerCenter : XY.t;
  zIndex : Z
}.
#[global] Instance eq_dec : EqDecision t.
Proof. solve_decision. Defined.
End ExtendedSprite.

Module ExtendedContainer.
Record t : Type := mk {
  indexPos : XY.t;
  children : list ExtendedSprite.t;
  destroyed : bool
}.
End ExtendedContainer.

Module Item.
Record t : Type := mk { type : string; color : string }.
End Item.

(** ** The state of the module

    The module-level variables ([dimension], [colorMapper], [inventory.items],
    [selectedBlockType], [keyState]), the fields of the [Render] singleton, and
    the container objects it has created, by reference.  [colorMapper] and
    [textures] hold the own properties of the two object literals; the texture
    cached under a key is the one generated for that key. *)
Record RenderState : Type := mkState {
  dimension : Dimension;
  colorMapper : gmap string string;
  inventory_items : list Item.t;
  selectedBlockType : string;
  keyState : KeyState;
  textures : gset string;
  containers : gmap nat ExtendedContainer.t;
  rengerGrid : list (list nat);
  currentXOffset : Z;
  currentYOffset : Z;
  center : XY.t;
  nextId : nat
}.

Definition set_dimension (d : Dimension) (s : RenderState) : RenderState :=
  mkState d (colorMapper s) (inventory_items s) (selectedBlockType s) (keyState s)
    (textures s) (containers s) (rengerGrid s) (currentXOffset s) (currentYOffset s)
    (center s) (nextId s).

Definition set_palette (m : gmap string string) (items : list Item.t) (s : RenderState)
  : RenderState :=
  mkState (dimension s) m items (selectedBlockType s) (keyState s)
    (textures s) (containers s) (rengerGrid s) (currentXOffset s) (currentYOffset s)
    (center s) (nextId s).

Definition set_textures (t : gset string) (s : RenderState) : RenderState :=
  mkState (dimension s) (colorMapper s) (inventory_items s) (selectedBlockType s)
    (keyState s) t (containers s) (rengerGrid s) (currentXOffset s) (currentYOffset s)
    (center s) (nextId s).

Definition set_containers (h : gmap nat ExtendedContainer.t) (s : RenderState)
  : RenderState :=
  mkState (dimension s) (colorMapper s) (inventory_items s) (selectedBlockType s)
    (keyState s) (textures s) h (rengerGrid s) (currentXOffset s) (currentYOffset s)
    (center s) (nextId s).

Definition set_rengerGrid (g : list (list nat)) (s : RenderState) : RenderState :=
  mkState (dimension s) (colorMapper s) (inventory_items s) (selectedBlockType s)
    (keyState s) (textures s) (containers s) g (currentXOffset s) (currentYOffset s)
    (center s) (nextId s).

Definition set_offsets (xo yo : Z) (c : XY.t) (s : RenderState) : RenderState :=
  mkState (dimension s) (colorMapper s) (inventory_items s) (selectedBlockType s)
    (keyState s) (textures s) (containers s) (rengerGrid s) xo yo c (nextId s).

Definition set_nextId (n : nat) (s : RenderState) : RenderState :=
  mkState (dimension s) (colorMapper s) (inventory_items s) (selectedBlockType s)
    (keyState s) (textures s) (containers s) (rengerGrid s) (currentXOffset s)
    (currentYOffset s) (center s) n.

Definition set_input (ks : KeyState) (selected : string) (s : RenderState) : RenderState :=
  mkState (dimension s) (colorMapper s) (inventory_items s) selected ks
    (textures s) (containers s) (rengerGrid s) (currentXOffset s) (currentYOffset s)
    (center s) (nextId s).

(** [containers[c] = k]: the object behind the reference [c] becomes [k]. *)
Definition set_containers_of (c : nat) (k : ExtendedContainer.t) (s : RenderState)
  : RenderState :=
  set_containers (<[c := k]> (containers s)) s.

(** ** A state monad with exceptions

    [Throw] keeps the state reached when the exception was raised: the
    handlers of the source have no rollback. *)
Inductive result (A : Type) : Type :=
  | Ok (a : A) (s : RenderState)
  | Throw (msg : string) (s : RenderState).

Arguments Ok {A} a s.
Arguments Throw {A} msg s.

Definition M (A : Type) : Type := RenderState -> result A.

Definition ret {A : Type} (a : A) : M A := fun s => Ok a s.

Definition bind {A B : Type} (m : M A) (k : A -> M B) : M B :=
  fun s => match m s with
           | Ok a s' => k a s'
           | Throw msg s' => Throw msg s'
           end.

Definition throw {A : Type} (msg : string) : M A := fun s => Throw msg s.

Definition gets {A : Type} (f : RenderState -> A) : M A := fun s => Ok (f s) s.

Definition modify (f : RenderState -> RenderState) : M unit := fun s => Ok tt (f s).

Notation "'let*' x := m 'in' k" := (bind m (fun x => k))
  (at level 10, x name, m at level 100, k at level 200).
Notation "m ;;; k" := (bind m (fun _ => k))
  (at level 100, k at level 200, right associativity).

(** [for (const a of l) body(a)]. *)
Fixpoint for_each {A : Type} (l : list A) (body : A -> M unit) : M unit :=
  match l with
  | [] => ret tt
  | a :: l' => body a ;;; for_each l' body
  end.

(** A loop that pushes one value per round onto a fresh array. *)
Fixpoint for_collect {A B : Type} (l : list A) (body : A -> M B) : M (list B) :=
  match l with
  | [] => ret []
  | a :: l' => let* b := body a in let* bs := for_collect l' body in ret (b :: bs)
  end.

(** The state an outcome ends in, thrown or not. *)
Definition final_state {A : Type} (r : result A) : RenderState :=
  match r with Ok _ s => s | Throw _ s => s end.

(** [[0, 1, ..., n - 1]], the values of a counting loop's variable. *)
Definition upto (n : Z) : list Z := seqZ 0 n.

(** An array with the index of each element. *)
Definition indexed {A : Type} (l : list A) : list (Z * A) :=
  zip (seqZ 0 (Z.of_nat (List.length l))) l.


Section Render.

(** [Chunk.HEIGHT] ([@/data/map/chunk], not part of the sources at hand). *)
Variable Chunk_HEIGHT : Z.

Definition renderChunkHeight : Z := Chunk_HEIGHT.
Definition renderChunkSize : Z := 8.
Definition chunkSize : Z := 8.

(** ** Coordinate conversions *)

Definition convertBlockPosToRenderBlockPos (blockPos : BlockPos.t) : RenderBlockPos.t :=
  {| RenderBlockPos.x := BlockPos.x blockPos;
     RenderBlockPos.y := renderChunkHeight - 1 - BlockPos.z blockPos;
     RenderBlockPos.z := BlockPos.y blockPos |}.

Definition convertRenderBlockPosToBlockPos (renderBlockPos : RenderBlockPos.t) : BlockPos.t :=
  {| BlockPos.x := RenderBlockPos.x renderBlockPos;
     BlockPos.y := renderChunkHeight - 1 - RenderBlockPos.z renderBlockPos;
     BlockPos.z := RenderBlockPos.y renderBlockPos |}.

(** The inverse the pointer handler computes inline for a sprite's [pos]
    (lines 534-542, relative to the tile's box origin). *)
Definition handler_local_BlockPos (pos : RenderBlockPos.t) : BlockPos.t :=
  {| BlockPos.x := RenderBlockPos.x pos;
     BlockPos.y := RenderBlockPos.z pos;
     BlockPos.z := renderChunkHeight - RenderBlockPos.y pos - 1 |}.

(** ** The world store *)

(** The generator [new Generator3D("seed")]: by the specification a pure
    function of the seed and the absolute position.  The seed is fixed. *)
Variable generate : BlockPos.t -> Block.

(** Modelled from the spec: a chunk is materialised whole, every cell from the
    generator at its absolute position. *)
Definition generateChunk (coord : Z * Z) : Chunk :=
  (fun x =>
     (fun y =>
        (fun z => generate (BlockPos.mk (coord.1 * 8 + x) (coord.2 * 8 + y) z))
          <$> seqZ 0 Chunk_HEIGHT)
       <$> seqZ 0 8)
    <$> seqZ 0 8.

(** Modelled from the spec: [Dimension.getChunkFromChunkPos], lazy
    materialisation keyed by chunk coordinate. *)
Definition getChunkFromChunkPos (coord : Z * Z) (d : Dimension) : Dimension * Chunk :=
  match chunks d !! coord with
  | Some c => (d, c)
  | None =>
      let c := generateChunk coord in
      ({| chunks := <[coord := c]> (chunks d) |}, c)
  end.

(** Chunk coordinate: [floor(pos / tileSize)] on both horizontal axes. *)
Definition chunkPosOf (p : BlockPos.t) : Z * Z :=
  (BlockPos.x p `div` 8, BlockPos.y p `div` 8).

Definition chunk_get (c : Chunk) (x y z : Z) : option Block :=
  plane ← lookupZ c x; column ← lookupZ plane y; lookupZ column z.

(** [blocks[x][y][z] = b].  The specification leaves a write outside
    [0, HEIGHT) to a policy of the implementation; here it changes nothing. *)
Definition chunk_set (c : Chunk) (x y z : Z) (b : Block) : Chunk :=
  if bool_decide (0 <= z)
  then alter (alter (fun column => <[Z.to_nat z := b]> column) (Z.to_nat y)) (Z.to_nat x) c
  else c.

(** Modelled from the spec: [Dimension.getBlock]; [None] is the result outside
    the height range. *)
Definition Dimension_getBlock (p : BlockPos.t) (d : Dimension) : Dimension * option Block :=
  let '(d', c) := getChunkFromChunkPos (chunkPosOf p) d in
  (d', chunk_get c (BlockPos.x p `mod` 8) (BlockPos.y p `mod` 8) (BlockPos.z p)).

(** Modelled from the spec: [Dimension.setBlock], same resolution, the chunk
    array changed in place. *)
Definition Dimension_setBlock (p : BlockPos.t) (b : Block) (d : Dimension) : Dimension :=
  let '(d', c) := getChunkFromChunkPos (chunkPosOf p) d in
  {| chunks :=
       <[chunkPosOf p :=
           chunk_set c (BlockPos.x p `mod` 8) (BlockPos.y p `mod` 8) (BlockPos.z p) b]>
         (chunks d') |}.

(** State-threading map: one call per element, left to right. *)
Fixpoint mapS {A B S : Type} (f : A -> S -> S * B) (l : list A) (s : S) : S * list B :=
  match l with
  | [] => (s, [])
  | a :: l' =>
      let '(s1, b) := f a s in
      let '(s2, bs) := mapS f l' s1 in
      (s2, b :: bs)
  end.

(** The integers of the inclusive range [lo .. hi]. *)
Definition zrange (lo hi : Z) : list Z := seqZ lo (hi - lo + 1).

(** Modelled from the spec: [Dimension.getBlockArray], every block of the
    inclusive box by repeated [getBlock], indexed from [min]. *)
Definition Dimension_getBlockArray (min max : BlockPos.t) (d : Dimension)
  : Dimension * list (list (list (option Block))) :=
  mapS (fun x =>
    mapS (fun y =>
      mapS (fun z => Dimension_getBlock (BlockPos.mk x y z))
        (zrange (BlockPos.z min) (BlockPos.z max)))
      (zrange (BlockPos.y min) (BlockPos.y max)))
    (zrange (BlockPos.x min) (BlockPos.x max)) d.

(** What a read at [p] answers, without the materialisation it may trigger. *)
Definition peek (d : Dimension) (p : BlockPos.t) : option Block :=
  (Dimension_getBlock p d).2.

(** The calls of the module on its [dimension]. *)
Definition getBlock (p : BlockPos.t) : M (option Block) :=
  fun s =>
    let '(d', v) := Dimension_getBlock p (dimension s) in
    Ok v (set_dimension d' s).

Definition setBlock (p : BlockPos.t) (b : Block) : M unit :=
  modify (fun s => set_dimension (Dimension_setBlock p b (dimension s)) s).

(** ** Textures and sprites *)

(** [this.textures[key]]: an own texture, else the member of
    [Object.prototype] of that name, else [undefined] ([None]). *)
Definition cachedTexture (key : string) (s : RenderState) : option Texture :=
  if bool_decide (key ∈ textures s) then Some (TextureOf key)
  else if JSObject.inherited key then Some (TextureMember key)
  else None.

(** [createGraphics(color)], as far as it can throw: [colorVariants] tests
    the colour as a string and then slices it, which only a string allows. *)
Definition createGraphics (color : JS.value) : string + list string :=
  match color with
  | JS.Str c => colorVariants c
  | _ =>
      if negb (test_hex_color (JS.ToString color)) then inl "Invalid hex color format"
      else inl "TypeError: color.slice is not a function"
  end.

(** [this.textures[color] ||= generateTexture(createGraphics(color))] and the
    read that follows: the graphics are built, and may throw, only when the
    read of the cache finds nothing, own or inherited. *)
Definition getTexture (color : JS.value) : M Texture :=
  let key := JS.ToString color in
  let* found := gets (cachedTexture key) in
  match found with
  | Some texture => ret texture
  | None =>
      match createGraphics color with
      | inl msg => throw msg
      | inr _ =>
          modify (fun s => set_textures ({[key]} ∪ textures s) s) ;;;
          ret (TextureOf key)
      end
  end.

Definition fresh : M nat :=
  fun s => Ok (nextId s) (set_nextId (S (nextId s)) s).

(** [container.addChild(sprite)]; the container may be [undefined]. *)
Definition addChild (container : option nat) (sprite : ExtendedSprite.t) : M unit :=
  match container with
  | None => throw "TypeError: container is undefined"
  | Some c =>
      let* found := gets (fun s => containers s !! c) in
      match found with
      | None => throw "no such container"
      | Some k =>
          modify (set_containers_of c
            (ExtendedContainer.mk (ExtendedContainer.indexPos k)
               (ExtendedContainer.children k ++ [sprite])
               (ExtendedContainer.destroyed k)))
      end
  end.

(** The draw-order key of a sprite. *)
Definition drawKey (pos : RenderBlockPos.t) : Z :=
  (RenderBlockPos.x pos + RenderBlockPos.z pos) * 100000 - RenderBlockPos.y pos * 10.

(** [renderBlock] up to the registration of the pointer handler, which is
    [pointerdown] below applied to the sprite and the container. *)
Definition renderBlock (color : JS.value) (pos : RenderBlockPos.t)
    (container : option nat) (chunkCenter : XY.t) : M unit :=
  let* texture := getTexture color in
  let* i := fresh in
  addChild container (ExtendedSprite.mk i texture pos chunkCenter (drawKey pos)).

(** [colorMapper[selectedBlockType] || "#00ff00"]. *)
Definition selectedColor (s : RenderState) : JS.value :=
  JS.or (JSObject.get (colorMapper s) (selectedBlockType s)) (JS.Str "#00ff00").

(** [this.rengerGrid[i][j]]: a [TypeError] when the row is [undefined]. *)
Definition gridAt (i j : Z) : M (option nat) :=
  let* grid := gets rengerGrid in
  match lookupZ grid i with
  | None => throw "TypeError: row is undefined"
  | Some row => ret (lookupZ row j)
  end.

(** ** The pointer handler of a sprite *)

(** The absolute position of the clicked block (lines 534-547); 4 is
    [Math.ceil(renderChunkSize / 2)]. *)
Definition absolutePos (sprite : ExtendedSprite.t) : BlockPos.t :=
  let pos := ExtendedSprite.pos sprite in
  let c := ExtendedSprite.containerCenter sprite in
  {| BlockPos.x := XY.x c - 4 + RenderBlockPos.x pos;
     BlockPos.y := XY.y c - 4 + RenderBlockPos.z pos;
     BlockPos.z := renderChunkHeight - RenderBlockPos.y pos - 1 |}.

(** [sprite.parent.removeChild(sprite)] for a sprite on the stage, whose
    parent is the container the handler was registered with. *)
Definition removeChild (container : nat) (sprite : ExtendedSprite.t) : M unit :=
  let* found := gets (fun s => containers s !! container) in
  match found with
  | None => throw "no such container"
  | Some k =>
      modify (set_containers_of container
        (ExtendedContainer.mk (ExtendedContainer.indexPos k)
           (filter (fun c => ExtendedSprite.id c <> ExtendedSprite.id sprite)
              (ExtendedContainer.children k))
           (ExtendedContainer.destroyed k)))
  end.

(** [sprite.on("pointerdown", ...)] for the sprite [sprite] that [renderBlock]
    added to [container]; [button] is [event.button]. *)
Definition pointerdown (button : Z) (container : nat) (sprite : ExtendedSprite.t) : M unit :=
  if negb (button =? 0) then ret tt
  else
    let pos := ExtendedSprite.pos sprite in
    let chunkCenter := ExtendedSprite.containerCenter sprite in
    let absolutePos := absolutePos sprite in
    let ax := BlockPos.x absolutePos in
    let ay := BlockPos.y absolutePos in
    let az := BlockPos.z absolutePos in
    let px := RenderBlockPos.x pos in
    let py := RenderBlockPos.y pos in
    let pz := RenderBlockPos.z pos in
    let* found := gets (fun s => containers s !! container) in
    match found with
    | None => throw "no such container"
    | Some k =>
        let containerIndex := ExtendedContainer.indexPos k in
        let* ks := gets keyState in
        let* color := gets selectedColor in
        let* selected := gets selectedBlockType in
        if isActive ks then
          match lastKey ks with
          | Some 1 =>
              (if pz + 1 <? chunkSize + 1
               then renderBlock color (RenderBlockPos.mk px py (pz + 1))
                      (Some container) chunkCenter
               else
                 let* target := gridAt (XY.x containerIndex + 1) (XY.y containerIndex) in
                 renderBlock color
                   (RenderBlockPos.mk px py (Z.rem (pz + 1) (chunkSize + 1)))
                   target chunkCenter) ;;;
              setBlock (BlockPos.mk ax (ay + 1) az) (Material selected)
          | Some 2 =>
              setBlock (BlockPos.mk ax (ay - 1) az) (Material selected) ;;;
              if 0 <=? pz - 1
              then renderBlock color (RenderBlockPos.mk px py (pz - 1))
                     (Some container) chunkCenter
              else
                let* target := gridAt (XY.x containerIndex - 1) (XY.y containerIndex) in
                renderBlock color (RenderBlockPos.mk px py (pz - 1 + chunkSize + 1))
                  target chunkCenter
          | Some 3 =>
              (if 0 <=? px - 1
               then renderBlock color (RenderBlockPos.mk (px - 1) py pz)
                      (Some container) chunkCenter
               else
                 let* target := gridAt (XY.x containerIndex) (XY.y containerIndex - 1) in
                 renderBlock color (RenderBlockPos.mk (px - 1 + chunkSize + 1) py pz)
                   target chunkCenter) ;;;
              setBlock (BlockPos.mk (ax - 1) ay az) (Material selected)
          | Some 4 =>
              (if px + 1 <? chunkSize + 1
               then renderBlock color (RenderBlockPos.mk (px + 1) py pz)
                      (Some container) chunkCenter
               else
                 let* target := gridAt (XY.x containerIndex) (XY.y containerIndex + 1) in
                 renderBlock color
                   (RenderBlockPos.mk (Z.rem (px + 1) (chunkSize + 1)) py pz)
                   target chunkCenter) ;;;
              setBlock (BlockPos.mk (ax + 1) ay az) (Material selected)
          | other =>
              let* up :=
                (if bool_decide (other = Some 5) then
                   let* above := getBlock (BlockPos.mk ax ay (az + 1)) in
                   ret (instanceof_EmptyBlock above && (az + 1 <? renderChunkHeight))
                 else ret false) in
              if up : bool then
                renderBlock color (RenderBlockPos.mk px (py - 1) pz)
                  (Some container) chunkCenter ;;;
                setBlock (BlockPos.mk ax ay (az + 1)) (Material selected)
              else
                let* down :=
                  (if bool_decide (other = Some 6) then
                     let* below := getBlock (BlockPos.mk ax ay (az - 1)) in
                     ret (instanceof_EmptyBlock below && (0 <? az - 1))
                   else ret false) in
                if down : bool then
                  renderBlock color (RenderBlockPos.mk px (py + 1) pz)
                    (Some container) chunkCenter ;;;
                  setBlock (BlockPos.mk ax ay (az - 1)) (Material selected)
                else ret tt
          end
        else
          removeChild container sprite ;;;
          setBlock absolutePos (Empty "air")
    end.

(** ** The palette *)

(** [inventory.addItem(item)]: [items.unshift(item)]; the redraw of the DOM
    widget is outside the model. *)
Definition inventory_addItem (item : Item.t) (items : list Item.t) : list Item.t :=
  item :: items.

(** [addNewBlockType(aiBlockData)]; the argument is the object's own entries
    in enumeration order. *)
Definition addNewBlockType (aiBlockData : list (string * string)) : M unit :=
  for_each aiBlockData (fun entry =>
    let key := entry.1 in
    let keyMody := extractFirstKey key in
    let blockData := entry.2 in
    if negb (JS.includes "#" blockData) then ret tt
    else
      modify (fun s =>
        set_palette (JSObject.set (colorMapper s) keyMody blockData)
          (inventory_addItem (Item.mk keyMody blockData) (inventory_items s)) s)).

(** ** Tiles *)

(** Window size in tiles: [ceil(innerWidth / renderChunkPixiWidth) + 5] and
    the like for the height, fixed when the module is loaded. *)
Variable xMaxChunkLength : Z.
Variable yMaxChunkLength : Z.

Definition offsetX : Z := xMaxChunkLength `div` 2.
Definition offsetY : Z := yMaxChunkLength `div` 2.

(** Modelled from the spec: [traverse3DArray] of [@/data/map/utils] calls back
    on every cell with its index, outer axis first. *)
Definition traverse3DArray {A : Type} (array : list (list (list A)))
    (callback : A -> BlockPos.t -> M unit) : M unit :=
  for_each (indexed array) (fun xp =>
    for_each (indexed xp.2) (fun yc =>
      for_each (indexed yc.2) (fun zv =>
        callback zv.2 (BlockPos.mk xp.1 yc.1 zv.1)))).

Definition newContainer : M nat :=
  let* c := fresh in
  modify (set_containers_of c (ExtendedContainer.mk (XY.mk 0 0) [] false)) ;;;
  ret c.

(** [value.type in colorMapper ? colorMapper[value.type] : "#000000"]. *)
Definition tileColor (m : gmap string string) (type : string) : JS.value :=
  if JSObject.has m type then JSObject.get m type else JS.Str "#000000".

(** [renderRChunk]: a new container with one sprite per block that is not
    empty.  The neighbour tests of the source feed no decision (their uses are
    commented out) and read inside the array only; they are left out. *)
Definition renderRChunk (blockArray : list (list (list (option Block))))
    (chunkcenter : XY.t) : M nat :=
  let* container := newContainer in
  traverse3DArray blockArray (fun value pos =>
    match value with
    | None => throw "TypeError: value is undefined"
    | Some (Empty _) => ret tt
    | Some (Material type) =>
        let* color := gets (fun s => tileColor (colorMapper s) type) in
        renderBlock color (convertBlockPosToRenderBlockPos pos) (Some container) chunkcenter
    end) ;;;
  ret container.

(** [Render.getBlockArray(center)]: the box of nine by nine columns around
    [center], over the whole height; 4 is both [Math.ceil(renderChunkSize / 2)]
    and [Math.floor(renderChunkSize / 2)]. *)
Definition getBlockArray (center : XY.t) : M (list (list (list (option Block)))) :=
  fun s =>
    let '(d', array) :=
      Dimension_getBlockArray
        (BlockPos.mk (XY.x center - 4) (XY.y center - 4) 0)
        (BlockPos.mk (XY.x center + 4) (XY.y center + 4) (renderChunkHeight - 1))
        (dimension s) in
    Ok array (set_dimension d' s).

(** One tile: read its box, build its container. *)
Definition buildTile (center : XY.t) : M nat :=
  let* array := getBlockArray center in
  renderRChunk array center.

(** [container.destroy()]: the object stays, without children. *)
Definition destroy (c : nat) : M unit :=
  let* found := gets (fun s => containers s !! c) in
  match found with
  | None => throw "no such container"
  | Some k =>
      modify (set_containers_of c
        (ExtendedContainer.mk (ExtendedContainer.indexPos k) [] true))
  end.

(** [initStage(center)]; [None] is the omitted argument. *)
Definition initStage (center : option XY.t) : M unit :=
  let center := default (XY.mk 0 0) center in
  for_each (upto yMaxChunkLength) (fun y =>
    let* row :=
      for_collect (upto xMaxChunkLength) (fun x =>
        buildTile (XY.mk ((x + XY.x center - offsetX) * chunkSize)
                         ((y + XY.y center - offsetY) * chunkSize))) in
    modify (fun s => set_rengerGrid (rengerGrid s ++ [row]) s)).

(** [this.rengerGrid[i][j].y] and the like: the reads of a field of a grid
    cell, a [TypeError] when the row or the cell is [undefined]. *)
Definition readCell (i j : Z) : M unit :=
  let* cell := gridAt i j in
  match cell with
  | None => throw "TypeError: cell is undefined"
  | Some _ => ret tt
  end.

Definition gridLength : M Z := gets (fun s => Z.of_nat (List.length (rengerGrid s))).

Definition addTopRow : M unit :=
  let* grid := gets rengerGrid in
  match last grid with
  | Some popped =>
      modify (set_rengerGrid (removelast grid)) ;;;
      for_each popped destroy
  | None => ret tt
  end ;;;
  readCell 0 0 ;;;
  modify (fun s =>
    set_offsets (currentXOffset s) (currentYOffset s - 1)
      (XY.mk (XY.x (center s)) (XY.y (center s) - 1)) s) ;;;
  let* row :=
    for_collect (upto xMaxChunkLength) (fun x =>
      let* xo := gets currentXOffset in
      let* yo := gets currentYOffset in
      buildTile (XY.mk ((x + xo - offsetX) * chunkSize) ((yo - offsetY) * chunkSize))) in
  modify (fun s => set_rengerGrid (row :: rengerGrid s) s).

(** [this.rengerGrid[y] = f(this.rengerGrid[y])] for the in-place [shift],
    [pop], [push] and [unshift] on one row. *)
Definition updateRow (y : Z) (f : list nat -> list nat) : M unit :=
  modify (fun s => set_rengerGrid (alter f (Z.to_nat y) (rengerGrid s)) s).

Definition rowAt (y : Z) : M (list nat) :=
  let* grid := gets rengerGrid in
  match lookupZ grid y with
  | None => throw "TypeError: row is undefined"
  | Some row => ret row
  end.

Definition addRightColumn : M unit :=
  modify (fun s => set_offsets (currentXOffset s + 1) (currentYOffset s) (center s) s) ;;;
  for_each (upto yMaxChunkLength) (fun y =>
    let* row := rowAt y in
    readCell y (Z.of_nat (List.length row) - 1) ;;;
    match row with
    | first :: rest => updateRow y (fun _ => rest) ;;; destroy first
    | [] => ret tt
    end ;;;
    let* xo := gets currentXOffset in
    let* yo := gets currentYOffset in
    let* container :=
      buildTile (XY.mk ((xMaxChunkLength - 1 + xo) * chunkSize)
                       ((y + yo - offsetY) * chunkSize)) in
    updateRow y (fun r => r ++ [container])).

Definition addBottomRow : M unit :=
  let* grid := gets rengerGrid in
  match grid with
  | shifted :: rest =>
      modify (set_rengerGrid rest) ;;;
      for_each shifted destroy
  | [] => ret tt
  end ;;;
  let* n := gridLength in
  readCell (n - 1) 0 ;;;
  modify (fun s => set_offsets (currentXOffset s) (currentYOffset s + 1) (center s) s) ;;;
  let* row :=
    for_collect (upto xMaxChunkLength) (fun x =>
      let* xo := gets currentXOffset in
      let* yo := gets currentYOffset in
      buildTile (XY.mk ((x + xo - offsetX) * chunkSize)
                       ((yo - offsetY + yMaxChunkLength) * chunkSize))) in
  modify (fun s => set_rengerGrid (rengerGrid s ++ [row]) s).

Definition addLeftColumn : M unit :=
  modify (fun s => set_offsets (currentXOffset s - 1) (currentYOffset s) (center s) s) ;;;
  for_each (upto yMaxChunkLength) (fun y =>
    readCell y 0 ;;;
    let* row := rowAt y in
    match last row with
    | Some popped => updateRow y (fun r => removelast r) ;;; destroy popped
    | None => ret tt
    end ;;;
    let* xo := gets currentXOffset in
    let* yo := gets currentYOffset in
    let* container :=
      buildTile (XY.mk ((0 + xo - offsetX) * chunkSize)
                       ((y + yo - offsetY) * chunkSize)) in
    updateRow y (fun r => container :: r)).

(** [reassignIndex]: the assignment throws on an [undefined] cell. *)
Definition reassignIndex : M unit :=
  for_each (upto yMaxChunkLength) (fun i =>
    for_each (upto xMaxChunkLength) (fun j =>
      let* cell := gridAt i j in
      match cell with
      | None => throw "TypeError: cell is undefined"
      | Some c =>
          let* found := gets (fun s => containers s !! c) in
          match found with
          | None => throw "no such container"
          | Some k =>
              modify (set_containers_of c
                (ExtendedContainer.mk (XY.mk i j) (ExtendedContainer.children k)
                   (ExtendedContainer.destroyed k)))
          end
      end)).

(** [willOutOfScreen]: it reads the corner tiles of the grid and compares
    their pixel positions with the window.  The comparisons are on floating
    point values the model does not carry; their outcome is the argument
    [answer], and the reads stay. *)
Definition willOutOfScreen (answer : bool) : M bool :=
  readCell 0 0 ;;;
  let* n := gridLength in
  let* row0 := rowAt 0 in
  readCell (n - 1) (Z.of_nat (List.length row0) - 1) ;;;
  readCell (n - 1) 0 ;;;
  ret answer.

(** The four edge shifts. *)
Inductive Shift : Type := ShiftTop | ShiftBottom | ShiftRight | ShiftLeft.

Definition shift (op : Shift) : M unit :=
  match op with
  | ShiftTop => addTopRow
  | ShiftBottom => addBottomRow
  | ShiftRight => addRightColumn
  | ShiftLeft => addLeftColumn
  end.

(** The ticker callback after the camera moves: the four boundary tests, each
    followed by its shift when it fires, then the reindex pass. *)
Definition tick (top bottom right left : bool) : M unit :=
  let* t := willOutOfScreen top in
  (if t : bool then addTopRow else ret tt) ;;;
  let* b := willOutOfScreen bottom in
  (if b : bool then addBottomRow else ret tt) ;;;
  let* r := willOutOfScreen right in
  (if r : bool then addRightColumn else ret tt) ;;;
  let* l := willOutOfScreen left in
  (if l : bool then addLeftColumn else ret tt) ;;;
  reassignIndex.

(** The state when the module has been loaded, before [initStage]: the six
    stock colours, their inventory items in [unshift] order, and the one chunk
    [dimension.getChunkFromChunkPos({ x: 0, y: 0 })] has materialised. *)
Definition initial_colorMapper : gmap string string :=
  <["snow" := "#ffffff"]> (<["dirt" := "#8b4513"]> (<["grass" := "#00ff00"]>
  (<["water" := "#0000ff"]> (<["sand" := "#f0e68c"]> (<["stone" := "#808080"]> ∅)))))%string.

Definition initial_state : RenderState :=
  {| dimension := (getChunkFromChunkPos (0, 0) {| chunks := ∅ |}).1;
     colorMapper := initial_colorMapper;
     inventory_items :=
       [Item.mk "snow" "#ffffff"; Item.mk "dirt" "#8b4513"; Item.mk "grass" "#00ff00";
        Item.mk "water" "#0000ff"; Item.mk "sand" "#f0e68c"; Item.mk "stone" "#808080"]%string;
     selectedBlockType := "grass";
     keyState := Neutral;
     textures := ∅;
     containers := ∅;
     rengerGrid := [];
     currentXOffset := 0;
     currentYOffset := 0;
     center := XY.mk 0 0;
     nextId := 0 |}.

(** ** Events

    What the page delivers to the module once the stage is up: ticks of the
    ticker, pointer-downs on sprites, key events, and selections from the
    inventory widget ([eventBus.on("inventory:select", ...)]). *)
Inductive Event : Type :=
  | EvTick (t b r l : bool)
  | EvPointerDown (button : Z) (container : nat) (sprite : ExtendedSprite.t)
  | EvKeyDown (event_key : string)
  | EvKeyUp (event_key : string)
  | EvSelect (type : string).

Definition handle (e : Event) : M unit :=
  match e with
  | EvTick t b r l => tick t b r l
  | EvPointerDown button container sprite => pointerdown button container sprite
  | EvKeyDown k =>
      modify (fun s => set_input (keydown k (keyState s)) (selectedBlockType s) s)
  | EvKeyUp k =>
      modify (fun s => set_input (keyup k (keyState s)) (selectedBlockType s) s)
  | EvSelect type => modify (fun s => set_input (keyState s) type s)
  end.

(** The state after a sequence of events.  An exception escaping a handler
    ends that handler only; the page goes on with the state it left. *)
Definition after_events (es : list Event) (s : RenderState) : RenderState :=
  foldl (fun s e => final_state (handle e s)) s es.

(** ** Invariants *)

(** A chunk is fully populated: 8 x 8 columns of [Chunk.HEIGHT] blocks. *)
Definition chunk_shape (c : Chunk) : Prop :=
  List.length c = 8%nat
  /\ Forall (fun plane =>
       List.length plane = 8%nat
       /\ Forall (fun column => List.length column = Z.to_nat Chunk_HEIGHT) plane) c.

Definition wf_dimension (d : Dimension) : Prop :=
  map_Forall (fun _ c => chunk_shape c) (chunks d).

(** Every colour of the palette passes the check of [colorVariants]. *)
Definition colors_ok (m : gmap string string) : Prop :=
  map_Forall (fun _ c => test_hex_color c = true) m.

(** The chunk a position resolves to, materialised or not yet. *)
Definition chunk_of (d : Dimension) (coord : Z * Z) : Chunk :=
  default (generateChunk coord) (chunks d !! coord).

(** References are handed out in increasing order. *)
Definition heap_ok (s : RenderState) : Prop :=
  forall c, is_Some (containers s !! c) -> (c < nextId s)%nat.

(** A block type whose colour the palette answers with a string: it has an
    own entry, or [Object.prototype] has no member of that name. *)
Definition type_ok (m : gmap string string) (type : string) : Prop :=
  is_Some (m !! type) \/ JSObject.inherited type = false.

(** The palette can paint the world: its own colours are valid, and neither
    a block of the world nor the selected type bears a name that only
    [Object.prototype] answers to. *)
Definition palette_ok (s : RenderState) : Prop :=
  colors_ok (colorMapper s)
  /\ (forall p type, peek (dimension s) p = Some (Material type) ->
        type_ok (colorMapper s) type)
  /\ type_ok (colorMapper s) (selectedBlockType s).

Definition world_ok (s : RenderState) : Prop :=
  wf_dimension (dimension s) /\ palette_ok s /\ heap_ok s.

(** The generator makes no block whose type bears the name of a member of
    [Object.prototype]. *)
Definition generator_ok : Prop :=
  forall p type, generate p = Material type -> JSObject.inherited type = false.

(** The grid is a complete rectangle of [yMaxChunkLength] rows of
    [xMaxChunkLength] containers. *)
Definition grid_rect (g : list (list nat)) : Prop :=
  List.length g = Z.to_nat yMaxChunkLength
  /\ Forall (fun row => List.length row = Z.to_nat xMaxChunkLength) g.

(** No container object sits in two cells, and every cell's object exists. *)
Definition grid_refs_ok (s : RenderState) : Prop :=
  NoDup (concat (rengerGrid s))
  /\ Forall (fun c => is_Some (containers s !! c)) (concat (rengerGrid s)).

Definition grid_ok (s : RenderState) : Prop :=
  world_ok s /\ grid_rect (rengerGrid s) /\ grid_refs_ok s.

(** Every cell of the grid carries its own matrix position. *)
Definition indexed_ok (s : RenderState) : Prop :=
  forall i j, 0 <= i < yMaxChunkLength -> 0 <= j < xMaxChunkLength ->
    exists row c k,
      lookupZ (rengerGrid s) i = Some row /\ lookupZ row j = Some c
      /\ containers s !! c = Some k
      /\ ExtendedContainer.indexPos k = XY.mk i j.

(** Reading gives the same answer everywhere. *)
Definition same_blocks (d d' : Dimension) : Prop :=
  forall p, peek d' p = peek d p.

(** A cell of a box read from [d]: a block, the answer of [d] somewhere. *)
Definition read_of (d : Dimension) (v : option Block) : Prop :=
  is_Some v /\ exists p, v = peek d p.

(** The parts of the state no tile operation touches. *)
Definition same_config (s s' : RenderState) : Prop :=
  colorMapper s' = colorMapper s
  /\ inventory_items s' = inventory_items s
  /\ selectedBlockType s' = selectedBlockType s
  /\ keyState s' = keyState s.

(** What building one tile does to a state: a new container under the next
    free reference, nothing else moved. *)
Definition tile_built (s : RenderState) (c : nat) (s' : RenderState) : Prop :=
  world_ok s'
  /\ c = nextId s
  /\ (nextId s < nextId s')%nat
  /\ rengerGrid s' = rengerGrid s
  /\ same_config s s'
  /\ (forall r, r <> c -> containers s' !! r = containers s !! r)
  /\ is_Some (containers s' !! c)
  /\ same_blocks (dimension s) (dimension s')
  /\ currentXOffset s' = currentXOffset s
  /\ currentYOffset s' = currentYOffset s.

(** The texture [getTexture] returns for a colour it accepts: what the cache
    answers, or the texture generated for the colour. *)
Definition texture_of (color : JS.value) (s : RenderState) : Texture :=
  default (TextureOf (JS.ToString color)) (cachedTexture (JS.ToString color) s).

(** The state after a successful [getTexture]: a texture generated for the
    colour has been stored. *)
Definition texture_cached (color : JS.value) (s : RenderState) : RenderState :=
  match cachedTexture (JS.ToString color) s with
  | Some _ => s
  | None => set_textures ({[JS.ToString color]} ∪ textures s) s
  end.

(** The state after a successful [renderBlock]: the texture is cached, one
    identifier is used, and the sprite is the last child of the container. *)
Definition sprite_placed (color : JS.value) (pos : RenderBlockPos.t) (c : nat)
    (k : ExtendedContainer.t) (chunkCenter : XY.t) (s : RenderState) : RenderState :=
  set_containers_of c
    (ExtendedContainer.mk (ExtendedContainer.indexPos k)
       (ExtendedContainer.children k
          ++ [ExtendedSprite.mk (nextId s) (texture_of color s) pos chunkCenter
                (drawKey pos)])
       (ExtendedContainer.destroyed k))
    (set_nextId (S (nextId s)) (texture_cached color s)).

(** [s'] differs from [s] at most in the texture cache, the identifier
    counter, which has not gone down, and the container [c]. *)
Definition only_scene (c : nat) (s s' : RenderState) : Prop :=
  dimension s' = dimension s
  /\ same_config s s'
  /\ rengerGrid s' = rengerGrid s
  /\ currentXOffset s' = currentXOffset s
  /\ currentYOffset s' = currentYOffset s
  /\ (nextId s <= nextId s')%nat
  /\ (forall r, r <> c -> containers s' !! r = containers s !! r)
  /\ (is_Some (containers s !! c) -> is_Some (containers s' !! c)).

(** A colour [getTexture] accepts in state [s]: a string of the form
    #hhhhhh, or a value for whose key the read of the cache finds something,
    an own texture or a member of [Object.prototype]. *)
Definition color_usable (color : JS.value) (s : RenderState) : Prop :=
  (exists c, color = JS.Str c /\ test_hex_color c = true)
  \/ is_Some (cachedTexture (JS.ToString color) s).

(** What building a row of [n] tiles does: [n] new containers under
    references the state had not used yet. *)
Definition row_built (n : nat) (s : RenderState) (cs : list nat) (s' : RenderState) : Prop :=
  world_ok s'
  /\ length cs = n
  /\ NoDup cs
  /\ Forall (fun c => (nextId s <= c)%nat /\ is_Some (containers s' !! c)) cs
  /\ rengerGrid s' = rengerGrid s
  /\ same_config s s'
  /\ (forall r, (r < nextId s)%nat -> containers s' !! r = containers s !! r)
  /\ same_blocks (dimension s) (dimension s')
  /\ currentXOffset s' = currentXOffset s
  /\ currentYOffset s' = currentYOffset s
  /\ (nextId s <= nextId s')%nat.

(** [s'] has the same objects as [s]: only fields of containers changed. *)
Definition same_objects (s s' : RenderState) : Prop :=
  dimension s' = dimension s
  /\ same_config s s'
  /\ rengerGrid s' = rengerGrid s
  /\ nextId s' = nextId s
  /\ (forall r, is_Some (containers s' !! r) <-> is_Some (containers s !! r)).

(** The outcome the invariance lemmas promise of a shift. *)
Definition shifted (s s' : RenderState) : Prop :=
  grid_ok s' /\ same_blocks (dimension s) (dimension s') /\ same_config s s'.

(** The grid while [initStage] fills it: [n] complete rows so far. *)
Definition rows_ok (n : nat) (s : RenderState) : Prop :=
  world_ok s
  /\ length (rengerGrid s) = n
  /\ Forall (fun row => length row = Z.to_nat xMaxChunkLength) (rengerGrid s)
  /\ grid_refs_ok s.

(** The cell in row [i], column [j] holds a container stamped [(i, j)]. *)
Definition cell_indexed (s : RenderState) (i j : Z) : Prop :=
  exists row c k,
    lookupZ (rengerGrid s) i = Some row /\ lookupZ row j = Some c
    /\ containers s !! c = Some k
    /\ ExtendedContainer.indexPos k = XY.mk i j.

(** [m] keeps the property [P] of the state, whether it returns or throws. *)
Definition preserves {A : Type} (P : RenderState -> Prop) (m : M A) : Prop :=
  forall s, P s -> P (final_state (m s)).

(** The world answers every read as [d] does. *)
Definition blocks_as (d : Dimension) (s : RenderState) : Prop :=
  same_blocks d (dimension s).

(** A property of the store that the materialisation of a chunk keeps. *)
Definition read_stable (Q : Dimension -> Prop) : Prop :=
  forall coord d, Q d -> Q (getChunkFromChunkPos coord d).1.

(** [Q] of the world the state holds. *)
Definition of_world (Q : Dimension -> Prop) (s : RenderState) : Prop :=
  Q (dimension s).

(** Every chunk of [d] is still in [d'], with the blocks it had. *)
Definition chunks_kept (d d' : Dimension) : Prop :=
  chunks d ⊆ chunks d'.

(** ** The vocabulary of the edit protocol *)

(** The position next to [p] that the digit key [d] stands for. *)
Definition neighbor (d : Z) (p : BlockPos.t) : BlockPos.t :=
  match d with
  | 1 => BlockPos.mk (BlockPos.x p) (BlockPos.y p + 1) (BlockPos.z p)
  | 2 => BlockPos.mk (BlockPos.x p) (BlockPos.y p - 1) (BlockPos.z p)
  | 3 => BlockPos.mk (BlockPos.x p - 1) (BlockPos.y p) (BlockPos.z p)
  | 4 => BlockPos.mk (BlockPos.x p + 1) (BlockPos.y p) (BlockPos.z p)
  | 5 => BlockPos.mk (BlockPos.x p) (BlockPos.y p) (BlockPos.z p + 1)
  | 6 => BlockPos.mk (BlockPos.x p) (BlockPos.y p) (BlockPos.z p - 1)
  | _ => p
  end.

(** The condition under which a vertical place goes ahead: the target is an
    empty block, and it is below the top (up) or above height 0 (down).  The
    four horizontal directions have no condition. *)
Definition vertical_guard (s : RenderState) (sprite : ExtendedSprite.t) (d : Z) : bool :=
  let target := neighbor d (absolutePos sprite) in
  match d with
  | 5 => instanceof_EmptyBlock (peek (dimension s) target)
         && (BlockPos.z target <? renderChunkHeight)
  | 6 => instanceof_EmptyBlock (peek (dimension s) target)
         && (0 <? BlockPos.z target)
  | _ => true
  end.

(** The cell of the grid at a matrix position, when there is one. *)
Definition cellAt (s : RenderState) (i j : Z) : option nat :=
  row ← lookupZ (rengerGrid s) i; lookupZ row j.

(** Where the scene node of a place goes: the clicked sprite's own container
    [c] and the neighbouring local position while that stays inside the
    nine-wide box of the tile, otherwise the container next to it in the grid,
    found from the stored [indexPos], at the local position wrapped around
    the box width [chunkSize + 1]. *)
Definition place_target (s : RenderState) (k : ExtendedContainer.t) (c : nat)
    (pos : RenderBlockPos.t) (d : Z) : option (nat * RenderBlockPos.t) :=
  let idx := ExtendedContainer.indexPos k in
  let px := RenderBlockPos.x pos in
  let py := RenderBlockPos.y pos in
  let pz := RenderBlockPos.z pos in
  match d with
  | 1 => if pz + 1 <? chunkSize + 1 then Some (c, RenderBlockPos.mk px py (pz + 1))
         else t ← cellAt s (XY.x idx + 1) (XY.y idx);
              Some (t, RenderBlockPos.mk px py (Z.rem (pz + 1) (chunkSize + 1)))
  | 2 => if 0 <=? pz - 1 then Some (c, RenderBlockPos.mk px py (pz - 1))
         else t ← cellAt s (XY.x idx - 1) (XY.y idx);
              Some (t, RenderBlockPos.mk px py (pz - 1 + chunkSize + 1))
  | 3 => if 0 <=? px - 1 then Some (c, RenderBlockPos.mk (px - 1) py pz)
         else t ← cellAt s (XY.x idx) (XY.y idx - 1);
              Some (t, RenderBlockPos.mk (px - 1 + chunkSize + 1) py pz)
  | 4 => if px + 1 <? chunkSize + 1 then Some (c, RenderBlockPos.mk (px + 1) py pz)
         else t ← cellAt s (XY.x idx) (XY.y idx + 1);
              Some (t, RenderBlockPos.mk (Z.rem (px + 1) (chunkSize + 1)) py pz)
  | 5 => Some (c, RenderBlockPos.mk px (py - 1) pz)
  | 6 => Some (c, RenderBlockPos.mk px (py + 1) pz)
  | _ => None
  end.

(** A container with one more child at the end. *)
Definition with_child (k : ExtendedContainer.t) (sprite : ExtendedSprite.t)
  : ExtendedContainer.t :=
  ExtendedContainer.mk (ExtendedContainer.indexPos k)
    (ExtendedContainer.children k ++ [sprite]) (ExtendedContainer.destroyed k).

Definition run_shifts (ops : list Shift) : M unit := for_each ops shift.

(** ** Vocabulary of the further properties *)

(** [n] blocks from [p] in the direction the digit key [d] stands for. *)
Definition step_by (d n : Z) (p : BlockPos.t) : BlockPos.t :=
  match d with
  | 1 => BlockPos.mk (BlockPos.x p) (BlockPos.y p + n) (BlockPos.z p)
  | 2 => BlockPos.mk (BlockPos.x p) (BlockPos.y p - n) (BlockPos.z p)
  | 3 => BlockPos.mk (BlockPos.x p - n) (BlockPos.y p) (BlockPos.z p)
  | 4 => BlockPos.mk (BlockPos.x p + n) (BlockPos.y p) (BlockPos.z p)
  | 5 => BlockPos.mk (BlockPos.x p) (BlockPos.y p) (BlockPos.z p + n)
  | 6 => BlockPos.mk (BlockPos.x p) (BlockPos.y p) (BlockPos.z p - n)
  | _ => p
  end.

(** The container [k] once [removeChild] has taken [sprite] out. *)
Definition without_child (k : ExtendedContainer.t) (sprite : ExtendedSprite.t)
  : ExtendedContainer.t :=
  ExtendedContainer.mk (ExtendedContainer.indexPos k)
    (filter (fun c => ExtendedSprite.id c <> ExtendedSprite.id sprite)
       (ExtendedContainer.children k))
    (ExtendedContainer.destroyed k).

(** Every colour that has a cached texture passes the check of [colorVariants]. *)
Definition textures_valid (s : RenderState) : Prop :=
  forall c, c ∈ textures s -> test_hex_color c = true.

(** Everything the page can ask of the module: the start of the stage, the
    events, and a batch of new block types from the input bar. *)
Inductive Action : Type :=
  | ActInitStage (center : option XY.t)
  | ActEvent (e : Event)
  | ActNewBlocks (aiBlockData : list (string * string)).

Definition perform (a : Action) : M unit :=
  match a with
  | ActInitStage center => initStage center
  | ActEvent e => handle e
  | ActNewBlocks aiBlockData => addNewBlockType aiBlockData
  end.

Definition after_actions (acts : list Action) (s : RenderState) : RenderState :=
  foldl (fun s a => final_state (perform a s)) s acts.

(** ** What a tile shows *)

(** The block position a sprite stands for, and its texture. *)
Definition shown (sprite : ExtendedSprite.t) : BlockPos.t * Texture :=
  (absolutePos sprite, ExtendedSprite.texture sprite).

(** The positions of the box [getBlockArray] reads around [center], in the
    order [renderRChunk] goes through them: nine by nine columns from
    [center - 4], over the whole height. *)
Definition tile_box (center : XY.t) : list BlockPos.t :=
  x ← upto 9; y ← upto 9; z ← upto renderChunkHeight;
  [BlockPos.mk (XY.x center - 4 + x) (XY.y center - 4 + y) z].

(** The colour of a block type: the palette's own, or black for a type the
    palette does not have. *)
Definition paint (m : gmap string string) (type : string) : string :=
  default "#000000"%string (m !! type).

(** The blocks of the box that are not empty, each with the texture of the
    colour of its type. *)
Definition drawn (d : Dimension) (m : gmap string string) (center : XY.t)
  : list (BlockPos.t * Texture) :=
  omap (fun p =>
          match peek d p with
          | Some (Material type) => Some (p, TextureOf (paint m type))
          | _ => None
          end)
       (tile_box center).

(** The container [c] holds, in order, one sprite for each block drawn of the
    tile around [center], all of them filed under that centre. *)
Definition tile_shows (s : RenderState) (c : nat) (center : XY.t) : Prop :=
  exists k,
    containers s !! c = Some k
    /\ shown <$> ExtendedContainer.children k = drawn (dimension s) (colorMapper s) center
    /\ Forall (fun sp => ExtendedSprite.containerCenter sp = center)
         (ExtendedContainer.children k).

(** The cells of a three-dimensional array with their indices, in the order
    of [traverse3DArray]. *)
Definition cells {A : Type} (array : list (list (list A))) : list (A * BlockPos.t) :=
  xp ← indexed array; yc ← indexed xp.2; zv ← indexed yc.2;
  [(zv.2, BlockPos.mk xp.1 yc.1 zv.1)].

(** The render position and texture of the sprite a cell gets, if any. *)
Definition cell_face (m : gmap string string) (vp : option Block * BlockPos.t)
  : option (RenderBlockPos.t * Texture) :=
  match vp.1 with
  | Some (Material type) =>
      Some (convertBlockPosToRenderBlockPos vp.2, TextureOf (paint m type))
  | _ => None
  end.

Definition face (sprite : ExtendedSprite.t) : RenderBlockPos.t * Texture :=
  (ExtendedSprite.pos sprite, ExtendedSprite.texture sprite).

(** The answers of the store over the box around [center], as an array. *)
Definition block_table (d : Dimension) (center : XY.t) : list (list (list (option Block))) :=
  (fun x =>
     (fun y =>
        (fun z => peek d (BlockPos.mk x y z)) <$> zrange 0 (renderChunkHeight - 1))
       <$> zrange (XY.y center - 4) (XY.y center + 4))
    <$> zrange (XY.x center - 4) (XY.x center + 4).

(** ** Which tile a cell shows *)

(** Every cell of the grid holds a container that answers to the label [F]
    gives the cell. *)
Definition grid_cells {L : Type} (T : L -> nat -> RenderState -> Prop)
    (s : RenderState) (F : Z -> Z -> L) : Prop :=
  forall i j c, cellAt s i j = Some c -> T (F i j) c s.





(** ** Actions that keep the palette able to paint the world *)

(** A palette entry whose value, if it is filed at all, is a valid colour. *)
Definition safe_entry (entry : string * string) : bool :=
  negb (JS.includes "#" entry.2) || test_hex_color entry.2.

(** The proviso under which the grid stays whole: [initStage] is not run a
    second time, every colour registered is of the form #hhhhhh, and no type
    is selected that bears the name of a member of [Object.prototype]. *)
Definition safe_action (a : Action) : bool :=
  match a with
  | ActInitStage _ => false
  | ActEvent (EvSelect type) => negb (JSObject.inherited type)
  | ActEvent _ => true
  | ActNewBlocks aiBlockData => forallb safe_entry aiBlockData
  end.

(** ** What a shift does to the grid *)

(** Where the container of the cell (i, j) sat before a shift: the cell next
    to it, one step against the direction of the shift, or nowhere ([None])
    for a cell of the edge that the shift fills. *)
Definition shift_source (op : Shift) (i j : Z) : option (Z * Z) :=
  match op with
  | ShiftTop => if i =? 0 then None else Some (i - 1, j)
  | ShiftBottom => if i =? yMaxChunkLength - 1 then None else Some (i + 1, j)
  | ShiftRight => if j =? xMaxChunkLength - 1 then None else Some (i, j + 1)
  | ShiftLeft => if j =? 0 then None else Some (i, j - 1)
  end.

(** The cells of the edge that a shift takes out of the grid. *)
Definition shift_removes (op : Shift) (i j : Z) : bool :=
  match op with
  | ShiftTop => i =? yMaxChunkLength - 1
  | ShiftBottom => i =? 0
  | ShiftRight => j =? 0
  | ShiftLeft => j =? xMaxChunkLength - 1
  end.

(** The container [c] is the one the [source] cell held in [s], or, without a
    source, a container [s] did not have. *)
Definition came_from (s : RenderState) (source : option (Z * Z)) (c : nat) : Prop :=
  match source with
  | Some (i, j) => cellAt s i j = Some c
  | None => containers s !! c = None
  end.

(** The shift [op] has taken [s] to [s']: the grid is a complete rectangle
    again, every container it holds has moved one cell over or is new, at the
    edge the shift fills, and the containers of the opposite edge are in no
    cell any more. *)
Definition edge_replaced (op : Shift) (s s' : RenderState) : Prop :=
  grid_rect (rengerGrid s')
  /\ (forall i j c, cellAt s' i j = Some c -> came_from s (shift_source op i j) c)
  /\ (forall i j c, cellAt s i j = Some c -> shift_removes op i j = true ->
        forall i' j', cellAt s' i' j' <> Some c).

(** Each shift of [ops] in turn returns and replaces one edge. *)
Fixpoint shifts_replace_edges (ops : list Shift) (s : RenderState) : Prop :=
  match ops with
  | [] => True
  | op :: ops' =>
      exists s', shift op s = Ok tt s' /\ edge_replaced op s s'
                 /\ shifts_replace_edges ops' s'
  end.

(** ** Theorems *)

Lemma convert_render_roundtrip (r : RenderBlockPos.t) :
  convertBlockPosToRenderBlockPos (convertRenderBlockPosToBlockPos r)
  = {| RenderBlockPos.x := RenderBlockPos.x r;
       RenderBlockPos.y := renderChunkHeight - 1 - RenderBlockPos.y r;
       RenderBlockPos.z := renderChunkHeight - 1 - RenderBlockPos.z r |}.
Proof. reflexivity. Qed.

Lemma convert_data_roundtrip (p : BlockPos.t) :
  convertRenderBlockPosToBlockPos (convertBlockPosToRenderBlockPos p)
  = {| BlockPos.x := BlockPos.x p;
       BlockPos.y := renderChunkHeight - 1 - BlockPos.y p;
       BlockPos.z := renderChunkHeight - 1 - BlockPos.z p |}.
Proof. reflexivity. Qed.

(** Either composition comes back to its argument only at mid-height, which
    no even [Chunk.HEIGHT] has. *)
Lemma convert_render_roundtrip_iff (r : RenderBlockPos.t) :
  convertBlockPosToRenderBlockPos (convertRenderBlockPosToBlockPos r) = r
  <-> 2 * RenderBlockPos.y r = renderChunkHeight - 1
      /\ 2 * RenderBlockPos.z r = renderChunkHeight - 1.
Proof.
  rewrite convert_render_roundtrip. destruct r as [rx ry rz]. simpl. split.
  - intros [= Hy Hz]. lia.
  - intros [Hy Hz]. f_equal; lia.
Qed.

(** The inline computation of the pointer handler is the inverse of
    [convertBlockPosToRenderBlockPos], on both sides and at every height. *)
Lemma handler_local_inverse_l (p : BlockPos.t) :
  handler_local_BlockPos (convertBlockPosToRenderBlockPos p) = p.
Proof.
  destruct p as [px py pz]. unfold handler_local_BlockPos, convertBlockPosToRenderBlockPos.
  simpl. f_equal. lia.
Qed.

Lemma handler_local_inverse_r (r : RenderBlockPos.t) :
  convertBlockPosToRenderBlockPos (handler_local_BlockPos r) = r.
Proof.
  destruct r as [rx ry rz]. unfold handler_local_BlockPos, convertBlockPosToRenderBlockPos.
  simpl. f_equal. lia.
Qed.

(** ** The world store *)

Lemma lookupZ_is_Some {A : Type} (l : list A) (i : Z) :
  0 <= i < Z.of_nat (length l) -> is_Some (lookupZ l i).
Proof.
  intros Hi. unfold lookupZ. rewrite bool_decide_eq_true_2 by lia.
  apply lookup_lt_is_Some. lia.
Qed.

Lemma lookupZ_elem_of {A : Type} (l : list A) (i : Z) (a : A) :
  lookupZ l i = Some a -> a ∈ l.
Proof.
  unfold lookupZ. case_bool_decide; [| discriminate].
  intros Hl. by eapply list_elem_of_lookup_2.
Qed.

Lemma generateChunk_shape (coord : Z * Z) : chunk_shape (generateChunk coord).
Proof.
  unfold chunk_shape, generateChunk. split.
  - by rewrite length_fmap, length_seqZ.
  - apply Forall_fmap, Forall_forall. intros x _. unfold compose. split.
    + by rewrite length_fmap, length_seqZ.
    + apply Forall_fmap, Forall_forall. intros y _. unfold compose.
      by rewrite length_fmap, length_seqZ.
Qed.

Lemma chunk_get_is_Some (c : Chunk) (x y z : Z) :
  chunk_shape c -> 0 <= x < 8 -> 0 <= y < 8 -> 0 <= z < Chunk_HEIGHT ->
  is_Some (chunk_get c x y z).
Proof.
  intros [Hlen Hall] Hx Hy Hz. unfold chunk_get.
  destruct (lookupZ_is_Some c x) as [plane Hplane]; [lia |].
  rewrite Hplane. simpl.
  rewrite Forall_forall in Hall.
  destruct (Hall plane (lookupZ_elem_of _ _ _ Hplane)) as [Hlen' Hall'].
  destruct (lookupZ_is_Some plane y) as [column Hcolumn]; [lia |].
  rewrite Hcolumn. simpl.
  rewrite Forall_forall in Hall'.
  pose proof (Hall' column (lookupZ_elem_of _ _ _ Hcolumn)) as Hlen''.
  apply lookupZ_is_Some. lia.
Qed.

Lemma chunk_set_shape (c : Chunk) (x y z : Z) (b : Block) :
  chunk_shape c -> chunk_shape (chunk_set c x y z b).
Proof.
  intros [Hlen Hall]. unfold chunk_set. case_bool_decide; [| done].
  split.
  - by rewrite length_alter.
  - apply Forall_alter; [done |].
    intros plane _ [Hlen' Hall']. split.
    + by rewrite length_alter.
    + apply Forall_alter; [done |].
      intros column _ Hc. by rewrite length_insert.
Qed.

Lemma lookupZ_nonneg {A : Type} (l : list A) (i : Z) :
  0 <= i -> lookupZ l i = l !! Z.to_nat i.
Proof. intros Hi. unfold lookupZ. by rewrite bool_decide_eq_true_2. Qed.

Lemma lookupZ_neg {A : Type} (l : list A) (i : Z) : i < 0 -> lookupZ l i = None.
Proof. intros Hi. unfold lookupZ. by rewrite bool_decide_eq_false_2 by lia. Qed.

Lemma chunk_get_set_ne (c : Chunk) (x y z x' y' z' : Z) (b : Block) :
  0 <= x -> 0 <= y -> (x, y, z) <> (x', y', z') ->
  chunk_get (chunk_set c x y z b) x' y' z' = chunk_get c x' y' z'.
Proof.
  intros Hx Hy Hne. unfold chunk_set. case_bool_decide as Hz; [| done].
  unfold chunk_get.
  destruct (Z_lt_le_dec x' 0) as [Hx' | Hx']; [by rewrite !lookupZ_neg |].
  rewrite !(lookupZ_nonneg _ x') by done.
  destruct (decide (Z.to_nat x = Z.to_nat x')) as [Ex | Ex];
    [| by rewrite list_lookup_alter_ne].
  rewrite <- Ex, list_lookup_alter_eq.
  destruct (c !! Z.to_nat x) as [plane |]; [| done]. simpl.
  destruct (Z_lt_le_dec y' 0) as [Hy' | Hy']; [by rewrite !lookupZ_neg |].
  rewrite !(lookupZ_nonneg _ y') by done.
  destruct (decide (Z.to_nat y = Z.to_nat y')) as [Ey | Ey];
    [| by rewrite list_lookup_alter_ne].
  rewrite <- Ey, list_lookup_alter_eq.
  destruct (plane !! Z.to_nat y) as [column |]; [| done]. simpl.
  destruct (Z_lt_le_dec z' 0) as [Hz' | Hz']; [by rewrite !lookupZ_neg |].
  rewrite !(lookupZ_nonneg _ z') by done.
  rewrite list_lookup_insert_ne; [done |].
  intros Ez. apply Hne. f_equal; [f_equal |]; lia.
Qed.

Lemma getChunkFromChunkPos_snd (coord : Z * Z) (d : Dimension) :
  (getChunkFromChunkPos coord d).2 = chunk_of d coord.
Proof.
  unfold getChunkFromChunkPos, chunk_of. by destruct (chunks d !! coord).
Qed.

Lemma getChunkFromChunkPos_lookup (coord coord' : Z * Z) (d : Dimension) :
  chunks (getChunkFromChunkPos coord d).1 !! coord'
  = if decide (coord = coord') then Some (chunk_of d coord) else chunks d !! coord'.
Proof.
  unfold getChunkFromChunkPos, chunk_of.
  destruct (chunks d !! coord) as [c |] eqn:Hc; simpl.
  - case_decide; [by subst | done].
  - rewrite lookup_insert. by case_decide.
Qed.

Lemma chunk_of_getChunkFromChunkPos (coord coord' : Z * Z) (d : Dimension) :
  chunk_of (getChunkFromChunkPos coord d).1 coord' = chunk_of d coord'.
Proof.
  unfold chunk_of at 1. rewrite getChunkFromChunkPos_lookup.
  case_decide; [by subst | done].
Qed.

Lemma peek_chunk_of (d : Dimension) (p : BlockPos.t) :
  peek d p = chunk_get (chunk_of d (chunkPosOf p))
               (BlockPos.x p `mod` 8) (BlockPos.y p `mod` 8) (BlockPos.z p).
Proof.
  unfold peek, Dimension_getBlock.
  pose proof (getChunkFromChunkPos_snd (chunkPosOf p) d) as Hc.
  destruct (getChunkFromChunkPos (chunkPosOf p) d) as [d' c]. simpl in *. by subst.
Qed.

Lemma Dimension_getBlock_snd (p : BlockPos.t) (d : Dimension) :
  (Dimension_getBlock p d).2 = peek d p.
Proof. reflexivity. Qed.

Lemma Dimension_getBlock_fst (p : BlockPos.t) (d : Dimension) :
  (Dimension_getBlock p d).1 = (getChunkFromChunkPos (chunkPosOf p) d).1.
Proof.
  unfold Dimension_getBlock. by destruct (getChunkFromChunkPos (chunkPosOf p) d).
Qed.

(** Reading materialises at most a chunk; it changes no answer. *)
Lemma Dimension_getBlock_same_blocks (q : BlockPos.t) (d : Dimension) :
  same_blocks d (Dimension_getBlock q d).1.
Proof.
  intros p. rewrite Dimension_getBlock_fst, !peek_chunk_of.
  by rewrite chunk_of_getChunkFromChunkPos.
Qed.

Lemma chunk_of_setBlock (p : BlockPos.t) (b : Block) (d : Dimension) (coord : Z * Z) :
  chunk_of (Dimension_setBlock p b d) coord
  = if decide (chunkPosOf p = coord)
    then chunk_set (chunk_of d coord)
           (BlockPos.x p `mod` 8) (BlockPos.y p `mod` 8) (BlockPos.z p) b
    else chunk_of d coord.
Proof.
  unfold Dimension_setBlock.
  pose proof (getChunkFromChunkPos_snd (chunkPosOf p) d) as Hc.
  pose proof (fun c' => getChunkFromChunkPos_lookup (chunkPosOf p) c' d) as Hl.
  destruct (getChunkFromChunkPos (chunkPosOf p) d) as [d' c]. simpl in *. subst c.
  unfold chunk_of at 1. simpl. rewrite lookup_insert.
  case_decide as Hd; [by subst |].
  rewrite Hl. by rewrite decide_False.
Qed.

(** A write changes the answer at its own position only. *)
Lemma peek_setBlock_ne (p q : BlockPos.t) (b : Block) (d : Dimension) :
  q <> p -> peek (Dimension_setBlock p b d) q = peek d q.
Proof.
  intros Hne. rewrite !peek_chunk_of, chunk_of_setBlock.
  case_decide as Hc; [| done].
  apply chunk_get_set_ne; try (apply Z.mod_pos_bound; lia).
  intros [= Hx Hy Hz]. apply Hne.
  unfold chunkPosOf in Hc. injection Hc as Hdx Hdy.
  destruct p as [px py pz], q as [qx qy qz]. simpl in *. f_equal; [| | done].
  - rewrite (Z.div_mod px 8), (Z.div_mod qx 8) by lia. by rewrite Hdx, Hx.
  - rewrite (Z.div_mod py 8), (Z.div_mod qy 8) by lia. by rewrite Hdy, Hy.
Qed.

Lemma wf_dimension_chunk_of (d : Dimension) (coord : Z * Z) :
  wf_dimension d -> chunk_shape (chunk_of d coord).
Proof.
  intros Hwf. unfold chunk_of.
  destruct (chunks d !! coord) as [c |] eqn:Hc; simpl.
  - by eapply Hwf.
  - apply generateChunk_shape.
Qed.

Lemma wf_getChunkFromChunkPos (coord : Z * Z) (d : Dimension) :
  wf_dimension d -> wf_dimension (getChunkFromChunkPos coord d).1.
Proof.
  intros Hwf coord' c. rewrite getChunkFromChunkPos_lookup.
  case_decide.
  - intros [= <-]. by apply wf_dimension_chunk_of.
  - apply Hwf.
Qed.

Lemma wf_Dimension_getBlock (p : BlockPos.t) (d : Dimension) :
  wf_dimension d -> wf_dimension (Dimension_getBlock p d).1.
Proof. rewrite Dimension_getBlock_fst. apply wf_getChunkFromChunkPos. Qed.

Lemma wf_Dimension_setBlock (p : BlockPos.t) (b : Block) (d : Dimension) :
  wf_dimension d -> wf_dimension (Dimension_setBlock p b d).
Proof.
  intros Hwf. unfold Dimension_setBlock.
  pose proof (getChunkFromChunkPos_snd (chunkPosOf p) d) as Hc.
  pose proof (wf_getChunkFromChunkPos (chunkPosOf p) d Hwf) as Hwf'.
  destruct (getChunkFromChunkPos (chunkPosOf p) d) as [d' c]. simpl in *. subst c.
  intros coord c. simpl. rewrite lookup_insert. case_decide.
  - intros [= <-]. by apply chunk_set_shape, wf_dimension_chunk_of.
  - apply Hwf'.
Qed.

(** Inside the height range a read always finds a block. *)
Lemma peek_is_Some (d : Dimension) (p : BlockPos.t) :
  wf_dimension d -> 0 <= BlockPos.z p < Chunk_HEIGHT -> is_Some (peek d p).
Proof.
  intros Hwf Hz. rewrite peek_chunk_of.
  apply chunk_get_is_Some; [by apply wf_dimension_chunk_of | | | done];
    apply Z.mod_pos_bound; lia.
Qed.

(** Outside the height range a read finds nothing. *)
Lemma peek_None_below (d : Dimension) (p : BlockPos.t) :
  BlockPos.z p < 0 -> peek d p = None.
Proof.
  intros Hz. rewrite peek_chunk_of. unfold chunk_get.
  destruct (lookupZ _ _) as [plane |]; [simpl | done].
  destruct (lookupZ _ _) as [column |]; [simpl | done].
  unfold lookupZ. by rewrite bool_decide_eq_false_2 by lia.
Qed.

Lemma same_blocks_refl (d : Dimension) : same_blocks d d.
Proof. by intros p. Qed.

Lemma same_blocks_trans (d1 d2 d3 : Dimension) :
  same_blocks d1 d2 -> same_blocks d2 d3 -> same_blocks d1 d3.
Proof. intros H12 H23 p. by rewrite H23, H12. Qed.

Lemma mapS_inv {A B S : Type} (P : S -> Prop) (Q : B -> Prop)
    (f : A -> S -> S * B) (l : list A) :
  (forall a s, a ∈ l -> P s -> P (f a s).1 /\ Q (f a s).2) ->
  forall s, P s -> P (mapS f l s).1 /\ Forall Q (mapS f l s).2.
Proof.
  induction l as [| a l IH]; intros Hf s Hs; simpl.
  - by split.
  - destruct (Hf a s) as [HP HQ]; [by left | done |].
    destruct (f a s) as [s1 b]. simpl in *.
    destruct (IH (fun a' s' Ha' => Hf a' s' (list_elem_of_further _ _ _ Ha')) s1 HP)
      as [HP' HQ'].
    destruct (mapS f l s1) as [s2 bs]. simpl in *.
    split; [done |]. by constructor.
Qed.

Lemma elem_of_zrange (lo hi z : Z) : z ∈ zrange lo hi <-> lo <= z <= hi.
Proof. unfold zrange. rewrite elem_of_seqZ. lia. Qed.

(** The box read: every cell is there when the box lies in the height range,
    the store stays well formed and answers as before. *)
Lemma Dimension_getBlockArray_spec (min max : BlockPos.t) (d : Dimension) :
  wf_dimension d -> 0 <= BlockPos.z min -> BlockPos.z max < Chunk_HEIGHT ->
  (wf_dimension (Dimension_getBlockArray min max d).1
   /\ same_blocks d (Dimension_getBlockArray min max d).1)
  /\ Forall (Forall (Forall (read_of d))) (Dimension_getBlockArray min max d).2.
Proof.
  intros Hwf Hlo Hhi. unfold Dimension_getBlockArray.
  apply (mapS_inv (fun d' => wf_dimension d' /\ same_blocks d d')); [| by split].
  intros x d1 _ Hd1.
  apply (mapS_inv (fun d' => wf_dimension d' /\ same_blocks d d')); [| done].
  intros y d2 _ Hd2.
  apply (mapS_inv (fun d' => wf_dimension d' /\ same_blocks d d')); [| done].
  intros z d3 Hz%elem_of_zrange [Hwf3 Hsame3]. split; [split |].
  - by apply wf_Dimension_getBlock.
  - eapply same_blocks_trans; [done | apply Dimension_getBlock_same_blocks].
  - rewrite Dimension_getBlock_snd. split.
    + apply peek_is_Some; [done | simpl; lia].
    + eexists. apply Hsame3.
Qed.

(** ** The monad *)

Lemma bind_Ok {A B : Type} (m : M A) (k : A -> M B) (s s' : RenderState) (a : A) :
  m s = Ok a s' -> bind m k s = k a s'.
Proof. intros H. unfold bind. by rewrite H. Qed.


Lemma bind_gets {A B : Type} (f : RenderState -> A) (k : A -> M B) (s : RenderState) :
  bind (gets f) k s = k (f s) s.
Proof. reflexivity. Qed.

Lemma bind_modify {B : Type} (f : RenderState -> RenderState) (k : unit -> M B)
    (s : RenderState) :
  bind (modify f) k s = k tt (f s).
Proof. reflexivity. Qed.

Lemma bind_ret {A B : Type} (a : A) (k : A -> M B) (s : RenderState) :
  bind (ret a) k s = k a s.
Proof. reflexivity. Qed.

Lemma bind_assoc {A B C : Type} (m : M A) (k : A -> M B) (h : B -> M C) (s : RenderState) :
  bind (bind m k) h s = bind m (fun a => bind (k a) h) s.
Proof. unfold bind. by destruct (m s). Qed.

Lemma for_each_inv {A : Type} (I : RenderState -> Prop) (l : list A) (body : A -> M unit) :
  (forall a s, a ∈ l -> I s -> exists s', body a s = Ok tt s' /\ I s') ->
  forall s, I s -> exists s', for_each l body s = Ok tt s' /\ I s'.
Proof.
  induction l as [| a l IH]; intros Hbody s Hs; simpl.
  - by exists s.
  - destruct (Hbody a s) as (s1 & E1 & H1); [by left | done |].
    rewrite (bind_Ok _ _ _ _ _ E1).
    apply IH; [| done]. intros a' s' Ha'. apply Hbody. by right.
Qed.

(** ** Sprites *)

Lemma set_textures_id (s : RenderState) : set_textures (textures s) s = s.
Proof. by destruct s. Qed.

Lemma not_elem_of_prototype_names (k : string) :
  JSObject.inherited k = false <-> k ∉ JSObject.prototype_names.
Proof. unfold JSObject.inherited. apply bool_decide_eq_false. Qed.

(** A string that starts with a character no member name starts with is no
    member name. *)
Lemma inherited_first_char (a : ascii) (r : string) :
  a ∉ String.list_ascii_of_string "c_hiptv" -> JSObject.inherited (String a r) = false.
Proof.
  intros Ha. apply not_elem_of_prototype_names. unfold JSObject.prototype_names.
  intros Hin. apply Ha. simpl.
  repeat (apply elem_of_cons in Hin as [Hin | Hin];
          [injection Hin as -> _;
           repeat first [apply list_elem_of_here | apply list_elem_of_further] |]).
  by apply elem_of_nil in Hin.
Qed.

(** A concrete character is not in a concrete list. *)
Ltac not_in_chars :=
  simpl; let H := fresh in
  intros H; repeat (apply elem_of_cons in H as [H | H]; [discriminate H |]);
  by apply elem_of_nil in H.

Lemma inherited_hex (c : string) :
  test_hex_color c = true -> JSObject.inherited c = false.
Proof.
  destruct c as [| a r]; [done |]. intros Ht.
  assert (Ha : a = "#"%char).
  { destruct a as [[] [] [] [] [] [] [] []]; try (simpl in Ht; discriminate Ht).
    reflexivity. }
  subst a. apply inherited_first_char. not_in_chars.
Qed.

Lemma ToString_not_hex (v : JS.value) :
  (forall c, v <> JS.Str c) -> test_hex_color (JS.ToString v) = false.
Proof.
  destruct v as [c | name |]; intros Hv; simpl.
  - by destruct (Hv c).
  - by case_bool_decide.
  - reflexivity.
Qed.

Lemma ToString_not_inherited (v : JS.value) :
  (forall c, v <> JS.Str c) -> JSObject.inherited (JS.ToString v) = false.
Proof.
  destruct v as [c | name |]; intros Hv; simpl.
  - by destruct (Hv c).
  - case_bool_decide; apply inherited_first_char; not_in_chars.
  - apply inherited_first_char. not_in_chars.
Qed.

Lemma getTexture_ok (color : JS.value) (s : RenderState) :
  color_usable color s ->
  getTexture color s = Ok (texture_of color s) (texture_cached color s).
Proof.
  intros Hc. unfold getTexture, texture_of, texture_cached. rewrite bind_gets.
  destruct (cachedTexture (JS.ToString color) s) as [t |] eqn:Hcache; [reflexivity |].
  destruct Hc as [(c & -> & Hc) | [t Ht]]; [| congruence].
  simpl. unfold colorVariants. rewrite Hc. reflexivity.
Qed.


Lemma renderBlock_ok (color : JS.value) (pos : RenderBlockPos.t) (c : nat)
    (k : ExtendedContainer.t) (chunkCenter : XY.t) (s : RenderState) :
  color_usable color s -> containers s !! c = Some k ->
  renderBlock color pos (Some c) chunkCenter s
  = Ok tt (sprite_placed color pos c k chunkCenter s).
Proof.
  intros Hc Hk. unfold renderBlock.
  rewrite (bind_Ok _ _ _ _ _ (getTexture_ok color s Hc)).
  assert (Hk' : containers (texture_cached color s) !! c = Some k).
  { unfold texture_cached. by destruct (cachedTexture _ s). }
  assert (Hn : nextId (texture_cached color s) = nextId s).
  { unfold texture_cached. by destruct (cachedTexture _ s). }
  cbv [bind fresh addChild gets]. simpl. rewrite Hk', Hn. reflexivity.
Qed.

(** [texture_cached] changes the texture cache only. *)
Lemma texture_cached_fields (color : JS.value) (s : RenderState) :
  dimension (texture_cached color s) = dimension s
  /\ colorMapper (texture_cached color s) = colorMapper s
  /\ inventory_items (texture_cached color s) = inventory_items s
  /\ selectedBlockType (texture_cached color s) = selectedBlockType s
  /\ keyState (texture_cached color s) = keyState s
  /\ containers (texture_cached color s) = containers s
  /\ rengerGrid (texture_cached color s) = rengerGrid s
  /\ currentXOffset (texture_cached color s) = currentXOffset s
  /\ currentYOffset (texture_cached color s) = currentYOffset s
  /\ nextId (texture_cached color s) = nextId s.
Proof. unfold texture_cached. by destruct (cachedTexture _ s). Qed.

Lemma sprite_placed_only_scene (color : JS.value) (pos : RenderBlockPos.t) (c : nat)
    (k : ExtendedContainer.t) (chunkCenter : XY.t) (s : RenderState) :
  only_scene c s (sprite_placed color pos c k chunkCenter s).
Proof.
  destruct (texture_cached_fields color s) as (D & M & I & S & K & C & G & X & Y & N).
  unfold only_scene, same_config, sprite_placed. simpl.
  repeat split; try done; try lia.
  - intros r Hr. by rewrite lookup_insert_ne, C.
  - intros _. rewrite lookup_insert_eq. eauto.
Qed.

Lemma only_scene_refl (c : nat) (s : RenderState) : only_scene c s s.
Proof. unfold only_scene, same_config. repeat split; done. Qed.

Lemma only_scene_trans (c : nat) (s1 s2 s3 : RenderState) :
  only_scene c s1 s2 -> only_scene c s2 s3 -> only_scene c s1 s3.
Proof.
  unfold only_scene, same_config.
  intros (D1 & (A1 & B1 & C1 & K1) & G1 & X1 & Y1 & N1 & H1 & S1)
         (D2 & (A2 & B2 & C2 & K2) & G2 & X2 & Y2 & N2 & H2 & S2).
  repeat split; try congruence; try lia.
  - intros r Hr. by rewrite H2, H1.
  - auto.
Qed.

(** ** Building a tile *)

Lemma elem_of_indexed {A : Type} (l : list A) (ia : Z * A) : ia ∈ indexed l -> ia.2 ∈ l.
Proof. destruct ia as [i a]. unfold indexed. apply elem_of_zip_r. Qed.

Lemma traverse3DArray_inv {A : Type} (I : RenderState -> Prop) (P : A -> Prop)
    (array : list (list (list A))) (callback : A -> BlockPos.t -> M unit) :
  Forall (Forall (Forall P)) array ->
  (forall v pos s, P v -> I s -> exists s', callback v pos s = Ok tt s' /\ I s') ->
  forall s, I s -> exists s', traverse3DArray array callback s = Ok tt s' /\ I s'.
Proof.
  intros Harr Hcb. unfold traverse3DArray.
  apply for_each_inv. intros xp s1 Hxp%elem_of_indexed H1.
  revert s1 H1. apply for_each_inv. intros yc s2 Hyc%elem_of_indexed H2.
  revert s2 H2. apply for_each_inv. intros zv s3 Hzv%elem_of_indexed H3.
  apply Hcb; [| done].
  rewrite Forall_forall in Harr. specialize (Harr _ Hxp).
  rewrite Forall_forall in Harr. specialize (Harr _ Hyc).
  rewrite Forall_forall in Harr. by apply Harr.
Qed.

Lemma colors_ok_paint (m : gmap string string) (type : string) :
  colors_ok m -> test_hex_color (paint m type) = true.
Proof.
  intros Hm. unfold paint. destruct (m !! type) as [c |] eqn:Hc; simpl.
  - by eapply Hm.
  - reflexivity.
Qed.

(** For a type the palette answers for, the tile's colour is the string
    [paint] names. *)
Lemma tileColor_paint (m : gmap string string) (type : string) :
  type_ok m type -> tileColor m type = JS.Str (paint m type).
Proof.
  intros Ht. unfold tileColor, paint, JSObject.has, JSObject.get.
  destruct (m !! type) as [c |] eqn:Hc.
  - replace (bool_decide (is_Some (Some c))) with true; [done |].
    symmetry. apply bool_decide_eq_true. eauto.
  - replace (bool_decide (is_Some (@None string))) with false.
    + destruct Ht as [[? ?] | ->]; [congruence | done].
    + symmetry. apply bool_decide_eq_false. by intros [? ?].
Qed.

Lemma tileColor_usable (s : RenderState) (m : gmap string string) (type : string) :
  colors_ok m -> type_ok m type -> color_usable (tileColor m type) s.
Proof.
  intros Hm Ht. left. exists (paint m type).
  split; [by apply tileColor_paint | by apply colors_ok_paint].
Qed.

(** The palette condition looks at the answers of the store, the palette and
    the selection only. *)
Lemma palette_ok_same (s s' : RenderState) :
  same_blocks (dimension s) (dimension s') -> same_config s s' ->
  palette_ok s -> palette_ok s'.
Proof.
  intros Hb (Hm & _ & Hsel & _) (Hcol & Hworld & Hs). unfold palette_ok.
  rewrite Hm, Hsel. split_and!; [done | | done].
  intros p type Hp. rewrite Hb in Hp. by eapply Hworld.
Qed.

Lemma heap_ok_sprite_placed (color : JS.value) (pos : RenderBlockPos.t) (c : nat)
    (k : ExtendedContainer.t) (chunkCenter : XY.t) (s : RenderState) :
  heap_ok s -> containers s !! c = Some k ->
  heap_ok (sprite_placed color pos c k chunkCenter s).
Proof.
  destruct (texture_cached_fields color s) as (D & M & I & S & K & C & G & X & Y & N).
  intros Hh Hk r. unfold sprite_placed. simpl. rewrite lookup_insert.
  case_decide as Hr.
  - subst r. intros _. assert (c < nextId s)%nat by (apply Hh; eauto). lia.
  - rewrite C. intros Hs. apply Hh in Hs. lia.
Qed.

Lemma renderRChunk_spec (blockArray : list (list (list (option Block))))
    (chunkcenter : XY.t) (s : RenderState) :
  world_ok s -> Forall (Forall (Forall (read_of (dimension s)))) blockArray ->
  exists s', renderRChunk blockArray chunkcenter s = Ok (nextId s) s'
             /\ tile_built s (nextId s) s' /\ dimension s' = dimension s.
Proof.
  intros (Hwf & Hpal & Hheap) Harr. unfold renderRChunk, newContainer.
  pose proof Hpal as (Hcol & Hworld & Hsel).
  set (c := nextId s).
  set (s0 := set_containers_of c (ExtendedContainer.mk (XY.mk 0 0) [] false)
               (set_nextId (S c) s)).
  assert (E0 : (let* c0 := fresh in
                modify (set_containers_of c0 (ExtendedContainer.mk (XY.mk 0 0) [] false)) ;;;
                ret c0) s = Ok c s0) by reflexivity.
  rewrite (bind_Ok _ _ _ _ _ E0).
  set (I := fun s1 => only_scene c s0 s1 /\ heap_ok s1).
  assert (HI0 : I s0).
  { split; [apply only_scene_refl |].
    intros r. unfold s0. simpl. rewrite lookup_insert. case_decide.
    - subst r. lia.
    - intros Hr%Hheap. fold c in Hr. lia. }
  assert (Hc0 : is_Some (containers s0 !! c)).
  { unfold s0. simpl. rewrite lookup_insert_eq. eauto. }
  destruct (traverse3DArray_inv I (read_of (dimension s)) blockArray
    (fun value pos =>
       match value with
       | None => throw "TypeError: value is undefined"
       | Some (Empty _) => ret tt
       | Some (Material type) =>
           let* color := gets (fun s => tileColor (colorMapper s) type) in
           renderBlock color (convertBlockPosToRenderBlockPos pos) (Some c) chunkcenter
       end) Harr) with s0 as (s' & E' & Hs' & Hheap'); [| done |].
  { intros v pos s1 [[b ->] [p Hp]] [Hs1 Hh1]. destruct b as [type | type].
    - pose proof Hs1 as (D1 & (C1 & _) & _ & _ & _ & _ & _ & S1).
      destruct (S1 Hc0) as [k Hk].
      cbv [bind gets].
      rewrite (renderBlock_ok _ _ _ k); [| | done].
      + eexists. split; [reflexivity |]. split.
        * eapply only_scene_trans; [done | apply sprite_placed_only_scene].
        * by apply heap_ok_sprite_placed.
      + rewrite C1. unfold s0. simpl. apply tileColor_usable; [done |].
        symmetry in Hp. by eapply Hworld.
    - exists s1. by split. }
  rewrite (bind_Ok _ _ _ _ _ E'). exists s'. split; [reflexivity |].
  destruct Hs' as (D1 & (C1 & V1 & T1 & K1) & G1 & X1 & Y1 & N1 & H1 & S1).
  unfold s0 in *. simpl in *.
  split; [| done]. unfold tile_built, world_ok, same_config.
  split_and!; try congruence.
  - by rewrite D1.
  - apply (palette_ok_same s); [by rewrite D1 | by unfold same_config | done].
  - done.
  - done.
  - subst c. lia.
  - intros r Hr. rewrite H1 by done. by rewrite lookup_insert_ne.
  - auto.
Qed.

Lemma read_of_same (d d' : Dimension) (array : list (list (list (option Block)))) :
  same_blocks d d' ->
  Forall (Forall (Forall (read_of d))) array ->
  Forall (Forall (Forall (read_of d'))) array.
Proof.
  intros Hb H. eapply Forall_impl; [exact H |]. intros plane Hplane.
  eapply Forall_impl; [exact Hplane |]. intros column Hcolumn.
  eapply Forall_impl; [exact Hcolumn |]. intros v [Hv [p Hp]].
  split; [done |]. exists p. by rewrite Hb.
Qed.

Lemma getBlockArray_spec (ctr : XY.t) (s : RenderState) :
  wf_dimension (dimension s) ->
  exists array d',
    getBlockArray ctr s = Ok array (set_dimension d' s)
    /\ wf_dimension d' /\ same_blocks (dimension s) d'
    /\ Forall (Forall (Forall (read_of d'))) array.
Proof.
  intros Hwf. unfold getBlockArray.
  pose proof (Dimension_getBlockArray_spec
    (BlockPos.mk (XY.x ctr - 4) (XY.y ctr - 4) 0)
    (BlockPos.mk (XY.x ctr + 4) (XY.y ctr + 4) (renderChunkHeight - 1))
    (dimension s) Hwf) as Hspec.
  destruct (Dimension_getBlockArray _ _ _) as [d' array]. simpl in Hspec.
  destruct Hspec as [[Hwf' Hsame] Hall]; [lia | unfold renderChunkHeight; lia |].
  exists array, d'. split_and!; try done. by eapply read_of_same.
Qed.

Lemma buildTile_spec (ctr : XY.t) (s : RenderState) :
  world_ok s -> exists c s', buildTile ctr s = Ok c s' /\ tile_built s c s'.
Proof.
  intros (Hwf & Hpal & Hheap). unfold buildTile.
  destruct (getBlockArray_spec ctr s Hwf) as (array & d' & E & Hwf' & Hsame & Hall).
  rewrite (bind_Ok _ _ _ _ _ E).
  destruct (renderRChunk_spec array ctr (set_dimension d' s)) as (s' & E' & Hb & Hd);
    [split_and!; [exact Hwf' | | exact Hheap] | done |].
  { apply (palette_ok_same s); [done | by unfold same_config | done]. }
  exists (nextId s), s'. split; [exact E' |].
  destruct Hb as (W & _ & N & G & C & H & S & B & X & Y). simpl in *.
  unfold tile_built. split_and!; try done.
  rewrite Hd. simpl. done.
Qed.

Lemma for_collect_tiles {A : Type} (l : list A) (body : A -> M nat) :
  (forall a s, world_ok s -> exists c s', body a s = Ok c s' /\ tile_built s c s') ->
  forall s, world_ok s ->
    exists cs s', for_collect l body s = Ok cs s' /\ row_built (length l) s cs s'.
Proof.
  intros Hbody. induction l as [| a l IH]; intros s Hs; simpl.
  - exists [], s. split; [reflexivity |].
    unfold row_built, same_config. split_and!; try done. constructor.
  - destruct (Hbody a s Hs) as (c & s1 & E1 & T1).
    rewrite (bind_Ok _ _ _ _ _ E1).
    destruct T1 as (W1 & Ec & N1 & G1 & (Ca & Cb & Cc & Cd) & H1 & S1 & B1 & X1 & Y1).
    destruct (IH s1 W1) as (cs & s2 & E2 & R2).
    rewrite (bind_Ok _ _ _ _ _ E2).
    exists (c :: cs), s2. split; [reflexivity |].
    destruct R2 as (W2 & L2 & D2 & F2 & G2 & (Ce & Cf & Cg & Ch) & H2 & B2 & X2 & Y2 & N2).
    unfold row_built, same_config. split_and!; try congruence; try lia.
    + simpl. by rewrite L2.
    + constructor; [| done].
      intros Hin. rewrite Forall_forall in F2. apply F2 in Hin as [Hge _]. lia.
    + constructor.
      * split; [lia |]. rewrite H2 by lia. done.
      * eapply Forall_impl; [exact F2 |]. intros c' [Hge Hsome]. split; [lia | done].
    + intros r Hr. rewrite H2 by lia. apply H1. lia.
Qed.

Lemma length_upto (n : Z) : length (upto n) = Z.to_nat n.
Proof. unfold upto. apply length_seqZ. Qed.

Lemma elem_of_upto (n i : Z) : i ∈ upto n <-> 0 <= i < n.
Proof. unfold upto. rewrite elem_of_seqZ. lia. Qed.

(** ** Destroying containers *)

Lemma same_objects_refl (s : RenderState) : same_objects s s.
Proof. unfold same_objects, same_config. by split_and!. Qed.

Lemma same_objects_trans (s1 s2 s3 : RenderState) :
  same_objects s1 s2 -> same_objects s2 s3 -> same_objects s1 s3.
Proof.
  unfold same_objects, same_config.
  intros (D1 & (A1 & B1 & C1 & K1) & G1 & N1 & H1) (D2 & (A2 & B2 & C2 & K2) & G2 & N2 & H2).
  split_and!; try congruence. intros r. by rewrite H2, H1.
Qed.

Lemma same_objects_world_ok (s s' : RenderState) :
  same_objects s s' -> world_ok s -> world_ok s'.
Proof.
  intros (D & C & G & N & H) (Hwf & Hpal & Hheap). unfold world_ok.
  rewrite D. split_and!; [done | |].
  - apply (palette_ok_same s); [by rewrite D | done | done].
  - intros r Hr%H. rewrite N. by apply Hheap.
Qed.

Lemma set_containers_of_same_objects (c : nat) (k k' : ExtendedContainer.t) (s : RenderState) :
  containers s !! c = Some k -> same_objects s (set_containers_of c k' s).
Proof.
  intros Hk. unfold same_objects, same_config. simpl. split_and!; try done.
  intros r. rewrite lookup_insert. case_decide; [subst; rewrite Hk |]; by eauto.
Qed.

Lemma destroy_spec (c : nat) (s : RenderState) :
  is_Some (containers s !! c) ->
  exists s', destroy c s = Ok tt s' /\ same_objects s s'.
Proof.
  intros [k Hk]. unfold destroy. cbv [bind gets]. rewrite Hk.
  eexists. split; [reflexivity |]. by eapply set_containers_of_same_objects.
Qed.

Lemma for_each_destroy (l : list nat) (s : RenderState) :
  Forall (fun c => is_Some (containers s !! c)) l ->
  exists s', for_each l destroy s = Ok tt s' /\ same_objects s s'.
Proof.
  intros Hl. apply (for_each_inv (same_objects s)); [| apply same_objects_refl].
  intros c s1 Hc H1. rewrite Forall_forall in Hl.
  destruct (destroy_spec c s1) as (s2 & E & H2).
  - apply H1. by apply Hl.
  - exists s2. split; [done |]. by eapply same_objects_trans.
Qed.

(** ** Reads of the grid *)

Lemma gridAt_ok (i j : Z) (row : list nat) (s : RenderState) :
  lookupZ (rengerGrid s) i = Some row -> gridAt i j s = Ok (lookupZ row j) s.
Proof. intros Hrow. unfold gridAt. cbv [bind gets]. by rewrite Hrow. Qed.

Lemma readCell_ok (i j : Z) (row : list nat) (c : nat) (s : RenderState) :
  lookupZ (rengerGrid s) i = Some row -> lookupZ row j = Some c ->
  readCell i j s = Ok tt s.
Proof.
  intros Hrow Hc. unfold readCell.
  rewrite (bind_Ok _ _ _ _ _ (gridAt_ok i j row s Hrow)). by rewrite Hc.
Qed.

Lemma rowAt_ok (i : Z) (row : list nat) (s : RenderState) :
  lookupZ (rengerGrid s) i = Some row -> rowAt i s = Ok row s.
Proof. intros Hrow. unfold rowAt. cbv [bind gets]. by rewrite Hrow. Qed.

Lemma grid_rect_lookup (g : list (list nat)) (i : Z) :
  grid_rect g -> 0 <= i < yMaxChunkLength ->
  exists row, lookupZ g i = Some row /\ length row = Z.to_nat xMaxChunkLength.
Proof.
  intros [Hlen Hrows] Hi.
  destruct (lookupZ_is_Some g i) as [row Hrow]; [lia |].
  exists row. split; [done |].
  rewrite Forall_forall in Hrows. apply Hrows. by eapply lookupZ_elem_of.
Qed.

Lemma grid_rect_cell (g : list (list nat)) (i j : Z) :
  grid_rect g -> 0 <= i < yMaxChunkLength -> 0 <= j < xMaxChunkLength ->
  exists row c, lookupZ g i = Some row /\ lookupZ row j = Some c.
Proof.
  intros Hg Hi Hj. destruct (grid_rect_lookup g i Hg Hi) as (row & Hrow & Hlen).
  destruct (lookupZ_is_Some row j) as [c Hc]; [lia |].
  by exists row, c.
Qed.

(** ** Shifting the window *)

Lemma shifted_refl (s : RenderState) : grid_ok s -> shifted s s.
Proof.
  intros Hs. unfold shifted, same_config. by split_and!.
Qed.

Lemma shifted_trans (s1 s2 s3 : RenderState) :
  shifted s1 s2 -> shifted s2 s3 -> shifted s1 s3.
Proof.
  unfold shifted, same_config.
  intros (_ & B1 & (Ca & Cb & Cc & Cd)) (G2 & B2 & (Ce & Cf & Cg & Ch)).
  split_and!; try congruence.
Qed.

(** New references sit above every reference of the state they were made in. *)
Lemma fresh_refs_ok (s s' : RenderState) (old new : list nat) :
  heap_ok s ->
  NoDup old -> Forall (fun c => is_Some (containers s !! c)) old ->
  NoDup new ->
  Forall (fun c => (nextId s <= c)%nat /\ is_Some (containers s' !! c)) new ->
  (forall r, (r < nextId s)%nat -> containers s' !! r = containers s !! r) ->
  NoDup (new ++ old) /\ Forall (fun c => is_Some (containers s' !! c)) (new ++ old).
Proof.
  intros Hheap Hnd Hall Hnd' Hall' Hframe.
  rewrite Forall_forall in Hall. rewrite Forall_forall in Hall'. split.
  - apply NoDup_app. split_and!; [done | | done].
    intros c Hc Hc'. apply Hall' in Hc as [Hge _]. apply Hall, Hheap in Hc'. lia.
  - apply Forall_app. split; apply Forall_forall; intros c Hc.
    + by apply Hall'.
    + rewrite Hframe; [by apply Hall |]. by apply Hheap, Hall.
Qed.

Lemma tile_body_spec (f : Z -> Z -> XY.t) (s : RenderState) :
  world_ok s ->
  exists c s',
    (let* xo := gets currentXOffset in
     let* yo := gets currentYOffset in
     buildTile (f xo yo)) s = Ok c s' /\ tile_built s c s'.
Proof. intros Hs. rewrite !bind_gets. by apply buildTile_spec. Qed.

Lemma addTopRow_spec (s : RenderState) :
  1 <= xMaxChunkLength -> 2 <= yMaxChunkLength -> grid_ok s ->
  exists s', addTopRow s = Ok tt s' /\ shifted s s'.
Proof.
  intros Hx Hy (Hw & [Hlen Hrows] & [Hnd Hall]).
  destruct (last (rengerGrid s)) as [popped |] eqn:Hlast.
  2:{ apply last_None in Hlast. rewrite Hlast in Hlen. simpl in Hlen. lia. }
  apply last_Some in Hlast as [g' Eg].
  rewrite Eg in Hlen, Hrows, Hnd, Hall.
  rewrite concat_app in Hnd, Hall. simpl in Hnd, Hall. rewrite app_nil_r in Hnd, Hall.
  rewrite length_app in Hlen. simpl in Hlen.
  apply Forall_app in Hrows as [Hrows Hpopped].
  apply NoDup_app in Hnd as (Hnd & _ & _).
  apply Forall_app in Hall as [Hall Hallp].
  unfold addTopRow. rewrite bind_gets, Eg, last_snoc, removelast_last.
  rewrite !bind_assoc, bind_modify.
  destruct (for_each_destroy popped (set_rengerGrid g' s) Hallp) as (s2 & E2 & O2).
  rewrite (bind_Ok _ _ _ _ _ E2).
  pose proof O2 as (D2 & C2 & G2 & N2 & H2). simpl in D2, G2, N2, H2.
  assert (W2 : world_ok s2) by (by eapply same_objects_world_ok).
  destruct g' as [| row0 g'']; [simpl in Hlen; lia |].
  pose proof (Forall_inv Hrows) as Hrow0. simpl in Hrow0.
  destruct row0 as [| c0 row0']; [simpl in Hrow0; lia |].
  rewrite (bind_Ok _ _ _ _ _ (readCell_ok 0 0 (c0 :: row0') c0 s2
             ltac:(by rewrite G2) eq_refl)).
  rewrite bind_modify.
  set (s3 := set_offsets _ _ _ s2).
  destruct (for_collect_tiles (upto xMaxChunkLength)
              (fun x => let* xo := gets currentXOffset in
                        let* yo := gets currentYOffset in
                        buildTile (XY.mk ((x + xo - offsetX) * chunkSize)
                                         ((yo - offsetY) * chunkSize)))
              (fun x s0 => tile_body_spec _ s0) s3 W2)
    as (cs & s4 & E4 & R4).
  rewrite (bind_Ok _ _ _ _ _ E4).
  eexists. split; [reflexivity |].
  destruct R4 as (W4 & L4 & Dn4 & F4 & G4 & C4 & H4 & B4 & _ & _).
  simpl in G4, H4, B4, F4. rewrite G2 in G4. rewrite D2 in B4.
  destruct (fresh_refs_ok s3 s4 (concat ((c0 :: row0') :: g'')) cs) as [Hnd' Hall'];
    try done.
  { by destruct W2 as (_ & _ & Hh). }
  { eapply Forall_impl; [exact Hall |]. intros r Hr. by apply H2. }
  unfold shifted, grid_ok, grid_rect, grid_refs_ok. simpl. rewrite G4.
  split_and!; try done.
  - simpl in *. lia.
  - constructor; [| done]. by rewrite L4, length_upto.
  - destruct C2 as (? & ? & ? & ?), C4 as (? & ? & ? & ?). unfold same_config.
    simpl in *. split_and!; congruence.
Qed.

Lemma readCell_rect (g : list (list nat)) (i j : Z) (s : RenderState) :
  rengerGrid s = g ->
  Forall (fun row => length row = Z.to_nat xMaxChunkLength) g ->
  0 <= i < Z.of_nat (length g) -> 0 <= j < xMaxChunkLength ->
  readCell i j s = Ok tt s.
Proof.
  intros Eg Hrows Hi Hj.
  destruct (lookupZ_is_Some g i Hi) as [row Hrow].
  assert (Hlen : length row = Z.to_nat xMaxChunkLength).
  { rewrite Forall_forall in Hrows. apply Hrows. by eapply lookupZ_elem_of. }
  destruct (lookupZ_is_Some row j) as [c Hc]; [lia |].
  eapply readCell_ok; [by rewrite Eg | done].
Qed.

Lemma addBottomRow_spec (s : RenderState) :
  1 <= xMaxChunkLength -> 2 <= yMaxChunkLength -> grid_ok s ->
  exists s', addBottomRow s = Ok tt s' /\ shifted s s'.
Proof.
  intros Hx Hy (Hw & [Hlen Hrows] & [Hnd Hall]).
  destruct (rengerGrid s) as [| shifted0 g'] eqn:Eg; [simpl in Hlen; lia |].
  simpl in Hlen, Hnd, Hall.
  apply Forall_cons in Hrows as [Hshifted Hrows].
  apply NoDup_app in Hnd as (_ & _ & Hnd).
  apply Forall_app in Hall as [Hallp Hall].
  unfold addBottomRow. rewrite bind_gets, Eg.
  rewrite !bind_assoc, bind_modify.
  destruct (for_each_destroy shifted0 (set_rengerGrid g' s) Hallp) as (s2 & E2 & O2).
  rewrite (bind_Ok _ _ _ _ _ E2).
  pose proof O2 as (D2 & C2 & G2 & N2 & H2). simpl in D2, G2, N2, H2.
  assert (W2 : world_ok s2) by (by eapply same_objects_world_ok).
  unfold gridLength. rewrite bind_gets, G2.
  rewrite (bind_Ok _ _ _ _ _
             (readCell_rect g' (Z.of_nat (length g') - 1) 0 s2 G2 Hrows
                ltac:(lia) ltac:(lia))).
  rewrite bind_modify.
  set (s3 := set_offsets _ _ _ s2).
  destruct (for_collect_tiles (upto xMaxChunkLength)
              (fun x => let* xo := gets currentXOffset in
                        let* yo := gets currentYOffset in
                        buildTile (XY.mk ((x + xo - offsetX) * chunkSize)
                                         ((yo - offsetY + yMaxChunkLength) * chunkSize)))
              (fun x s0 => tile_body_spec _ s0) s3 W2)
    as (cs & s4 & E4 & R4).
  rewrite (bind_Ok _ _ _ _ _ E4).
  eexists. split; [reflexivity |].
  destruct R4 as (W4 & L4 & Dn4 & F4 & G4 & C4 & H4 & B4 & _ & _).
  simpl in G4, H4, B4, F4. rewrite G2 in G4. rewrite D2 in B4.
  destruct (fresh_refs_ok s3 s4 (concat g') cs) as [Hnd' Hall']; try done.
  { by destruct W2 as (_ & _ & Hh). }
  { eapply Forall_impl; [exact Hall |]. intros r Hr. by apply H2. }
  unfold shifted, grid_ok, grid_rect, grid_refs_ok. simpl. rewrite G4.
  rewrite concat_app. simpl. rewrite app_nil_r.
  split_and!; try done.
  - rewrite length_app. simpl. lia.
  - apply Forall_app. split; [done |].
    constructor; [| done]. by rewrite L4, length_upto.
  - by rewrite (Permutation_app_comm (concat g') cs).
  - by rewrite (Permutation_app_comm (concat g') cs).
  - destruct C2 as (? & ? & ? & ?), C4 as (? & ? & ? & ?). unfold same_config.
    simpl in *. split_and!; congruence.
Qed.

Lemma grid_row_swap (g : list (list nat)) (y : nat) (row newrow rest : list nat)
    (removed c : nat) :
  g !! y = Some row -> row ≡ₚ removed :: rest -> newrow ≡ₚ c :: rest ->
  exists K, concat g ≡ₚ removed :: K /\ concat (<[y := newrow]> g) ≡ₚ c :: K.
Proof.
  intros Hy Hrow Hnew.
  exists (concat (take y g) ++ rest ++ concat (drop (S y) g)). split.
  - rewrite <- (take_drop_middle g y row Hy) at 1.
    rewrite concat_app, concat_cons, Hrow. simpl.
    by rewrite <- Permutation_middle.
  - rewrite insert_take_drop by (by eapply lookup_lt_Some).
    rewrite concat_app, concat_cons, Hnew. simpl.
    by rewrite <- Permutation_middle.
Qed.

Lemma alter_alter_insert {A : Type} (l : list A) (i : nat) (x : A) (f1 f2 : A -> A) :
  l !! i = Some x -> alter f2 i (alter f1 i l) = <[i := f2 (f1 x)]> l.
Proof.
  intros Hx. apply list_eq. intros j.
  destruct (decide (i = j)) as [<- | Hne].
  - rewrite !list_lookup_alter_eq, Hx. simpl.
    rewrite list_lookup_insert_eq; [done |]. by eapply lookup_lt_Some.
  - by rewrite !list_lookup_alter_ne, list_lookup_insert_ne.
Qed.

Lemma updateRow_run (y : Z) (f : list nat -> list nat) (s : RenderState) :
  updateRow y f s = Ok tt (set_rengerGrid (alter f (Z.to_nat y) (rengerGrid s)) s).
Proof. reflexivity. Qed.

(** One row of a column shift: a cell leaves the row, its container is
    destroyed, a new tile takes the free end. *)
Lemma column_step (s : RenderState) (y : Z) (row rest : list nat) (removed : nat)
    (f1 : list nat -> list nat) (f2 : nat -> list nat -> list nat)
    (ctr : RenderState -> XY.t) (tail : M unit) :
  grid_ok s -> 0 <= y < yMaxChunkLength ->
  lookupZ (rengerGrid s) y = Some row ->
  row ≡ₚ removed :: rest -> f1 row = rest ->
  (forall c, f2 c rest ≡ₚ c :: rest) ->
  (forall s0, tail s0 = bind (buildTile (ctr s0)) (fun c => updateRow y (f2 c)) s0) ->
  exists s', (updateRow y f1 ;;; (destroy removed ;;; tail)) s = Ok tt s' /\ shifted s s'.
Proof.
  intros (Hw & [Hlen Hrows] & [Hnd Hall]) Hy Hrow Hperm Hf1 Hf2 Htail.
  rewrite lookupZ_nonneg in Hrow by lia.
  assert (Hrowlen : length row = Z.to_nat xMaxChunkLength).
  { rewrite Forall_forall in Hrows. apply Hrows. by eapply list_elem_of_lookup_2. }
  rewrite (bind_Ok _ _ _ _ _ (updateRow_run y f1 s)).
  set (s1 := set_rengerGrid _ s).
  destruct (grid_row_swap (rengerGrid s) (Z.to_nat y) row (f2 0%nat rest) rest removed 0%nat
              Hrow Hperm (Hf2 _)) as (K & HK & _).
  rewrite HK in Hnd, Hall.
  apply NoDup_cons in Hnd as [_ Hnd]. apply Forall_cons in Hall as [Hrem Hall].
  destruct (destroy_spec removed s1 Hrem) as (s2 & E2 & O2).
  rewrite (bind_Ok _ _ _ _ _ E2).
  pose proof O2 as (D2 & C2 & G2 & N2 & H2). simpl in D2, G2, N2, H2.
  assert (W2 : world_ok s2) by (by eapply same_objects_world_ok).
  rewrite Htail.
  destruct (buildTile_spec (ctr s2) s2 W2) as (c & s3 & E3 & T3).
  rewrite (bind_Ok _ _ _ _ _ E3). rewrite updateRow_run.
  eexists. split; [reflexivity |].
  destruct T3 as (W3 & Ec & N3 & G3 & C3 & H3 & S3 & B3 & _ & _).
  rewrite G3, G2, (alter_alter_insert _ _ _ _ _ Hrow), Hf1.
  destruct (grid_row_swap (rengerGrid s) (Z.to_nat y) row (f2 c rest) rest removed c
              Hrow Hperm (Hf2 _)) as (K' & HK1 & HK2).
  assert (EK : K ≡ₚ K').
  { apply (Permutation_cons_inv (a := removed)). by rewrite <- HK, <- HK1. }
  destruct (fresh_refs_ok s2 s3 K [c]) as [Hnd' Hall']; try done.
  { by destruct W2 as (_ & _ & Hh). }
  { eapply Forall_impl; [exact Hall |]. intros r Hr. by apply H2. }
  { apply NoDup_singleton. }
  { constructor; [| done]. split; [lia | done]. }
  { intros r Hr. apply H3. lia. }
  unfold shifted, grid_ok, grid_rect, grid_refs_ok. simpl.
  split_and!; try done.
  - by rewrite length_insert.
  - apply Forall_insert; [done |].
    rewrite (Permutation_length (Hf2 c)). simpl.
    rewrite <- Hrowlen, (Permutation_length Hperm). done.
  - by rewrite HK2, <- EK.
  - by rewrite HK2, <- EK.
  - rewrite D2 in B3. exact B3.
  - destruct C2 as (? & ? & ? & ?), C3 as (? & ? & ? & ?). unfold same_config.
    simpl in *. split_and!; congruence.
Qed.

Lemma addRightColumn_spec (s : RenderState) :
  1 <= xMaxChunkLength -> grid_ok s ->
  exists s', addRightColumn s = Ok tt s' /\ shifted s s'.
Proof.
  intros Hx Hs. unfold addRightColumn. rewrite bind_modify.
  set (s0 := set_offsets _ _ _ s).
  assert (H0 : shifted s s0) by (by apply (shifted_refl s)).
  revert H0. generalize s0. clear s0.
  apply (for_each_inv (shifted s)). intros y s1 Hy%elem_of_upto H1.
  pose proof H1 as (G1 & _).
  pose proof G1 as (_ & R1 & _).
  destruct (grid_rect_lookup _ y R1 Hy) as (row & Hrow & Hlen).
  destruct row as [| first rest]; [simpl in Hlen; lia |].
  rewrite (bind_Ok _ _ _ _ _ (rowAt_ok y _ s1 Hrow)).
  destruct (lookupZ_is_Some (first :: rest) (Z.of_nat (length (first :: rest)) - 1))
    as [c Hc]; [simpl; lia |].
  rewrite (bind_Ok _ _ _ _ _ (readCell_ok y _ _ c s1 Hrow Hc)).
  rewrite bind_assoc.
  destruct (column_step s1 y (first :: rest) rest first (fun _ => rest)
              (fun c r => r ++ [c])
              (fun s0 => XY.mk ((xMaxChunkLength - 1 + currentXOffset s0) * chunkSize)
                               ((y + currentYOffset s0 - offsetY) * chunkSize))
              (let* xo := gets currentXOffset in
               let* yo := gets currentYOffset in
               let* container :=
                 buildTile (XY.mk ((xMaxChunkLength - 1 + xo) * chunkSize)
                                  ((y + yo - offsetY) * chunkSize)) in
               updateRow y (fun r => r ++ [container])))
    as (s2 & E2 & H2); try done.
  { intros c0. by rewrite Permutation_app_comm. }
  exists s2. split; [exact E2 |]. by eapply shifted_trans.
Qed.

Lemma addLeftColumn_spec (s : RenderState) :
  1 <= xMaxChunkLength -> grid_ok s ->
  exists s', addLeftColumn s = Ok tt s' /\ shifted s s'.
Proof.
  intros Hx Hs. unfold addLeftColumn. rewrite bind_modify.
  set (s0 := set_offsets _ _ _ s).
  assert (H0 : shifted s s0) by (by apply (shifted_refl s)).
  revert H0. generalize s0. clear s0.
  apply (for_each_inv (shifted s)). intros y s1 Hy%elem_of_upto H1.
  pose proof H1 as (G1 & _).
  pose proof G1 as (_ & R1 & _).
  destruct (grid_rect_lookup _ y R1 Hy) as (row & Hrow & Hlen).
  destruct (lookupZ_is_Some row 0) as [c Hc]; [lia |].
  rewrite (bind_Ok _ _ _ _ _ (readCell_ok y _ _ c s1 Hrow Hc)).
  rewrite (bind_Ok _ _ _ _ _ (rowAt_ok y _ s1 Hrow)).
  destruct (last row) as [popped |] eqn:Hlast.
  2:{ apply last_None in Hlast. subst row. simpl in Hlen. lia. }
  apply last_Some in Hlast as [rest Erow]. subst row.
  rewrite bind_assoc.
  destruct (column_step s1 y (rest ++ [popped]) rest popped (fun r => removelast r)
              (fun c r => c :: r)
              (fun s0 => XY.mk ((0 + currentXOffset s0 - offsetX) * chunkSize)
                               ((y + currentYOffset s0 - offsetY) * chunkSize))
              (let* xo := gets currentXOffset in
               let* yo := gets currentYOffset in
               let* container :=
                 buildTile (XY.mk ((0 + xo - offsetX) * chunkSize)
                                  ((y + yo - offsetY) * chunkSize)) in
               updateRow y (fun r => container :: r)))
    as (s2 & E2 & H2); try done.
  { by rewrite Permutation_app_comm. }
  { apply removelast_last. }
  exists s2. split; [exact E2 |]. by eapply shifted_trans.
Qed.

Lemma shift_spec (op : Shift) (s : RenderState) :
  1 <= xMaxChunkLength -> 2 <= yMaxChunkLength -> grid_ok s ->
  exists s', shift op s = Ok tt s' /\ shifted s s'.
Proof.
  intros Hx Hy Hs. destruct op; simpl.
  - by apply addTopRow_spec.
  - by apply addBottomRow_spec.
  - by apply addRightColumn_spec.
  - by apply addLeftColumn_spec.
Qed.

Lemma run_shifts_spec (ops : list Shift) (s : RenderState) :
  1 <= xMaxChunkLength -> 2 <= yMaxChunkLength -> grid_ok s ->
  exists s', run_shifts ops s = Ok tt s' /\ shifted s s'.
Proof.
  intros Hx Hy Hs. unfold run_shifts.
  apply (for_each_inv (shifted s)); [| by apply shifted_refl].
  intros op s1 _ H1. destruct (shift_spec op s1 Hx Hy) as (s2 & E2 & H2).
  - by destruct H1.
  - exists s2. split; [done |]. by eapply shifted_trans.
Qed.

(** ** Filling the window *)

Lemma for_each_inv_count {A : Type} (I : nat -> RenderState -> Prop) (l : list A)
    (body : A -> M unit) (k : nat) :
  (forall n a s, l !! n = Some a -> I (k + n)%nat s ->
     exists s', body a s = Ok tt s' /\ I (S (k + n)) s') ->
  forall s, I k s -> exists s', for_each l body s = Ok tt s' /\ I (k + length l)%nat s'.
Proof.
  revert k. induction l as [| a l IH]; intros k Hbody s Hs; simpl.
  - exists s. split; [done |]. by rewrite Nat.add_0_r.
  - destruct (Hbody 0%nat a s) as (s1 & E1 & H1); [done | by rewrite Nat.add_0_r |].
    rewrite (bind_Ok _ _ _ _ _ E1). rewrite Nat.add_0_r in H1.
    destruct (IH (S k)) with (s := s1) as (s2 & E2 & H2); [| done |].
    + intros n a' s' Ha' Hs'. replace (S k + n)%nat with (k + S n)%nat in * by lia.
      by apply (Hbody (S n)).
    + exists s2. split; [done |]. by replace (k + S (length l))%nat with (S k + length l)%nat by lia.
Qed.

Lemma initStage_spec (ctr : option XY.t) (s : RenderState) :
  world_ok s -> rengerGrid s = [] ->
  exists s', initStage ctr s = Ok tt s' /\ shifted s s'.
Proof.
  intros Hw Hg. unfold initStage.
  set (I := fun n s1 => rows_ok n s1 /\ same_blocks (dimension s) (dimension s1)
                        /\ same_config s s1).
  destruct (for_each_inv_count I (upto yMaxChunkLength)
    (fun y =>
       let* row :=
         for_collect (upto xMaxChunkLength) (fun x =>
           buildTile (XY.mk ((x + XY.x (default (XY.mk 0 0) ctr) - offsetX) * chunkSize)
                            ((y + XY.y (default (XY.mk 0 0) ctr) - offsetY) * chunkSize))) in
       modify (fun s => set_rengerGrid (rengerGrid s ++ [row]) s)) 0%nat) with s
    as (s' & E & (R & B & C)).
  - intros n y s1 _ ((W1 & L1 & F1 & [Hnd Hall]) & B1 & C1). simpl in *.
    destruct (for_collect_tiles (upto xMaxChunkLength)
                (fun x =>
                   buildTile (XY.mk ((x + XY.x (default (XY.mk 0 0) ctr) - offsetX) * chunkSize)
                                    ((y + XY.y (default (XY.mk 0 0) ctr) - offsetY) * chunkSize)))
                (fun x s0 => buildTile_spec _ s0) s1 W1)
      as (cs & s2 & E2 & R2).
    rewrite (bind_Ok _ _ _ _ _ E2). eexists. split; [reflexivity |].
    destruct R2 as (W2 & L2 & Dn2 & F2 & G2 & C2 & H2 & B2 & _ & _).
    destruct (fresh_refs_ok s1 s2 (concat (rengerGrid s1)) cs) as [Hnd' Hall']; try done.
    { by destruct W1 as (_ & _ & Hh). }
    unfold I, rows_ok, grid_refs_ok. simpl. rewrite G2.
    rewrite concat_app. simpl. rewrite app_nil_r.
    split_and!; try done.
    + rewrite length_app. simpl. lia.
    + apply Forall_app. split; [done |].
      constructor; [| done]. by rewrite L2, length_upto.
    + by rewrite (Permutation_app_comm (concat (rengerGrid s1)) cs).
    + by rewrite (Permutation_app_comm (concat (rengerGrid s1)) cs).
    + by eapply same_blocks_trans.
    + destruct C1 as (? & ? & ? & ?), C2 as (? & ? & ? & ?). unfold same_config.
      simpl. split_and!; congruence.
  - unfold I, rows_ok, grid_refs_ok, same_config. rewrite Hg. simpl.
    split_and!; try done; constructor.
  - exists s'. split; [exact E |].
    destruct R as (W & L & F & Refs). simpl in L. rewrite length_upto in L.
    unfold shifted, grid_ok, grid_rect. by split_and!.
Qed.

Lemma lookupZ_fmap_seqZ {A : Type} (f : Z -> A) (n i : Z) (a : A) :
  lookupZ (f <$> seqZ 0 n) i = Some a -> a = f i.
Proof.
  unfold lookupZ. case_bool_decide as Hi; [| done].
  rewrite list_lookup_fmap. intros Ha.
  destruct (seqZ 0 n !! Z.to_nat i) as [j |] eqn:Hj; [| done].
  apply lookup_seqZ in Hj as [-> _]. injection Ha as <-. f_equal. lia.
Qed.

Lemma chunk_get_generateChunk (coord : Z * Z) (x y z : Z) (b : Block) :
  chunk_get (generateChunk coord) x y z = Some b ->
  b = generate (BlockPos.mk (coord.1 * 8 + x) (coord.2 * 8 + y) z).
Proof.
  unfold chunk_get. intros H.
  destruct (lookupZ (generateChunk coord) x) as [plane |] eqn:Hx; [| done].
  simpl in H.
  destruct (lookupZ plane y) as [column |] eqn:Hy; [| done].
  simpl in H. unfold generateChunk in Hx.
  apply lookupZ_fmap_seqZ in Hx. subst plane.
  apply lookupZ_fmap_seqZ in Hy. subst column.
  by apply lookupZ_fmap_seqZ in H.
Qed.

(** In a store that holds generated chunks only, every answer is the
    generator's. *)
Lemma peek_generated (d : Dimension) (p : BlockPos.t) (b : Block) :
  (forall coord, chunk_of d coord = generateChunk coord) ->
  peek d p = Some b -> b = generate p.
Proof.
  intros Hd Hp. rewrite peek_chunk_of, Hd in Hp.
  apply chunk_get_generateChunk in Hp as ->. f_equal.
  destruct p as [x y z]. unfold chunkPosOf. simpl.
  f_equal; rewrite Z.mul_comm; symmetry; apply Z.div_mod; lia.
Qed.

Lemma initial_state_world_ok : generator_ok -> world_ok initial_state.
Proof.
  intros Hgen. unfold world_ok, initial_state, palette_ok. simpl. split_and!.
  - apply wf_getChunkFromChunkPos. intros coord c Hc. simpl in Hc.
    by rewrite lookup_empty in Hc.
  - unfold colors_ok, initial_colorMapper.
    repeat (apply map_Forall_insert_2; [reflexivity |]). apply map_Forall_empty.
  - intros p type Hp. right. apply (Hgen p).
    symmetry. eapply peek_generated; [| exact Hp].
    intros coord. rewrite chunk_of_getChunkFromChunkPos.
    unfold chunk_of. simpl. by rewrite lookup_empty.
  - left. unfold initial_colorMapper. rewrite lookup_insert_ne by done.
    rewrite lookup_insert_ne by done. rewrite lookup_insert_eq. eauto.
  - intros c [k Hk]. simpl in Hk. by rewrite lookup_empty in Hk.
Qed.

(** ** The reindex pass *)

Lemma elem_of_concat {A : Type} (x : A) (ls : list (list A)) :
  x ∈ concat ls <-> exists l, l ∈ ls /\ x ∈ l.
Proof.
  rewrite list_elem_of_In, in_concat. split; intros (l & H1 & H2); exists l.
  - by rewrite !list_elem_of_In.
  - by rewrite <- !list_elem_of_In.
Qed.

Lemma NoDup_concat_cell (g : list (list nat)) (i i' j j' : nat) (r r' : list nat) (c : nat) :
  NoDup (concat g) ->
  g !! i = Some r -> r !! j = Some c -> g !! i' = Some r' -> r' !! j' = Some c ->
  i = i' /\ j = j'.
Proof.
  revert i i'. induction g as [| r0 g IH]; intros i i' Hnd Hr Hc Hr' Hc'; [done |].
  simpl in Hnd. apply NoDup_app in Hnd as (Hnd0 & Hdisj & Hnd1).
  destruct i as [| i], i' as [| i']; simpl in *.
  - injection Hr as ->. injection Hr' as ->. split; [done |].
    exact (NoDup_lookup _ _ _ _ Hnd0 Hc Hc').
  - injection Hr as ->. exfalso. apply (Hdisj c).
    + by eapply list_elem_of_lookup_2.
    + apply elem_of_concat. exists r'. split; by eapply list_elem_of_lookup_2.
  - injection Hr' as ->. exfalso. apply (Hdisj c).
    + by eapply list_elem_of_lookup_2.
    + apply elem_of_concat. exists r. split; by eapply list_elem_of_lookup_2.
  - destruct (IH i i' Hnd1 Hr Hc Hr' Hc') as [-> ->]. done.
Qed.

Lemma lookupZ_Some_nonneg {A : Type} (l : list A) (i : Z) (a : A) :
  lookupZ l i = Some a -> 0 <= i /\ l !! Z.to_nat i = Some a.
Proof. unfold lookupZ. case_bool_decide; [done | discriminate]. Qed.

Lemma lookupZ_concat_elem (g : list (list nat)) (i j : Z) (row : list nat) (c : nat) :
  lookupZ g i = Some row -> lookupZ row j = Some c -> c ∈ concat g.
Proof.
  intros Hrow%lookupZ_elem_of Hc%lookupZ_elem_of.
  apply elem_of_concat. by exists row.
Qed.

(** One assignment of the pass: the cell gets its index, no other cell loses
    its own. *)
Lemma reindex_cell_spec (s : RenderState) (i j : Z) :
  grid_rect (rengerGrid s) -> grid_refs_ok s ->
  0 <= i < yMaxChunkLength -> 0 <= j < xMaxChunkLength ->
  exists s',
    (let* cell := gridAt i j in
     match cell with
     | None => throw "TypeError: cell is undefined"
     | Some c =>
         let* found := gets (fun s => containers s !! c) in
         match found with
         | None => throw "no such container"
         | Some k =>
             modify (set_containers_of c
               (ExtendedContainer.mk (XY.mk i j) (ExtendedContainer.children k)
                  (ExtendedContainer.destroyed k)))
         end
     end) s = Ok tt s'
    /\ same_objects s s'
    /\ cell_indexed s' i j
    /\ (forall i' j', (i', j') <> (i, j) -> cell_indexed s i' j' -> cell_indexed s' i' j').
Proof.
  intros Hrect [Hnd Hall] Hi Hj.
  destruct (grid_rect_cell _ i j Hrect Hi Hj) as (row & c & Hrow & Hc).
  rewrite (bind_Ok _ _ _ _ _ (gridAt_ok i j row s Hrow)), Hc.
  rewrite Forall_forall in Hall.
  destruct (Hall c (lookupZ_concat_elem _ _ _ _ _ Hrow Hc)) as [k Hk].
  rewrite bind_gets, Hk. eexists. split; [reflexivity |]. split_and!.
  - by eapply set_containers_of_same_objects.
  - exists row, c. eexists. simpl. split_and!; [done | done | apply lookup_insert_eq | done].
  - intros i' j' Hne (row' & c' & k' & Hrow' & Hc' & Hk' & Hidx).
    exists row', c', k'. simpl. split_and!; try done.
    rewrite lookup_insert_ne; [done |]. intros <-.
    apply lookupZ_Some_nonneg in Hrow as [? Hrow], Hc as [? Hc].
    apply lookupZ_Some_nonneg in Hrow' as [? Hrow'], Hc' as [? Hc'].
    destruct (NoDup_concat_cell _ _ _ _ _ _ _ _ Hnd Hrow Hc Hrow' Hc') as [Ei Ej].
    apply Hne. f_equal; lia.
Qed.

Lemma same_objects_grid_refs_ok (s s' : RenderState) :
  same_objects s s' -> grid_refs_ok s -> grid_refs_ok s'.
Proof.
  intros (_ & _ & G & _ & H) [Hnd Hall]. unfold grid_refs_ok. rewrite G.
  split; [done |]. eapply Forall_impl; [exact Hall |]. intros c Hc. by apply H.
Qed.

Lemma same_objects_grid_ok (s s' : RenderState) :
  same_objects s s' -> grid_ok s -> grid_ok s'.
Proof.
  intros Ho (W & R & F). unfold grid_ok. split_and!.
  - by eapply same_objects_world_ok.
  - destruct Ho as (_ & _ & G & _). by rewrite G.
  - by eapply same_objects_grid_refs_ok.
Qed.

Lemma lookup_upto (n : Z) (k : nat) (a : Z) :
  upto n !! k = Some a -> a = Z.of_nat k /\ 0 <= a < n.
Proof. unfold upto. rewrite lookup_seqZ. lia. Qed.

Lemma reassignIndex_spec (s : RenderState) :
  grid_ok s ->
  exists s', reassignIndex s = Ok tt s' /\ same_objects s s' /\ indexed_ok s'.
Proof.
  intros (W & R & F). unfold reassignIndex.
  set (I := fun (n : nat) s1 =>
              same_objects s s1
              /\ forall i j, 0 <= i < Z.of_nat n -> 0 <= j < xMaxChunkLength ->
                   cell_indexed s1 i j).
  destruct (for_each_inv_count I (upto yMaxChunkLength)
    (fun i => for_each (upto xMaxChunkLength) (fun j =>
       let* cell := gridAt i j in
       match cell with
       | None => throw "TypeError: cell is undefined"
       | Some c =>
           let* found := gets (fun s => containers s !! c) in
           match found with
           | None => throw "no such container"
           | Some k =>
               modify (set_containers_of c
                 (ExtendedContainer.mk (XY.mk i j) (ExtendedContainer.children k)
                    (ExtendedContainer.destroyed k)))
           end
       end)) 0%nat) with s as (s' & E & (O & Hidx)).
  - intros n i s1 [-> Hi]%lookup_upto [O1 Hdone]. simpl in Hdone.
    set (J := fun (m : nat) s2 =>
                same_objects s s2
                /\ forall i' j', (0 <= i' < Z.of_nat n
                                  \/ (i' = Z.of_nat n /\ 0 <= j' < Z.of_nat m)) ->
                     0 <= j' < xMaxChunkLength -> cell_indexed s2 i' j').
    destruct (for_each_inv_count J (upto xMaxChunkLength)
      (fun j =>
         let* cell := gridAt (Z.of_nat n) j in
         match cell with
         | None => throw "TypeError: cell is undefined"
         | Some c =>
             let* found := gets (fun s => containers s !! c) in
             match found with
             | None => throw "no such container"
             | Some k =>
                 modify (set_containers_of c
                   (ExtendedContainer.mk (XY.mk (Z.of_nat n) j) (ExtendedContainer.children k)
                      (ExtendedContainer.destroyed k)))
             end
         end) 0%nat) with s1 as (s2 & E2 & (O2 & Hdone2)).
    + intros m j s2 [-> Hj]%lookup_upto [O2 Hdone2]. simpl in Hdone2.
      destruct (reindex_cell_spec s2 (Z.of_nat n) (Z.of_nat m)) as (s3 & E3 & O3 & Hc3 & Hk3);
        try done.
      { destruct O2 as (_ & _ & G & _). by rewrite G. }
      { by eapply same_objects_grid_refs_ok. }
      exists s3. split; [exact E3 |]. split; [by eapply same_objects_trans |].
      intros i' j' Hij Hj'. simpl in Hij.
      destruct (decide ((i', j') = (Z.of_nat n, Z.of_nat m))) as [[= -> ->] | Hne];
        [done |].
      apply Hk3; [done |]. apply Hdone2; [| done].
      destruct Hij as [Hij | [-> Hij]]; [by left | right].
      split; [done |]. assert (j' <> Z.of_nat m) by congruence. lia.
    + split; [done |]. intros i' j' [Hi' | [_ Hj']] Hx; [by apply Hdone | simpl in Hj'; lia].
    + exists s2. split; [exact E2 |]. split; [done |].
      intros i' j' Hi' Hj'. simpl in Hi'. apply Hdone2; [| done].
      rewrite length_upto.
      destruct (decide (i' = Z.of_nat n)) as [-> | Hne]; [right | left]; lia.
  - split; [apply same_objects_refl |]. intros i j Hi. simpl in Hi. lia.
  - exists s'. split; [exact E |]. split; [done |].
    intros i j Hi Hj. simpl in Hidx. rewrite length_upto in Hidx.
    destruct (Hidx i j) as (row & c & k & ?); [lia | done |].
    by exists row, c, k.
Qed.

(** ** The ticker callback *)

Lemma willOutOfScreen_ok (answer : bool) (s : RenderState) :
  1 <= xMaxChunkLength -> 1 <= yMaxChunkLength -> grid_rect (rengerGrid s) ->
  willOutOfScreen answer s = Ok answer s.
Proof.
  intros Hx Hy [Hlen Hrows]. unfold willOutOfScreen.
  rewrite (bind_Ok _ _ _ _ _
             (readCell_rect _ 0 0 s eq_refl Hrows ltac:(lia) ltac:(lia))).
  unfold gridLength. rewrite bind_gets.
  destruct (grid_rect_lookup (rengerGrid s) 0 (conj Hlen Hrows)) as (row0 & Hrow0 & Hlen0);
    [lia |].
  rewrite (bind_Ok _ _ _ _ _ (rowAt_ok 0 _ s Hrow0)).
  rewrite (bind_Ok _ _ _ _ _
             (readCell_rect _ (Z.of_nat (length (rengerGrid s)) - 1)
                (Z.of_nat (length row0) - 1) s eq_refl Hrows ltac:(lia) ltac:(lia))).
  rewrite (bind_Ok _ _ _ _ _
             (readCell_rect _ (Z.of_nat (length (rengerGrid s)) - 1) 0 s eq_refl Hrows
                ltac:(lia) ltac:(lia))).
  reflexivity.
Qed.

Lemma maybe_shift_spec (fire : bool) (op : Shift) (s : RenderState) :
  1 <= xMaxChunkLength -> 2 <= yMaxChunkLength -> grid_ok s ->
  exists s', (if fire then shift op else ret tt) s = Ok tt s' /\ shifted s s'.
Proof.
  intros Hx Hy Hs. destruct fire.
  - by apply shift_spec.
  - exists s. split; [reflexivity |]. by apply shifted_refl.
Qed.

Lemma tick_spec (top bottom right left : bool) (s : RenderState) :
  1 <= xMaxChunkLength -> 2 <= yMaxChunkLength -> grid_ok s ->
  exists s', tick top bottom right left s = Ok tt s'
             /\ shifted s s' /\ indexed_ok s'.
Proof.
  intros Hx Hy Hs. unfold tick.
  rewrite (bind_Ok _ _ _ _ _ (willOutOfScreen_ok top s Hx ltac:(lia)
             ltac:(by destruct Hs as (_ & ? & _)))).
  destruct (maybe_shift_spec top ShiftTop s Hx Hy Hs) as (s1 & E1 & H1).
  rewrite (bind_Ok _ _ _ _ _ E1). pose proof H1 as (G1 & _).
  rewrite (bind_Ok _ _ _ _ _ (willOutOfScreen_ok bottom s1 Hx ltac:(lia)
             ltac:(by destruct G1 as (_ & ? & _)))).
  destruct (maybe_shift_spec bottom ShiftBottom s1 Hx Hy G1) as (s2 & E2 & H2).
  rewrite (bind_Ok _ _ _ _ _ E2). pose proof H2 as (G2 & _).
  rewrite (bind_Ok _ _ _ _ _ (willOutOfScreen_ok right s2 Hx ltac:(lia)
             ltac:(by destruct G2 as (_ & ? & _)))).
  destruct (maybe_shift_spec right ShiftRight s2 Hx Hy G2) as (s3 & E3 & H3).
  rewrite (bind_Ok _ _ _ _ _ E3). pose proof H3 as (G3 & _).
  rewrite (bind_Ok _ _ _ _ _ (willOutOfScreen_ok left s3 Hx ltac:(lia)
             ltac:(by destruct G3 as (_ & ? & _)))).
  destruct (maybe_shift_spec left ShiftLeft s3 Hx Hy G3) as (s4 & E4 & H4).
  rewrite (bind_Ok _ _ _ _ _ E4). pose proof H4 as (G4 & _).
  destruct (reassignIndex_spec s4 G4) as (s5 & E5 & O5 & I5).
  exists s5. split; [exact E5 |]. split; [| done].
  assert (H5 : shifted s4 s5).
  { destruct O5 as (D & C & G & N & H). unfold shifted. split_and!.
    - eapply same_objects_grid_ok; [| exact G4]. by unfold same_objects.
    - rewrite D. apply same_blocks_refl.
    - done. }
  eauto using shifted_trans.
Qed.

(** ** What an operation leaves alone, thrown or not *)

Lemma preserves_ret {A : Type} (P : RenderState -> Prop) (a : A) : preserves P (ret a).
Proof. by intros s Hs. Qed.

Lemma preserves_throw {A : Type} (P : RenderState -> Prop) (msg : string) :
  preserves P (throw (A := A) msg).
Proof. by intros s Hs. Qed.

Lemma preserves_gets {A : Type} (P : RenderState -> Prop) (f : RenderState -> A) :
  preserves P (gets f).
Proof. by intros s Hs. Qed.

Lemma preserves_modify (P : RenderState -> Prop) (f : RenderState -> RenderState) :
  (forall s, P s -> P (f s)) -> preserves P (modify f).
Proof. intros Hf s Hs. by apply Hf. Qed.

Lemma preserves_bind {A B : Type} (P : RenderState -> Prop) (m : M A) (k : A -> M B) :
  preserves P m -> (forall a, preserves P (k a)) -> preserves P (bind m k).
Proof.
  intros Hm Hk s Hs. unfold bind. specialize (Hm s Hs).
  destruct (m s) as [a s1 | msg s1]; simpl in *; [by apply Hk | done].
Qed.

Lemma preserves_for_each {A : Type} (P : RenderState -> Prop) (l : list A)
    (body : A -> M unit) :
  (forall a, preserves P (body a)) -> preserves P (for_each l body).
Proof.
  intros Hbody. induction l as [| a l IH]; simpl.
  - apply preserves_ret.
  - apply preserves_bind; [apply Hbody | intros _; exact IH].
Qed.

Lemma preserves_for_collect {A B : Type} (P : RenderState -> Prop) (l : list A)
    (body : A -> M B) :
  (forall a, preserves P (body a)) -> preserves P (for_collect l body).
Proof.
  intros Hbody. induction l as [| a l IH]; simpl.
  - apply preserves_ret.
  - apply preserves_bind; [apply Hbody | intros b].
    apply preserves_bind; [exact IH | intros bs; apply preserves_ret].
Qed.

Ltac preserves_step :=
  first
    [ apply preserves_ret
    | apply preserves_throw
    | apply preserves_gets
    | apply preserves_bind; [| intros ?]
    | apply preserves_for_each; intros ?
    | apply preserves_for_collect; intros ?
    | apply preserves_modify; intros ? ?; assumption ].

Ltac preserves_cases :=
  match goal with
  | |- preserves _ (match ?x with _ => _ end) => destruct x
  | |- preserves _ (if ?b then _ else _) => destruct b
  end.

Ltac preserves_auto := repeat first [preserves_step | preserves_cases].

(** *** Operations that only read the world *)

Section ReadOnly.

Variable Q : Dimension -> Prop.
Hypothesis Q_read : read_stable Q.

Lemma Dimension_getBlock_reads (p : BlockPos.t) (d : Dimension) :
  Q d -> Q (Dimension_getBlock p d).1.
Proof. intros Hd. rewrite Dimension_getBlock_fst. by apply Q_read. Qed.

Lemma getBlockArray_reads (ctr : XY.t) : preserves (of_world Q) (getBlockArray ctr).
Proof.
  intros s Hs. unfold getBlockArray.
  unfold Dimension_getBlockArray.
  match goal with
  | |- context [mapS ?f ?l (dimension s)] =>
      assert (Hd : Q (mapS f l (dimension s)).1);
      [| by destruct (mapS f l (dimension s))]
  end.
  apply (mapS_inv Q (fun _ => True)); [| done].
  intros x d1 _ Hd1. split; [| done].
  apply (mapS_inv Q (fun _ => True)); [| done].
  intros y d2 _ Hd2. split; [| done].
  apply (mapS_inv Q (fun _ => True)); [| done].
  intros z d3 _ Hd3. split; [| done].
  by apply Dimension_getBlock_reads.
Qed.

Lemma getTexture_reads (color : JS.value) : preserves (of_world Q) (getTexture color).
Proof. unfold getTexture. preserves_auto. Qed.

Lemma addChild_reads (c : option nat) (sprite : ExtendedSprite.t) :
  preserves (of_world Q) (addChild c sprite).
Proof. unfold addChild. preserves_auto. Qed.

Lemma fresh_reads : preserves (of_world Q) fresh.
Proof. by intros s Hs. Qed.

Lemma renderBlock_reads (color : JS.value) (pos : RenderBlockPos.t)
    (c : option nat) (chunkCenter : XY.t) :
  preserves (of_world Q) (renderBlock color pos c chunkCenter).
Proof.
  unfold renderBlock.
  apply preserves_bind; [apply getTexture_reads | intros texture].
  apply preserves_bind; [apply fresh_reads | intros i].
  apply addChild_reads.
Qed.

Lemma buildTile_reads (ctr : XY.t) : preserves (of_world Q) (buildTile ctr).
Proof.
  unfold buildTile.
  apply preserves_bind; [apply getBlockArray_reads | intros array].
  unfold renderRChunk, newContainer, traverse3DArray.
  apply preserves_bind.
  { apply preserves_bind; [apply fresh_reads | intros c]. preserves_auto. }
  intros c. apply preserves_bind; [| intros _; apply preserves_ret].
  apply preserves_for_each. intros xp.
  apply preserves_for_each. intros yc.
  apply preserves_for_each. intros zv.
  destruct zv.2 as [[type | type] |]; [| apply preserves_ret | apply preserves_throw].
  apply preserves_bind; [apply preserves_gets | intros color].
  apply renderBlock_reads.
Qed.

Lemma destroy_reads (c : nat) : preserves (of_world Q) (destroy c).
Proof. unfold destroy. preserves_auto. Qed.

Lemma gridAt_reads (i j : Z) : preserves (of_world Q) (gridAt i j).
Proof. unfold gridAt. preserves_auto. Qed.

Lemma readCell_reads (i j : Z) : preserves (of_world Q) (readCell i j).
Proof.
  unfold readCell. apply preserves_bind; [apply gridAt_reads | intros cell].
  preserves_auto.
Qed.

Lemma rowAt_reads (i : Z) : preserves (of_world Q) (rowAt i).
Proof. unfold rowAt. preserves_auto. Qed.

Lemma updateRow_reads (y : Z) (f : list nat -> list nat) :
  preserves (of_world Q) (updateRow y f).
Proof. unfold updateRow. preserves_auto. Qed.

Lemma shift_reads (op : Shift) : preserves (of_world Q) (shift op).
Proof.
  destruct op; simpl;
    unfold addTopRow, addBottomRow, addRightColumn, addLeftColumn, gridLength;
    repeat first
      [ apply buildTile_reads
      | apply destroy_reads
      | apply readCell_reads
      | apply rowAt_reads
      | apply updateRow_reads
      | preserves_step
      | preserves_cases ].
Qed.

Lemma run_shifts_reads (ops : list Shift) : preserves (of_world Q) (run_shifts ops).
Proof. unfold run_shifts. apply preserves_for_each. intros op. apply shift_reads. Qed.

End ReadOnly.

Lemma same_blocks_read_stable (d : Dimension) : read_stable (same_blocks d).
Proof.
  intros coord d' Hd p. rewrite <- (Hd p), !peek_chunk_of.
  by rewrite chunk_of_getChunkFromChunkPos.
Qed.

Lemma chunks_kept_read_stable (d : Dimension) : read_stable (chunks_kept d).
Proof.
  intros coord d' Hd. unfold chunks_kept, getChunkFromChunkPos in *.
  destruct (chunks d' !! coord) as [c |] eqn:Hc; simpl; [done |].
  etrans; [exact Hd |]. by apply insert_subseteq.
Qed.

Lemma renderBlock_blocks_as (d : Dimension) (color : JS.value) (pos : RenderBlockPos.t)
    (c : option nat) (chunkCenter : XY.t) :
  preserves (blocks_as d) (renderBlock color pos c chunkCenter).
Proof. apply (renderBlock_reads (same_blocks d)). Qed.

(** C6. No sequence of edge shifts changes the world store: from any state,
    and whether the shifts all return or one of them throws, a read at any
    position gives afterwards what it gave before, and every chunk the store
    held is still there with the blocks it had.  (The store may have
    materialised further chunks on the way; it has written none.) *)
Theorem shifts_leave_blocks (ops : list Shift) (s : RenderState) :
  (forall p : BlockPos.t,
      peek (dimension (final_state (run_shifts ops s))) p = peek (dimension s) p)
  /\ chunks_kept (dimension s) (dimension (final_state (run_shifts ops s))).
Proof.
  split.
  - intros p.
    apply (run_shifts_reads _ (same_blocks_read_stable (dimension s)) ops s).
    apply same_blocks_refl.
  - apply (run_shifts_reads _ (chunks_kept_read_stable (dimension s)) ops s).
    unfold of_world, chunks_kept. reflexivity.
Qed.

(** ** The pointer handler *)

Lemma getBlock_run (p : BlockPos.t) (s : RenderState) :
  getBlock p s
  = Ok (peek (dimension s) p) (set_dimension (Dimension_getBlock p (dimension s)).1 s).
Proof.
  unfold getBlock, peek. by destruct (Dimension_getBlock p (dimension s)).
Qed.

Lemma getChunkFromChunkPos_twice (coord : Z * Z) (d : Dimension) :
  getChunkFromChunkPos coord (getChunkFromChunkPos coord d).1
  = getChunkFromChunkPos coord d.
Proof.
  unfold getChunkFromChunkPos at 2 3.
  destruct (chunks d !! coord) as [c |] eqn:Hc; simpl.
  - unfold getChunkFromChunkPos. by rewrite Hc.
  - unfold getChunkFromChunkPos. simpl. by rewrite lookup_insert_eq.
Qed.

(** Writing where a read has just materialised the chunk is writing. *)
Lemma Dimension_setBlock_after_getBlock (p : BlockPos.t) (b : Block) (d : Dimension) :
  Dimension_setBlock p b (Dimension_getBlock p d).1 = Dimension_setBlock p b d.
Proof.
  rewrite Dimension_getBlock_fst. unfold Dimension_setBlock.
  by rewrite getChunkFromChunkPos_twice.
Qed.

(** Inside the height range a write is read back. *)
Lemma peek_setBlock_eq (p : BlockPos.t) (b : Block) (d : Dimension) :
  wf_dimension d -> 0 <= BlockPos.z p < Chunk_HEIGHT ->
  peek (Dimension_setBlock p b d) p = Some b.
Proof.
  intros Hwf Hz. rewrite peek_chunk_of, chunk_of_setBlock, decide_True by done.
  pose proof (wf_dimension_chunk_of d (chunkPosOf p) Hwf) as [Hlen Hall].
  assert (Hx : 0 <= BlockPos.x p `mod` 8 < 8) by (apply Z.mod_pos_bound; lia).
  assert (Hy : 0 <= BlockPos.y p `mod` 8 < 8) by (apply Z.mod_pos_bound; lia).
  unfold chunk_set, chunk_get. rewrite bool_decide_eq_true_2 by lia.
  rewrite !lookupZ_nonneg by lia. rewrite list_lookup_alter_eq.
  destruct (lookup_lt_is_Some_2 (chunk_of d (chunkPosOf p)) (Z.to_nat (BlockPos.x p `mod` 8)))
    as [plane Hplane]; [lia |].
  rewrite Hplane. simpl. rewrite lookupZ_nonneg, list_lookup_alter_eq by lia.
  rewrite Forall_forall in Hall.
  destruct (Hall plane) as [Hlen' Hall']; [by eapply list_elem_of_lookup_2 |].
  destruct (lookup_lt_is_Some_2 plane (Z.to_nat (BlockPos.y p `mod` 8)))
    as [column Hcolumn]; [lia |].
  rewrite Hcolumn. simpl. rewrite Forall_forall in Hall'.
  rewrite lookupZ_nonneg by lia. apply list_lookup_insert_eq.
  rewrite (Hall' column); [lia |]. by eapply list_elem_of_lookup_2.
Qed.

Lemma gridAt_cellAt (i j : Z) (t : nat) (s : RenderState) :
  cellAt s i j = Some t -> gridAt i j s = Ok (Some t) s.
Proof.
  unfold cellAt. destruct (lookupZ (rengerGrid s) i) as [row |] eqn:Hrow; [| done].
  simpl. intros Ht. rewrite (gridAt_ok i j row s Hrow). by rewrite Ht.
Qed.

Lemma setBlock_run (p : BlockPos.t) (b : Block) (s : RenderState) :
  setBlock p b s = Ok tt (set_dimension (Dimension_setBlock p b (dimension s)) s).
Proof. reflexivity. Qed.

(** ** The pointer handler, outcome by outcome *)


(** The unlatched left click: the sprite leaves its container, air is written. *)
Lemma sprite_placed_set_dimension (color : JS.value) (pos : RenderBlockPos.t) (c : nat)
    (k : ExtendedContainer.t) (chunkCenter : XY.t) (d : Dimension) (s : RenderState) :
  sprite_placed color pos c k chunkCenter (set_dimension d s)
  = set_dimension d (sprite_placed color pos c k chunkCenter s).
Proof.
  unfold sprite_placed, texture_cached, texture_of, cachedTexture. simpl.
  case_bool_decide; [done |].
  by destruct (JSObject.inherited (JS.ToString color)).
Qed.

Lemma setBlock_sprite_placed (p : BlockPos.t) (b : Block) (color : JS.value)
    (pos : RenderBlockPos.t) (c : nat) (k : ExtendedContainer.t) (chunkCenter : XY.t)
    (s : RenderState) :
  setBlock p b (sprite_placed color pos c k chunkCenter s)
  = Ok tt (set_dimension (Dimension_setBlock p b (dimension s))
             (sprite_placed color pos c k chunkCenter s)).
Proof.
  rewrite setBlock_run. do 3 f_equal. unfold sprite_placed. simpl.
  apply texture_cached_fields.
Qed.

Lemma break_run (s : RenderState) (c : nat) (k : ExtendedContainer.t)
    (sprite : ExtendedSprite.t) :
  isActive (keyState s) = false -> containers s !! c = Some k ->
  pointerdown 0 c sprite s
  = Ok tt (set_dimension
             (Dimension_setBlock (absolutePos sprite) (Empty "air") (dimension s))
             (set_containers_of c (without_child k sprite) s)).
Proof.
  intros Hks Hk. unfold pointerdown. change (negb (0 =? 0)) with false. cbv iota.
  rewrite bind_gets, Hk. rewrite !bind_gets, Hks. cbv iota.
  unfold removeChild. rewrite bind_assoc, bind_gets, Hk.
  reflexivity.
Qed.

(** The latched left click that goes through: one sprite more in the target
    container, the selected block written at the neighbour. *)
Lemma place_run (s : RenderState) (c tgt : nat) (k kt : ExtendedContainer.t)
    (sprite : ExtendedSprite.t) (d : Z) (pos' : RenderBlockPos.t) :
  1 <= d <= 6 ->
  keyState s = Facing d ->
  containers s !! c = Some k ->
  color_usable (selectedColor s) s ->
  vertical_guard s sprite d = true ->
  place_target s k c (ExtendedSprite.pos sprite) d = Some (tgt, pos') ->
  containers s !! tgt = Some kt ->
  pointerdown 0 c sprite s
  = Ok tt (set_dimension
             (Dimension_setBlock (neighbor d (absolutePos sprite))
                (Material (selectedBlockType s)) (dimension s))
             (sprite_placed (selectedColor s) pos' tgt kt
                (ExtendedSprite.containerCenter sprite) s)).
Proof.
  intros Hd Hks Hk Hcol Hguard Htarget Hkt.
  unfold pointerdown. change (negb (0 =? 0)) with false. cbv iota.
  rewrite bind_gets, Hk. rewrite !bind_gets, Hks.
  change (isActive (Facing d)) with true. change (lastKey (Facing d)) with (Some d).
  cbv iota.
  unfold place_target in Htarget. unfold vertical_guard in Hguard.
  assert (Hcases : d = 1 \/ d = 2 \/ d = 3 \/ d = 4 \/ d = 5 \/ d = 6) by lia.
  destruct Hcases as [-> | [-> | [-> | [-> | [-> | ->]]]]]; cbv iota in Htarget |- *.
  - destruct (_ <? _).
    + injection Htarget as <- <-. rewrite Hk in Hkt. injection Hkt as <-.
      rewrite (bind_Ok _ _ _ _ _ (renderBlock_ok _ _ _ k _ s Hcol Hk)).
      apply setBlock_sprite_placed.
    + destruct (cellAt s _ _) as [t |] eqn:Hcell; [| done].
      injection Htarget as <- <-.
      rewrite bind_assoc, (bind_Ok _ _ _ _ _ (gridAt_cellAt _ _ t s Hcell)).
      rewrite (bind_Ok _ _ _ _ _ (renderBlock_ok _ _ _ kt _ s Hcol Hkt)).
      apply setBlock_sprite_placed.
  - rewrite (bind_Ok _ _ _ _ _ (setBlock_run _ _ s)).
    destruct (0 <=? _).
    + injection Htarget as <- <-. rewrite Hk in Hkt. injection Hkt as <-.
      rewrite (renderBlock_ok _ _ _ k _ (set_dimension _ s) Hcol Hk).
      by rewrite sprite_placed_set_dimension.
    + destruct (cellAt s _ _) as [t |] eqn:Hcell; [| done].
      injection Htarget as <- <-.
      rewrite (bind_Ok _ _ _ _ _ (gridAt_cellAt _ _ t (set_dimension _ s) Hcell)).
      rewrite (renderBlock_ok _ _ _ kt _ (set_dimension _ s) Hcol Hkt).
      by rewrite sprite_placed_set_dimension.
  - destruct (0 <=? _).
    + injection Htarget as <- <-. rewrite Hk in Hkt. injection Hkt as <-.
      rewrite (bind_Ok _ _ _ _ _ (renderBlock_ok _ _ _ k _ s Hcol Hk)).
      apply setBlock_sprite_placed.
    + destruct (cellAt s _ _) as [t |] eqn:Hcell; [| done].
      injection Htarget as <- <-.
      rewrite bind_assoc, (bind_Ok _ _ _ _ _ (gridAt_cellAt _ _ t s Hcell)).
      rewrite (bind_Ok _ _ _ _ _ (renderBlock_ok _ _ _ kt _ s Hcol Hkt)).
      apply setBlock_sprite_placed.
  - destruct (_ <? _).
    + injection Htarget as <- <-. rewrite Hk in Hkt. injection Hkt as <-.
      rewrite (bind_Ok _ _ _ _ _ (renderBlock_ok _ _ _ k _ s Hcol Hk)).
      apply setBlock_sprite_placed.
    + destruct (cellAt s _ _) as [t |] eqn:Hcell; [| done].
      injection Htarget as <- <-.
      rewrite bind_assoc, (bind_Ok _ _ _ _ _ (gridAt_cellAt _ _ t s Hcell)).
      rewrite (bind_Ok _ _ _ _ _ (renderBlock_ok _ _ _ kt _ s Hcol Hkt)).
      apply setBlock_sprite_placed.
  - injection Htarget as <- <-. rewrite Hk in Hkt. injection Hkt as <-.
    rewrite bool_decide_eq_true_2 by done.
    rewrite bind_assoc, (bind_Ok _ _ _ _ _ (getBlock_run _ s)), bind_ret.
    set (g := instanceof_EmptyBlock _ && _).
    assert (Hg : g = true) by exact Hguard. rewrite Hg.
    rewrite (bind_Ok _ _ _ _ _ (renderBlock_ok _ _ _ k _ (set_dimension _ s) Hcol Hk)).
    rewrite setBlock_sprite_placed, sprite_placed_set_dimension. simpl.
    by rewrite Dimension_setBlock_after_getBlock.
  - injection Htarget as <- <-. rewrite Hk in Hkt. injection Hkt as <-.
    rewrite bool_decide_eq_false_2 by done. rewrite bind_ret.
    rewrite bool_decide_eq_true_2 by done.
    rewrite bind_assoc, (bind_Ok _ _ _ _ _ (getBlock_run _ s)), bind_ret.
    set (g := instanceof_EmptyBlock _ && _).
    assert (Hg : g = true) by exact Hguard. rewrite Hg.
    rewrite (bind_Ok _ _ _ _ _ (renderBlock_ok _ _ _ k _ (set_dimension _ s) Hcol Hk)).
    rewrite setBlock_sprite_placed, sprite_placed_set_dimension. simpl.
    by rewrite Dimension_setBlock_after_getBlock.
Qed.

(** C3 (as the code has it).  A left-button pointer-down on a sprite while
    the digit d in 1..6 is latched, when the selected colour is one
    [getTexture] accepts, the vertical condition holds for d = 5 or 6, and the
    container the node goes to exists, returns with a block of the selected
    type written at the neighbour of the clicked block in direction d, and
    with one new sprite in that container: the sprite's own container while
    the neighbour stays inside the tile's box, otherwise the one next to it in
    the grid, found from the stored index. *)
Theorem pointer_place (s : RenderState) (c tgt : nat) (k kt : ExtendedContainer.t)
    (sprite : ExtendedSprite.t) (d : Z) (pos' : RenderBlockPos.t) :
  1 <= d <= 6 ->
  keyState s = Facing d ->
  containers s !! c = Some k ->
  color_usable (selectedColor s) s ->
  vertical_guard s sprite d = true ->
  place_target s k c (ExtendedSprite.pos sprite) d = Some (tgt, pos') ->
  containers s !! tgt = Some kt ->
  exists s',
    pointerdown 0 c sprite s = Ok tt s'
    /\ dimension s'
       = Dimension_setBlock (neighbor d (absolutePos sprite))
           (Material (selectedBlockType s)) (dimension s)
    /\ containers s'
       = <[tgt := with_child kt
                    (ExtendedSprite.mk (nextId s) (texture_of (selectedColor s) s) pos'
                       (ExtendedSprite.containerCenter sprite) (drawKey pos'))]>
           (containers s).
Proof.
  intros Hd Hks Hk Hcol Hguard Htarget Hkt.
  eexists. split; [by apply (place_run s c tgt k kt) |].
  destruct (texture_cached_fields (selectedColor s) s)
    as (D & M & I & S & K & C & G & X & Y & N).
  simpl. split; [reflexivity |]. by rewrite C.
Qed.

(** C9. With 5 (up) or 6 (down) latched, a pointer-down whose vertical
    condition fails (the target is not an empty block, or it is not below the
    top for up, not above height 0 for down) changes neither the scene nor any
    answer of the world store, and returns normally when it is a left click on
    an existing container.  With 6 latched no pointer-down, however it ends,
    changes what the store answers at height 0. *)
Theorem vertical_place_guarded (s : RenderState) (button : Z) (c : nat)
    (sprite : ExtendedSprite.t) (d : Z) :
  keyState s = Facing d -> d = 5 \/ d = 6 ->
  (vertical_guard s sprite d = false ->
     containers (final_state (pointerdown button c sprite s)) = containers s
     /\ textures (final_state (pointerdown button c sprite s)) = textures s
     /\ nextId (final_state (pointerdown button c sprite s)) = nextId s
     /\ (forall p, peek (dimension (final_state (pointerdown button c sprite s))) p
                   = peek (dimension s) p)
     /\ (button = 0 -> is_Some (containers s !! c) ->
         exists s', pointerdown button c sprite s = Ok tt s'))
  /\ (d = 6 ->
      forall p, BlockPos.z p = 0 ->
        peek (dimension (final_state (pointerdown button c sprite s))) p
        = peek (dimension s) p).
Proof.
  intros Hks Hd. unfold pointerdown.
  destruct (button =? 0) eqn:Hb; cbn [negb].
  2:{ split; [| done]. intros _. split_and!; try done.
      intros E. apply Z.eqb_neq in Hb. done. }
  rewrite bind_gets. destruct (containers s !! c) as [k |] eqn:Hk.
  2:{ split; [| done]. intros _. by split_and!. }
  rewrite !bind_gets, Hks.
  change (isActive (Facing d)) with true. change (lastKey (Facing d)) with (Some d).
  cbv iota. unfold vertical_guard.
  destruct Hd as [-> | ->]; cbv iota.
  - rewrite bool_decide_eq_true_2 by done.
    rewrite bind_assoc, (bind_Ok _ _ _ _ _ (getBlock_run _ s)), bind_ret.
    set (g := instanceof_EmptyBlock _ && _).
    split; [| done]. intros Hg. change (g = false) in Hg. rewrite Hg.
    rewrite bool_decide_eq_false_2 by done. rewrite bind_ret. simpl.
    split_and!; try done.
    + intros p. apply Dimension_getBlock_same_blocks.
    + intros _ _. eauto.
  - rewrite bool_decide_eq_false_2 by done. rewrite bind_ret.
    rewrite bool_decide_eq_true_2 by done.
    rewrite bind_assoc, (bind_Ok _ _ _ _ _ (getBlock_run _ s)), bind_ret.
    set (target := BlockPos.mk _ _ _).
    set (g := instanceof_EmptyBlock _ && _).
    split.
    + intros Hg. change (g = false) in Hg. rewrite Hg. simpl.
      split_and!; try done.
      * intros p. apply Dimension_getBlock_same_blocks.
      * intros _ _. eauto.
    + intros _ p Hp. destruct g eqn:Hg.
      * apply andb_prop in Hg as [_ Hz%Z.ltb_lt].
        set (s1 := set_dimension _ s).
        pose proof (renderBlock_blocks_as (dimension s) (selectedColor s)
                      (RenderBlockPos.mk (RenderBlockPos.x (ExtendedSprite.pos sprite))
                         (RenderBlockPos.y (ExtendedSprite.pos sprite) + 1)
                         (RenderBlockPos.z (ExtendedSprite.pos sprite)))
                      (Some c) (ExtendedSprite.containerCenter sprite) s1
                      (Dimension_getBlock_same_blocks _ _)) as Hr.
        unfold bind at 1.
        destruct (renderBlock _ _ _ _ s1) as [[] s2 | msg s2]; simpl in Hr |- *.
        -- rewrite peek_setBlock_ne; [apply Hr |].
           intros ->. subst target. simpl in Hp, Hz. lia.
        -- apply Hr.
      * simpl. apply Dimension_getBlock_same_blocks.
Qed.

(** ** The grid invariant under events *)

Lemma peek_None_above (d : Dimension) (p : BlockPos.t) :
  wf_dimension d -> Chunk_HEIGHT <= BlockPos.z p -> peek d p = None.
Proof.
  intros Hwf Hz. rewrite peek_chunk_of. unfold chunk_get.
  pose proof (wf_dimension_chunk_of d (chunkPosOf p) Hwf) as [_ Hplanes].
  destruct (lookupZ _ (BlockPos.x p `mod` 8)) as [plane |] eqn:Hx; [simpl | done].
  destruct (lookupZ plane _) as [column |] eqn:Hy; [simpl | done].
  apply lookupZ_elem_of in Hx. apply lookupZ_elem_of in Hy.
  rewrite Forall_forall in Hplanes. destruct (Hplanes _ Hx) as [_ Hcolumns].
  rewrite Forall_forall in Hcolumns. specialize (Hcolumns _ Hy).
  unfold lookupZ. case_bool_decide; [| done].
  apply lookup_ge_None_2. lia.
Qed.

(** After a write, a read answers as before or with the block written. *)
Lemma peek_setBlock_cases (p q : BlockPos.t) (b : Block) (d : Dimension) :
  wf_dimension d ->
  peek (Dimension_setBlock p b d) q = peek d q
  \/ peek (Dimension_setBlock p b d) q = Some b.
Proof.
  intros Hwf. destruct (decide (q = p)) as [-> | Hne].
  - destruct (decide (0 <= BlockPos.z p < Chunk_HEIGHT)) as [Hz | Hz].
    + right. by apply peek_setBlock_eq.
    + left. destruct (decide (BlockPos.z p < 0)).
      * by rewrite !peek_None_below.
      * rewrite !peek_None_above; [done | done | lia | | lia].
        by apply wf_Dimension_setBlock.
  - left. by apply peek_setBlock_ne.
Qed.

Lemma getBlock_grid_ok (p : BlockPos.t) : preserves grid_ok (getBlock p).
Proof.
  intros s ((Hwf & Hpal & Hheap) & R & F). rewrite getBlock_run. simpl.
  unfold grid_ok, world_ok. split_and!; try done.
  - by apply wf_Dimension_getBlock.
  - apply (palette_ok_same s); [| by unfold same_config | done].
    simpl. apply Dimension_getBlock_same_blocks.
Qed.

(** A write keeps the invariant when the block is one the palette can
    paint. *)
Lemma setBlock_grid_ok (p : BlockPos.t) (b : Block) (s : RenderState) :
  (forall type, b = Material type -> type_ok (colorMapper s) type) ->
  grid_ok s -> grid_ok (final_state (setBlock p b s)).
Proof.
  intros Hb ((Hwf & (Hcol & Hworld & Hsel) & Hheap) & R & F). rewrite setBlock_run. simpl.
  unfold grid_ok, world_ok, palette_ok. split_and!; try done.
  - by apply wf_Dimension_setBlock.
  - simpl. intros q type Hq.
    destruct (peek_setBlock_cases p q b (dimension s) Hwf) as [E | E];
      rewrite E in Hq.
    + by eapply Hworld.
    + injection Hq as ->. by apply Hb.
Qed.

Lemma getTexture_grid_ok (color : JS.value) : preserves grid_ok (getTexture color).
Proof. unfold getTexture. preserves_auto. Qed.

Lemma fresh_grid_ok : preserves grid_ok fresh.
Proof.
  intros s ((Hwf & Hcol & Hheap) & R & F). simpl.
  unfold grid_ok, world_ok. split_and!; try done.
  intros c Hc. simpl. apply Hheap in Hc. lia.
Qed.

Lemma addChild_grid_ok (c : option nat) (sprite : ExtendedSprite.t) :
  preserves grid_ok (addChild c sprite).
Proof.
  intros s Hs. unfold addChild. destruct c as [c |]; [| done].
  rewrite bind_gets. destruct (containers s !! c) as [k |] eqn:Hk; [| done].
  simpl. eapply same_objects_grid_ok; [| done].
  by eapply set_containers_of_same_objects.
Qed.

Lemma removeChild_grid_ok (c : nat) (sprite : ExtendedSprite.t) :
  preserves grid_ok (removeChild c sprite).
Proof.
  intros s Hs. unfold removeChild.
  rewrite bind_gets. destruct (containers s !! c) as [k |] eqn:Hk; [| done].
  simpl. eapply same_objects_grid_ok; [| done].
  by eapply set_containers_of_same_objects.
Qed.

Lemma renderBlock_grid_ok (color : JS.value) (pos : RenderBlockPos.t) (c : option nat)
    (chunkCenter : XY.t) :
  preserves grid_ok (renderBlock color pos c chunkCenter).
Proof.
  unfold renderBlock.
  apply preserves_bind; [apply getTexture_grid_ok | intros texture].
  apply preserves_bind; [apply fresh_grid_ok | intros i].
  apply addChild_grid_ok.
Qed.

Lemma gridAt_grid_ok (i j : Z) : preserves grid_ok (gridAt i j).
Proof. unfold gridAt. preserves_auto. Qed.

(** The invariant while a handler runs with the type [selected] selected. *)
Definition editing (selected : string) (s : RenderState) : Prop :=
  grid_ok s /\ selectedBlockType s = selected.

Lemma editing_intro {A : Type} (selected : string) (m : M A) :
  preserves grid_ok m -> preserves (fun s => selectedBlockType s = selected) m ->
  preserves (editing selected) m.
Proof.
  intros Hg Hs s [G S]. specialize (Hg s G). specialize (Hs s S). by split.
Qed.

Lemma getBlock_selected (selected : string) (p : BlockPos.t) :
  preserves (fun s => selectedBlockType s = selected) (getBlock p).
Proof. intros s Hs. by rewrite getBlock_run. Qed.

Lemma fresh_selected (selected : string) :
  preserves (fun s => selectedBlockType s = selected) fresh.
Proof. by intros s Hs. Qed.

Lemma renderBlock_selected (selected : string) (color : JS.value)
    (pos : RenderBlockPos.t) (c : option nat) (chunkCenter : XY.t) :
  preserves (fun s => selectedBlockType s = selected)
    (renderBlock color pos c chunkCenter).
Proof.
  unfold renderBlock, getTexture, addChild.
  repeat first [apply fresh_selected | preserves_step | preserves_cases].
Qed.

Lemma setBlock_editing (selected : string) (p : BlockPos.t) (b : Block) :
  (forall type, b = Material type -> type = selected) ->
  preserves (editing selected) (setBlock p b).
Proof.
  intros Hb s [G S]. split; [| done].
  apply setBlock_grid_ok; [| done].
  intros type ->%Hb. rewrite <- S. by destruct G as ((_ & (_ & _ & Hsel) & _) & _).
Qed.

Lemma pointerdown_grid_ok (button : Z) (c : nat) (sprite : ExtendedSprite.t) :
  preserves grid_ok (pointerdown button c sprite).
Proof.
  intros s Hs. unfold pointerdown.
  destruct (negb (button =? 0)); [done |].
  rewrite bind_gets. destruct (containers s !! c) as [k |]; [| done].
  rewrite !bind_gets.
  assert (HP : editing (selectedBlockType s) s) by done.
  set (selected := selectedBlockType s) in *.
  set (color := selectedColor s). set (ks := keyState s).
  clearbody selected color ks.
  match goal with
  | |- grid_ok (final_state (?m s)) =>
      assert (Hm : preserves (editing selected) m); [| by destruct (Hm s HP)]
  end.
  repeat first
    [ apply setBlock_editing; by intros type [= ->]
    | apply setBlock_editing; by intros type [=]
    | apply editing_intro; [apply renderBlock_grid_ok | apply renderBlock_selected]
    | apply editing_intro; [apply getBlock_grid_ok | apply getBlock_selected]
    | apply editing_intro; [apply gridAt_grid_ok | unfold gridAt; preserves_auto]
    | apply editing_intro; [apply removeChild_grid_ok | unfold removeChild; preserves_auto]
    | preserves_step
    | preserves_cases ].
Qed.

Lemma colors_ok_set (m : gmap string string) (k v : string) :
  colors_ok m -> test_hex_color v = true -> colors_ok (JSObject.set m k v).
Proof.
  intros Hm Hv. unfold JSObject.set.
  destruct (_ && _); [done |]. by apply map_Forall_insert_2.
Qed.

Lemma type_ok_set (m : gmap string string) (k v type : string) :
  type_ok m type -> type_ok (JSObject.set m k v) type.
Proof.
  intros [Hm | Hi]; [left | by right]. unfold JSObject.set.
  destruct (_ && _); [done |]. by apply lookup_insert_is_Some'; right.
Qed.

Lemma addNewBlockType_grid_ok (aiBlockData : list (string * string)) (s : RenderState) :
  forallb safe_entry aiBlockData = true ->
  grid_ok s -> grid_ok (final_state (addNewBlockType aiBlockData s)).
Proof.
  intros Hsafe. revert s. unfold addNewBlockType.
  induction aiBlockData as [| [key v] l IH]; intros s Hs; simpl; [done |].
  simpl in Hsafe. apply andb_prop in Hsafe as [Hv Hl].
  unfold safe_entry in Hv. simpl in Hv.
  destruct (JS.includes "#" v); simpl in *.
  - rewrite bind_modify. apply IH; [done |].
    destruct Hs as ((Hwf & (Hcol & Hworld & Hsel) & Hheap) & R & F).
    unfold grid_ok, world_ok, palette_ok. simpl. split_and!; try done.
    + by apply colors_ok_set.
    + intros p type Hp. apply type_ok_set. by eapply Hworld.
    + by apply type_ok_set.
  - rewrite bind_ret. by apply IH.
Qed.

Lemma handle_grid_ok (e : Event) (s : RenderState) :
  1 <= xMaxChunkLength -> 2 <= yMaxChunkLength ->
  safe_action (ActEvent e) = true ->
  grid_ok s -> grid_ok (final_state (handle e s)).
Proof.
  intros Hx Hy Hsafe Hs.
  destruct e as [t b r l | button c sprite | k | k | type]; simpl.
  - destruct (tick_spec t b r l s Hx Hy Hs) as (s' & E & (G & _) & _).
    by rewrite E.
  - by apply pointerdown_grid_ok.
  - exact Hs.
  - exact Hs.
  - destruct Hs as ((Hwf & (Hcol & Hworld & Hsel) & Hheap) & R & F).
    unfold grid_ok, world_ok, palette_ok. simpl. split_and!; try done.
    right. simpl in Hsafe. by apply negb_true_iff in Hsafe.
Qed.

Lemma after_actions_grid_ok (acts : list Action) (s : RenderState) :
  1 <= xMaxChunkLength -> 2 <= yMaxChunkLength ->
  forallb safe_action acts = true ->
  grid_ok s -> grid_ok (after_actions acts s).
Proof.
  intros Hx Hy. revert s. induction acts as [| a acts IH]; intros s Hsafe Hs; simpl.
  - done.
  - simpl in Hsafe. apply andb_prop in Hsafe as [Ha Hl].
    apply IH; [done |]. destruct a as [ctr | e | data]; simpl.
    + done.
    + by apply handle_grid_ok.
    + by apply addNewBlockType_grid_ok.
Qed.

(** ** The pointer handler, outcome by outcome, continued *)


(** X2. A left click on a sprite while no digit is latched returns.  It takes
    the sprite out of its container, whose other sprites stay in their order,
    and writes air at the block the sprite stands for: the store answers air
    there when the position is inside the height range, and answers
    everywhere else as before.  Grid, palette, selection and latch are
    untouched. *)
Theorem pointer_break (s : RenderState) (c : nat) (k : ExtendedContainer.t)
    (sprite : ExtendedSprite.t) :
  isActive (keyState s) = false ->
  containers s !! c = Some k ->
  exists s',
    pointerdown 0 c sprite s = Ok tt s'
    /\ containers s' = <[c := without_child k sprite]> (containers s)
    /\ (forall p, p <> absolutePos sprite -> peek (dimension s') p = peek (dimension s) p)
    /\ (wf_dimension (dimension s) ->
        0 <= BlockPos.z (absolutePos sprite) < Chunk_HEIGHT ->
        peek (dimension s') (absolutePos sprite) = Some (Empty "air"))
    /\ rengerGrid s' = rengerGrid s
    /\ same_config s s'.
Proof.
  intros Hks Hk. eexists. split; [by apply break_run |]. simpl.
  split_and!.
  - reflexivity.
  - intros p Hp. by apply peek_setBlock_ne.
  - intros Hwf Hz. by apply peek_setBlock_eq.
  - reflexivity.
  - by unfold same_config.
Qed.


Lemma absolutePos_local (sprite : ExtendedSprite.t) :
  absolutePos sprite
  = BlockPos.mk
      (XY.x (ExtendedSprite.containerCenter sprite) - 4
       + BlockPos.x (handler_local_BlockPos (ExtendedSprite.pos sprite)))
      (XY.y (ExtendedSprite.containerCenter sprite) - 4
       + BlockPos.y (handler_local_BlockPos (ExtendedSprite.pos sprite)))
      (BlockPos.z (handler_local_BlockPos (ExtendedSprite.pos sprite))).
Proof. reflexivity. Qed.

Lemma filter_fresh_child (l : list ExtendedSprite.t) (placed : ExtendedSprite.t) :
  Forall (fun sp => (ExtendedSprite.id sp < ExtendedSprite.id placed)%nat) l ->
  filter (fun sp => ExtendedSprite.id sp <> ExtendedSprite.id placed) (l ++ [placed]) = l.
Proof.
  intros Hl. rewrite filter_app, filter_cons_False, filter_nil, app_nil_r by (intros H; by apply H).
  induction Hl as [| sp l Hsp Hl IH]; [done |].
  rewrite filter_cons_True by lia. by rewrite IH.
Qed.

Lemma keyup_run (event_key : string) (s : RenderState) :
  handle (EvKeyUp event_key) s
  = Ok tt (set_input (keyup event_key (keyState s)) (selectedBlockType s) s).
Proof. reflexivity. Qed.

(** X4. Placing and breaking undo each other inside a tile.  When a latched
    left click goes through and the new sprite lands in the clicked sprite's
    own container at the neighbouring local position, the new sprite stands
    for exactly the block that was written; once the digit key is released, a
    left click on the new sprite returns, the store answers air at that block
    and as at the start everywhere else, and the containers are as they were
    before the two clicks. *)
Theorem place_then_break (s : RenderState) (c : nat) (k : ExtendedContainer.t)
    (sprite : ExtendedSprite.t) (d : Z) (pos' : RenderBlockPos.t) (released : string) :
  1 <= d <= 6 ->
  keyState s = Facing d ->
  containers s !! c = Some k ->
  color_usable (selectedColor s) s ->
  vertical_guard s sprite d = true ->
  place_target s k c (ExtendedSprite.pos sprite) d = Some (c, pos') ->
  handler_local_BlockPos pos'
  = neighbor d (handler_local_BlockPos (ExtendedSprite.pos sprite)) ->
  wf_dimension (dimension s) ->
  0 <= BlockPos.z (neighbor d (absolutePos sprite)) < Chunk_HEIGHT ->
  Forall (fun sp => (ExtendedSprite.id sp < nextId s)%nat) (ExtendedContainer.children k) ->
  keyup released (Facing d) = Neutral ->
  exists s1 s2 placed,
    pointerdown 0 c sprite s = Ok tt s1
    /\ containers s1 = <[c := with_child k placed]> (containers s)
    /\ absolutePos placed = neighbor d (absolutePos sprite)
    /\ peek (dimension s1) (neighbor d (absolutePos sprite))
       = Some (Material (selectedBlockType s))
    /\ pointerdown 0 c placed (final_state (handle (EvKeyUp released) s1)) = Ok tt s2
    /\ peek (dimension s2) (neighbor d (absolutePos sprite)) = Some (Empty "air")
    /\ containers s2 = containers s
    /\ (forall p, p <> neighbor d (absolutePos sprite) ->
          peek (dimension s2) p = peek (dimension s) p).
Proof.
  intros Hd Hks Hk Hcol Hguard Htarget Hlocal Hwf Hz Hids Hup.
  set (placed := ExtendedSprite.mk (nextId s) (texture_of (selectedColor s) s) pos'
                   (ExtendedSprite.containerCenter sprite) (drawKey pos')).
  destruct (texture_cached_fields (selectedColor s) s)
    as (Dc & Mc & Ic & Sc & Kc & Cc & Gc & Xc & Yc & Nc).
  assert (Hplaced : absolutePos placed = neighbor d (absolutePos sprite)).
  { rewrite !absolutePos_local. unfold placed. cbn [ExtendedSprite.pos ExtendedSprite.containerCenter].
    rewrite Hlocal.
    assert (Hcases : d = 1 \/ d = 2 \/ d = 3 \/ d = 4 \/ d = 5 \/ d = 6) by lia.
    destruct Hcases as [-> | [-> | [-> | [-> | [-> | ->]]]]]; simpl; f_equal; lia. }
  pose proof (place_run s c c k k sprite d pos' Hd Hks Hk Hcol Hguard Htarget Hk) as E1.
  set (s1 := set_dimension _ _) in E1.
  assert (Hk1 : containers s1 !! c = Some (with_child k placed)).
  { unfold s1, sprite_placed. simpl. by rewrite lookup_insert_eq. }
  set (s1' := final_state (handle (EvKeyUp released) s1)).
  assert (Hks1 : isActive (keyState s1') = false).
  { unfold s1'. rewrite keyup_run. simpl. by rewrite Kc, Hks, Hup. }
  pose proof (break_run s1' c (with_child k placed) placed Hks1 Hk1) as E2.
  exists s1. eexists. exists placed. split_and!.
  - exact E1.
  - simpl. by rewrite Cc.
  - exact Hplaced.
  - unfold s1. simpl. by apply peek_setBlock_eq.
  - exact E2.
  - simpl. rewrite Hplaced. apply peek_setBlock_eq; [| done].
    by apply wf_Dimension_setBlock.
  - simpl. rewrite insert_insert_eq, Cc.
    apply insert_id. rewrite Hk. f_equal. destruct k as [idx ch dst].
    unfold without_child, with_child. simpl. f_equal.
    symmetry. by apply (filter_fresh_child ch placed).
  - intros p Hp. simpl. rewrite Hplaced.
    rewrite peek_setBlock_ne by done. by apply peek_setBlock_ne.
Qed.

(** X5. Placing across a tile edge leaves a sprite that stands for the wrong
    block.  When a latched left click in one of the four horizontal
    directions steps out of the nine-wide box of the clicked tile, the block
    is written at the neighbour as usual, but the new sprite, put into the
    next container of the grid, carries the clicked tile's centre with the
    wrapped local position: it stands for the block eight behind the clicked
    one.  Once the digit key is released, a left click on the new sprite
    leaves the placed block in the store and writes air eight blocks behind
    the clicked block instead. *)
Theorem place_across_edge (s : RenderState) (c tgt : nat) (k kt : ExtendedContainer.t)
    (sprite : ExtendedSprite.t) (d : Z) (pos' : RenderBlockPos.t) (released : string) :
  1 <= d <= 4 ->
  keyState s = Facing d ->
  containers s !! c = Some k ->
  color_usable (selectedColor s) s ->
  0 <= RenderBlockPos.x (ExtendedSprite.pos sprite) <= 8 ->
  0 <= RenderBlockPos.z (ExtendedSprite.pos sprite) <= 8 ->
  place_target s k c (ExtendedSprite.pos sprite) d = Some (tgt, pos') ->
  handler_local_BlockPos pos'
  <> neighbor d (handler_local_BlockPos (ExtendedSprite.pos sprite)) ->
  containers s !! tgt = Some kt ->
  wf_dimension (dimension s) ->
  0 <= BlockPos.z (absolutePos sprite) < Chunk_HEIGHT ->
  keyup released (Facing d) = Neutral ->
  exists s1 s2 placed,
    pointerdown 0 c sprite s = Ok tt s1
    /\ containers s1 = <[tgt := with_child kt placed]> (containers s)
    /\ peek (dimension s1) (neighbor d (absolutePos sprite))
       = Some (Material (selectedBlockType s))
    /\ absolutePos placed = step_by d (-8) (absolutePos sprite)
    /\ pointerdown 0 tgt placed (final_state (handle (EvKeyUp released) s1)) = Ok tt s2
    /\ peek (dimension s2) (neighbor d (absolutePos sprite))
       = Some (Material (selectedBlockType s))
    /\ peek (dimension s2) (step_by d (-8) (absolutePos sprite)) = Some (Empty "air").
Proof.
  intros Hd Hks Hk Hcol Hx Hz Htarget Hout Hkt Hwf Hh Hup.
  set (placed := ExtendedSprite.mk (nextId s) (texture_of (selectedColor s) s) pos'
                   (ExtendedSprite.containerCenter sprite) (drawKey pos')).
  destruct (texture_cached_fields (selectedColor s) s)
    as (Dc & Mc & Ic & Sc & Kc & Cc & Gc & Xc & Yc & Nc).
  assert (Hguard : vertical_guard s sprite d = true).
  { assert (Hcases : d = 1 \/ d = 2 \/ d = 3 \/ d = 4) by lia.
    by destruct Hcases as [-> | [-> | [-> | ->]]]. }
  assert (Hnb : BlockPos.z (neighbor d (absolutePos sprite)) = BlockPos.z (absolutePos sprite)
                /\ BlockPos.z (step_by d (-8) (absolutePos sprite))
                   = BlockPos.z (absolutePos sprite)
                /\ neighbor d (absolutePos sprite) <> step_by d (-8) (absolutePos sprite)).
  { assert (Hcases : d = 1 \/ d = 2 \/ d = 3 \/ d = 4) by lia.
    destruct Hcases as [-> | [-> | [-> | ->]]]; simpl; split_and!; try done;
      intros [=]; lia. }
  destruct Hnb as (Hnz & Hsz & Hne).
  assert (Hplaced : absolutePos placed = step_by d (-8) (absolutePos sprite)).
  { rewrite !absolutePos_local. unfold placed.
    cbn [ExtendedSprite.pos ExtendedSprite.containerCenter].
    unfold place_target, chunkSize in Htarget.
    destruct (ExtendedSprite.pos sprite) as [px py pz]. simpl in Hx, Hz, Hout.
    assert (Hcases : d = 1 \/ d = 2 \/ d = 3 \/ d = 4) by lia.
    destruct Hcases as [-> | [-> | [-> | ->]]]; cbv iota in Htarget; simpl in Htarget.
    - destruct (pz + 1 <? 8 + 1) eqn:Hin.
      + injection Htarget as <- <-. by destruct Hout.
      + apply Z.ltb_ge in Hin. assert (pz = 8) by lia. subst pz.
        destruct (cellAt s _ _); [| done]. injection Htarget as <- <-.
        simpl. change ((8 + 1) `rem` (8 + 1)) with 0. f_equal; lia.
    - destruct (0 <=? pz - 1) eqn:Hin.
      + injection Htarget as <- <-. by destruct Hout.
      + apply Z.leb_gt in Hin. assert (pz = 0) by lia. subst pz.
        destruct (cellAt s _ _); [| done]. injection Htarget as <- <-.
        simpl. change ((8 + 1) `rem` (8 + 1)) with 0. f_equal; lia.
    - destruct (0 <=? px - 1) eqn:Hin.
      + injection Htarget as <- <-. by destruct Hout.
      + apply Z.leb_gt in Hin. assert (px = 0) by lia. subst px.
        destruct (cellAt s _ _); [| done]. injection Htarget as <- <-.
        simpl. change ((8 + 1) `rem` (8 + 1)) with 0. f_equal; lia.
    - destruct (px + 1 <? 8 + 1) eqn:Hin.
      + injection Htarget as <- <-. by destruct Hout.
      + apply Z.ltb_ge in Hin. assert (px = 8) by lia. subst px.
        destruct (cellAt s _ _); [| done]. injection Htarget as <- <-.
        simpl. change ((8 + 1) `rem` (8 + 1)) with 0. f_equal; lia. }
  assert (Hd6 : 1 <= d <= 6) by lia.
  pose proof (place_run s c tgt k kt sprite d pos' Hd6 Hks Hk Hcol Hguard Htarget Hkt) as E1.
  set (s1 := set_dimension _ _) in E1.
  assert (Hk1 : containers s1 !! tgt = Some (with_child kt placed)).
  { unfold s1, sprite_placed. simpl. by rewrite lookup_insert_eq. }
  set (s1' := final_state (handle (EvKeyUp released) s1)).
  assert (Hks1 : isActive (keyState s1') = false).
  { unfold s1'. rewrite keyup_run. simpl. by rewrite Kc, Hks, Hup. }
  pose proof (break_run s1' tgt (with_child kt placed) placed Hks1 Hk1) as E2.
  assert (Hw1 : peek (dimension s1) (neighbor d (absolutePos sprite))
                = Some (Material (selectedBlockType s))).
  { unfold s1. simpl. apply peek_setBlock_eq; [done | by rewrite Hnz]. }
  exists s1. eexists. exists placed. split_and!.
  - exact E1.
  - simpl. by rewrite Cc.
  - exact Hw1.
  - exact Hplaced.
  - exact E2.
  - simpl. rewrite Hplaced. rewrite peek_setBlock_ne by done. exact Hw1.
  - simpl. rewrite Hplaced. apply peek_setBlock_eq; [| by rewrite Hsz].
    by apply wf_Dimension_setBlock.
Qed.

(** ** The texture cache *)

Lemma getTexture_textures_valid (color : JS.value) :
  preserves textures_valid (getTexture color).
Proof.
  intros s Hs. unfold getTexture. rewrite bind_gets.
  destruct (cachedTexture _ s); [done |].
  destruct color as [c | name |]; simpl.
  - unfold colorVariants. destruct (test_hex_color c) eqn:Ht; simpl; [| done].
    intros c' [Hc%elem_of_singleton | Hc]%elem_of_union; [by subst | by apply Hs].
  - by destruct (negb _).
  - done.
Qed.

Lemma getBlock_textures_valid (p : BlockPos.t) : preserves textures_valid (getBlock p).
Proof. intros s Hs. by rewrite getBlock_run. Qed.

Lemma setBlock_textures_valid (p : BlockPos.t) (b : Block) :
  preserves textures_valid (setBlock p b).
Proof. by intros s Hs. Qed.

Lemma getBlockArray_textures_valid (ctr : XY.t) :
  preserves textures_valid (getBlockArray ctr).
Proof. intros s Hs. unfold getBlockArray. by destruct (Dimension_getBlockArray _ _ _). Qed.

Lemma fresh_textures_valid : preserves textures_valid fresh.
Proof. by intros s Hs. Qed.

Ltac textures_step :=
  first
    [ apply getTexture_textures_valid
    | apply getBlock_textures_valid
    | apply setBlock_textures_valid
    | apply getBlockArray_textures_valid
    | apply fresh_textures_valid
    | preserves_step
    | preserves_cases ].

Ltac textures_auto := repeat textures_step.

Lemma renderBlock_textures_valid (color : JS.value) (pos : RenderBlockPos.t)
    (c : option nat) (chunkCenter : XY.t) :
  preserves textures_valid (renderBlock color pos c chunkCenter).
Proof. unfold renderBlock, addChild. textures_auto. Qed.

Lemma buildTile_textures_valid (ctr : XY.t) : preserves textures_valid (buildTile ctr).
Proof.
  unfold buildTile, renderRChunk, newContainer, traverse3DArray.
  repeat first [apply renderBlock_textures_valid | textures_step].
Qed.

Lemma pointerdown_textures_valid (button : Z) (c : nat) (sprite : ExtendedSprite.t) :
  preserves textures_valid (pointerdown button c sprite).
Proof.
  unfold pointerdown, gridAt, removeChild.
  repeat first [apply renderBlock_textures_valid | textures_step].
Qed.

Lemma tick_textures_valid (t b r l : bool) : preserves textures_valid (tick t b r l).
Proof.
  unfold tick, willOutOfScreen, addTopRow, addBottomRow, addRightColumn, addLeftColumn,
    reassignIndex, readCell, rowAt, updateRow, gridLength, gridAt, destroy.
  repeat first [apply buildTile_textures_valid | textures_step].
Qed.

Lemma perform_textures_valid (a : Action) : preserves textures_valid (perform a).
Proof.
  destruct a as [ctr | [t b r l | button c sprite | key | key | type] | data]; simpl.
  - unfold initStage. repeat first [apply buildTile_textures_valid | textures_step].
  - apply tick_textures_valid.
  - apply pointerdown_textures_valid.
  - textures_auto.
  - textures_auto.
  - textures_auto.
  - unfold addNewBlockType. textures_auto.
Qed.

Lemma after_actions_textures_valid (acts : list Action) (s : RenderState) :
  textures_valid s -> textures_valid (after_actions acts s).
Proof.
  revert s. induction acts as [| a acts IH]; intros s Hs; simpl; [done |].
  apply IH. by apply perform_textures_valid.
Qed.

(** *** The palette never gets an own entry named [__proto__] *)









(** X6. What [getTexture] accepts.  After any sequence of stage starts,
    events and registrations of new block types from the freshly loaded
    module, [getTexture] returns for a value exactly when it is a string that
    is of the form #hhhhhh or is the name of a member of [Object.prototype]:
    the cache, an object literal, answers for such a name with the inherited
    member, so that [getTexture] hands it back without validation and without
    storing anything.  A member of [Object.prototype] passed as the colour,
    and [undefined], are refused.  The cache never holds an own texture for a
    string that is not of the form #hhhhhh. *)
Theorem getTexture_returns_iff_valid (acts : list Action) (color : JS.value) :
  ((exists t s', getTexture color (after_actions acts initial_state) = Ok t s')
   <-> exists c, color = JS.Str c
                 /\ (test_hex_color c = true \/ JSObject.inherited c = true))
  /\ (forall c, JSObject.inherited c = true ->
         getTexture (JS.Str c) (after_actions acts initial_state)
         = Ok (TextureMember c) (after_actions acts initial_state))
  /\ (forall c, c ∈ textures (after_actions acts initial_state) ->
         test_hex_color c = true).
Proof.
  assert (Hv : textures_valid (after_actions acts initial_state)).
  { apply after_actions_textures_valid. intros c Hc. by apply elem_of_empty in Hc. }
  set (s := after_actions acts initial_state) in *.
  assert (Hmember : forall c, JSObject.inherited c = true ->
                      cachedTexture c s = Some (TextureMember c)).
  { intros c Hc. unfold cachedTexture. rewrite Hc.
    case_bool_decide as Hin; [| done].
    apply Hv, inherited_hex in Hin. congruence. }
  split_and!.
  - split.
    + intros (t & s' & E). unfold getTexture in E. rewrite bind_gets in E.
      destruct (cachedTexture (JS.ToString color) s) as [t' |] eqn:Hcache.
      * unfold cachedTexture in Hcache. case_bool_decide as Hin.
        -- apply Hv in Hin. destruct color as [c | name |].
           ++ eauto.
           ++ by rewrite ToString_not_hex in Hin.
           ++ done.
        -- destruct (JSObject.inherited (JS.ToString color)) eqn:Hi; [| done].
           destruct color as [c | name |].
           ++ eauto.
           ++ by rewrite ToString_not_inherited in Hi.
           ++ by rewrite ToString_not_inherited in Hi.
      * destruct color as [c | name |].
        -- simpl in E. unfold colorVariants in E.
           destruct (test_hex_color c) eqn:Ht; [eauto | done].
        -- unfold createGraphics in E. by rewrite ToString_not_hex in E.
        -- done.
    + intros (c & -> & [Hc | Hc]).
      * eexists _, _. apply getTexture_ok. left. eauto.
      * eexists _, _. apply getTexture_ok. right. simpl. rewrite Hmember; eauto.
  - intros c Hc. unfold getTexture. rewrite bind_gets. simpl. by rewrite Hmember.
  - exact Hv.
Qed.

(** X7. A tick on an empty grid, as before [initStage] has run, throws at its
    first boundary test and leaves the whole state as it was: no offset has
    moved and nothing has been built. *)
Theorem tick_on_empty_grid (top bottom right left : bool) (s : RenderState) :
  rengerGrid s = [] ->
  exists msg, tick top bottom right left s = Throw msg s.
Proof.
  intros Hg. unfold tick, willOutOfScreen, readCell, gridAt.
  rewrite !bind_assoc, bind_gets, Hg. simpl. eauto.
Qed.

(** X8. The draw-order key paints nearer blocks over farther ones.  For two
    blocks of a tile inside the height range, with a chunk height of at most
    10000: the block on the later diagonal (larger x + y) has the larger key
    whatever the two heights; on the same diagonal the higher block has the
    larger key; and two blocks have the same key exactly when they share the
    diagonal and the height. *)
Theorem drawKey_orders_blocks (p q : BlockPos.t) :
  Chunk_HEIGHT <= 10000 ->
  0 <= BlockPos.z p < Chunk_HEIGHT ->
  0 <= BlockPos.z q < Chunk_HEIGHT ->
  (BlockPos.x p + BlockPos.y p < BlockPos.x q + BlockPos.y q ->
   drawKey (convertBlockPosToRenderBlockPos p) < drawKey (convertBlockPosToRenderBlockPos q))
  /\ (BlockPos.x p + BlockPos.y p = BlockPos.x q + BlockPos.y q ->
      BlockPos.z p < BlockPos.z q ->
      drawKey (convertBlockPosToRenderBlockPos p)
      < drawKey (convertBlockPosToRenderBlockPos q))
  /\ (drawKey (convertBlockPosToRenderBlockPos p)
      = drawKey (convertBlockPosToRenderBlockPos q)
      <-> BlockPos.x p + BlockPos.y p = BlockPos.x q + BlockPos.y q
          /\ BlockPos.z p = BlockPos.z q).
Proof.
  intros HH Hp Hq. unfold drawKey, convertBlockPosToRenderBlockPos, renderChunkHeight.
  destruct p as [px py pz], q as [qx qy qz]. simpl in *. split_and!; lia.
Qed.

(** ** What a tile shows *)

Lemma for_each_app {A : Type} (l1 l2 : list A) (body : A -> M unit) (s : RenderState) :
  for_each (l1 ++ l2) body s = (for_each l1 body ;;; for_each l2 body) s.
Proof.
  revert s. induction l1 as [| a l1 IH]; intros s; simpl; [reflexivity |].
  unfold bind. destruct (body a s) as [[] s1 | msg s1]; [| reflexivity].
  rewrite IH. reflexivity.
Qed.

Lemma for_each_ext {A : Type} (l : list A) (body1 body2 : A -> M unit) (s : RenderState) :
  (forall a s, body1 a s = body2 a s) -> for_each l body1 s = for_each l body2 s.
Proof.
  intros Hext. revert s. induction l as [| a l IH]; intros s; simpl; [reflexivity |].
  unfold bind. rewrite Hext. destruct (body2 a s) as [[] s1 | msg s1]; [apply IH | reflexivity].
Qed.

Lemma for_each_mbind {A B : Type} (l : list A) (f : A -> list B) (body : B -> M unit)
    (s : RenderState) :
  for_each (l ≫= f) body s = for_each l (fun a => for_each (f a) body) s.
Proof.
  revert s. induction l as [| a l IH]; intros s; [reflexivity |].
  rewrite bind_cons, for_each_app. simpl. unfold bind.
  destruct (for_each (f a) body s) as [[] s1 | msg s1]; [apply IH | reflexivity].
Qed.

Lemma for_each_singleton {A : Type} (a : A) (body : A -> M unit) (s : RenderState) :
  for_each [a] body s = body a s.
Proof. simpl. unfold bind. by destruct (body a s) as [[] s1 | msg s1]. Qed.

Lemma traverse3DArray_cells {A : Type} (array : list (list (list A)))
    (callback : A -> BlockPos.t -> M unit) (s : RenderState) :
  traverse3DArray array callback s
  = for_each (cells array) (fun vp => callback vp.1 vp.2) s.
Proof.
  unfold traverse3DArray, cells. rewrite for_each_mbind.
  apply for_each_ext. intros xp s1. rewrite for_each_mbind.
  apply for_each_ext. intros yc s2. rewrite for_each_mbind.
  apply for_each_ext. intros zv s3. by rewrite for_each_singleton.
Qed.

Lemma for_each_prefix {A : Type} (I : list A -> RenderState -> Prop) (l : list A)
    (body : A -> M unit) :
  (forall pre a s, a ∈ l -> I pre s -> exists s', body a s = Ok tt s' /\ I (pre ++ [a]) s') ->
  forall pre s, I pre s -> exists s', for_each l body s = Ok tt s' /\ I (pre ++ l) s'.
Proof.
  induction l as [| a l IH]; intros Hbody pre s Hs; simpl.
  - exists s. by rewrite app_nil_r.
  - destruct (Hbody pre a s) as (s1 & E1 & H1); [by left | done |].
    rewrite (bind_Ok _ _ _ _ _ E1).
    destruct (IH (fun pre a s Ha => Hbody pre a s (list_elem_of_further _ _ _ Ha))
                (pre ++ [a]) s1 H1) as (s2 & E2 & H2).
    exists s2. split; [done |]. by rewrite <- app_assoc in H2.
Qed.

Lemma elem_of_cells {A : Type} (array : list (list (list A))) (vp : A * BlockPos.t) :
  vp ∈ cells array ->
  exists plane column, plane ∈ array /\ column ∈ plane /\ vp.1 ∈ column.
Proof.
  unfold cells. intros (xp & Hvp & Hxp)%list_elem_of_bind.
  apply list_elem_of_bind in Hvp as (yc & Hvp & Hyc).
  apply list_elem_of_bind in Hvp as (zv & Hvp & Hzv).
  apply list_elem_of_singleton in Hvp as ->. simpl.
  exists xp.2, yc.2. split_and!; by apply elem_of_indexed.
Qed.

(** The container [renderRChunk] returns: one sprite per cell that holds a
    block, in the order of the traversal. *)
Lemma texture_of_hex (c : string) (s : RenderState) :
  test_hex_color c = true -> texture_of (JS.Str c) s = TextureOf c.
Proof.
  intros Hc. unfold texture_of, cachedTexture. simpl.
  case_bool_decide; [done |]. by rewrite inherited_hex.
Qed.

Lemma renderRChunk_children (blockArray : list (list (list (option Block))))
    (chunkcenter : XY.t) (s : RenderState) :
  world_ok s -> Forall (Forall (Forall (read_of (dimension s)))) blockArray ->
  exists s' k,
    renderRChunk blockArray chunkcenter s = Ok (nextId s) s'
    /\ containers s' !! nextId s = Some k
    /\ face <$> ExtendedContainer.children k
       = omap (cell_face (colorMapper s)) (cells blockArray)
    /\ Forall (fun sp => ExtendedSprite.containerCenter sp = chunkcenter
                         /\ (ExtendedSprite.id sp < nextId s')%nat)
         (ExtendedContainer.children k).
Proof.
  intros (Hwf & (Hcol & Hworld & Hsel) & Hheap) Harr. unfold renderRChunk, newContainer.
  set (c := nextId s).
  set (s0 := set_containers_of c (ExtendedContainer.mk (XY.mk 0 0) [] false)
               (set_nextId (S c) s)).
  assert (E0 : (let* c0 := fresh in
                modify (set_containers_of c0 (ExtendedContainer.mk (XY.mk 0 0) [] false)) ;;;
                ret c0) s = Ok c s0) by reflexivity.
  rewrite (bind_Ok _ _ _ _ _ E0).
  set (I := fun (pre : list (option Block * BlockPos.t)) (s1 : RenderState) =>
              colorMapper s1 = colorMapper s
              /\ exists k1,
                   containers s1 !! c = Some k1
                   /\ face <$> ExtendedContainer.children k1
                      = omap (cell_face (colorMapper s)) pre
                   /\ Forall (fun sp => ExtendedSprite.containerCenter sp = chunkcenter
                                        /\ (ExtendedSprite.id sp < nextId s1)%nat)
                        (ExtendedContainer.children k1)).
  assert (HI0 : I [] s0).
  { split; [done |]. eexists. unfold s0. simpl. rewrite lookup_insert_eq.
    split; [done |]. split; [done | constructor]. }
  unfold bind at 1. rewrite traverse3DArray_cells.
  destruct (for_each_prefix I (cells blockArray)
    (fun vp =>
       match vp.1 with
       | None => throw "TypeError: value is undefined"
       | Some (Empty _) => ret tt
       | Some (Material type) =>
           let* color := gets (fun s => tileColor (colorMapper s) type) in
           renderBlock color (convertBlockPosToRenderBlockPos vp.2) (Some c) chunkcenter
       end)) with (@nil (option Block * BlockPos.t)) s0 as (s' & E' & HI'); [| done |].
  { intros pre [v pos] s1 Hin (Hm & k1 & Hk1 & Hface & Hall).
    apply elem_of_cells in Hin as (plane & column & Hplane & Hcolumn & Hv).
    simpl in Hv.
    rewrite Forall_forall in Harr. specialize (Harr _ Hplane).
    rewrite Forall_forall in Harr. specialize (Harr _ Hcolumn).
    rewrite Forall_forall in Harr. destruct (Harr _ Hv) as [[b ->] [p Hp]]. simpl.
    destruct b as [type | type].
    - assert (Htype : type_ok (colorMapper s) type).
      { symmetry in Hp. by eapply Hworld. }
      cbv [bind gets]. rewrite Hm, (tileColor_paint _ _ Htype).
      pose proof (colors_ok_paint _ type Hcol) as Hhex.
      destruct (texture_cached_fields (JS.Str (paint (colorMapper s) type)) s1)
        as (Dc & Mc & Ic & Sc & Kc & Cc & Gc & Xc & Yc & Nc).
      rewrite (renderBlock_ok _ _ _ k1); [| | done].
      + eexists. split; [reflexivity |]. split; [simpl; by rewrite Mc |].
        eexists. unfold sprite_placed. simpl. rewrite lookup_insert_eq.
        split; [done |]. simpl. split.
        * rewrite fmap_app, omap_app, Hface. f_equal. cbn.
          by rewrite texture_of_hex.
        * apply Forall_app. split.
          -- eapply Forall_impl; [exact Hall |]. intros sp [? ?]. split; [done | lia].
          -- constructor; [| constructor]. simpl. split; [done | lia].
      + left. eauto.
    - exists s1. split; [reflexivity |]. split; [done |].
      exists k1. split; [done |]. split; [| done].
      rewrite omap_app. simpl. by rewrite app_nil_r. }
  rewrite E'. simpl. destruct HI' as (Hm & k & Hk & Hface & Hall).
  exists s', k. by split_and!.
Qed.

Lemma mapS_fmap {A B S : Type} (I : S -> Prop) (f : A -> S -> S * B) (g : A -> B)
    (l : list A) (s : S) :
  (forall a s, I s -> I (f a s).1 /\ (f a s).2 = g a) ->
  I s -> I (mapS f l s).1 /\ (mapS f l s).2 = g <$> l.
Proof.
  intros Hf. revert s. induction l as [| a l IH]; intros s Hs; simpl; [done |].
  destruct (Hf a s Hs) as [H1 H2]. destruct (f a s) as [s1 b]. simpl in *.
  destruct (IH s1 H1) as [H3 H4]. destruct (mapS f l s1) as [s2 bs]. simpl in *.
  split; [done |]. by rewrite H2, H4.
Qed.

(** The box read returns the table of the store's answers. *)
Lemma Dimension_getBlockArray_table (min max : BlockPos.t) (d : Dimension) :
  same_blocks d (Dimension_getBlockArray min max d).1
  /\ (Dimension_getBlockArray min max d).2
     = (fun x =>
          (fun y =>
             (fun z => peek d (BlockPos.mk x y z)) <$> zrange (BlockPos.z min) (BlockPos.z max))
            <$> zrange (BlockPos.y min) (BlockPos.y max))
         <$> zrange (BlockPos.x min) (BlockPos.x max).
Proof.
  unfold Dimension_getBlockArray.
  apply (mapS_fmap (same_blocks d)); [| apply same_blocks_refl].
  intros x d1 H1. apply (mapS_fmap (same_blocks d)); [| done].
  intros y d2 H2. apply (mapS_fmap (same_blocks d)); [| done].
  intros z d3 H3. split.
  - eapply same_blocks_trans; [done | apply Dimension_getBlock_same_blocks].
  - rewrite Dimension_getBlock_snd. apply H3.
Qed.

Lemma getBlockArray_table (ctr : XY.t) (s : RenderState) :
  exists d',
    getBlockArray ctr s = Ok (block_table (dimension s) ctr) (set_dimension d' s)
    /\ same_blocks (dimension s) d'.
Proof.
  unfold getBlockArray.
  destruct (Dimension_getBlockArray_table
              (BlockPos.mk (XY.x ctr - 4) (XY.y ctr - 4) 0)
              (BlockPos.mk (XY.x ctr + 4) (XY.y ctr + 4) (renderChunkHeight - 1))
              (dimension s)) as [Hsame Htable].
  destruct (Dimension_getBlockArray _ _ _) as [d' array]. simpl in *.
  exists d'. by rewrite Htable.
Qed.

Lemma indexed_fmap_seqZ {A : Type} (f : Z -> A) (lo n : Z) :
  indexed (f <$> seqZ lo n) = (fun i => (i, f (lo + i))) <$> seqZ 0 n.
Proof.
  unfold indexed. rewrite length_fmap, length_seqZ.
  unfold seqZ. rewrite Nat2Z.id, <- !list_fmap_compose.
  rewrite zip_with_fmap_l, zip_with_fmap_r, zip_with_diag.
  apply list_fmap_ext. intros i x _. simpl. do 2 f_equal. lia.
Qed.

Lemma omap_mbind {A B C : Type} (F : B -> option C) (l : list A) (h : A -> list B) :
  omap F (l ≫= h) = l ≫= (fun a => omap F (h a)).
Proof.
  induction l as [| a l IH]; [done |].
  by rewrite !bind_cons, omap_app, IH.
Qed.

Lemma drawn_same_blocks (d d' : Dimension) (m : gmap string string) (ctr : XY.t) :
  same_blocks d d' -> drawn d' m ctr = drawn d m ctr.
Proof.
  intros Hsame. unfold drawn. apply list_omap_ext.
  induction (tile_box ctr) as [| p l IH]; constructor; [| done].
  by rewrite Hsame.
Qed.

(** The sprites of a tile, read through the pointer handler's formula, are
    the blocks drawn of its box. *)
Lemma faces_drawn (d : Dimension) (m : gmap string string) (ctr : XY.t)
    (l : list ExtendedSprite.t) :
  Forall (fun sp => ExtendedSprite.containerCenter sp = ctr) l ->
  face <$> l = omap (cell_face m) (cells (block_table d ctr)) ->
  shown <$> l = drawn d m ctr.
Proof.
  intros Hctr Hface.
  set (lift := fun pt : RenderBlockPos.t * Texture =>
                 (BlockPos.mk (XY.x ctr - 4 + RenderBlockPos.x pt.1)
                    (XY.y ctr - 4 + RenderBlockPos.z pt.1)
                    (renderChunkHeight - RenderBlockPos.y pt.1 - 1), pt.2)).
  assert (E : shown <$> l = lift <$> (face <$> l)).
  { rewrite <- list_fmap_compose. apply Forall_fmap_ext_1.
    eapply Forall_impl; [exact Hctr |]. intros sp Hsp. unfold shown, absolutePos, lift.
    simpl. by rewrite Hsp. }
  rewrite E, Hface, list_fmap_omap.
  unfold drawn, tile_box, cells, block_table, zrange, upto.
  replace (XY.x ctr + 4 - (XY.x ctr - 4) + 1) with 9 by lia.
  replace (XY.y ctr + 4 - (XY.y ctr - 4) + 1) with 9 by lia.
  replace (renderChunkHeight - 1 - 0 + 1) with renderChunkHeight by lia.
  rewrite indexed_fmap_seqZ, list_fmap_bind, !omap_mbind.
  apply list_bind_ext; [| done]. intros x. unfold compose. cbn [fst snd].
  rewrite indexed_fmap_seqZ, list_fmap_bind, !omap_mbind.
  apply list_bind_ext; [| done]. intros y. unfold compose. cbn [fst snd].
  rewrite indexed_fmap_seqZ, list_fmap_bind, !omap_mbind.
  apply list_bind_ext; [| done]. intros z. unfold compose. cbn [fst snd].
  unfold cell_face, lift. simpl. rewrite Z.add_0_l.
  destruct (peek d _) as [[type | type] |]; simpl; [| done | done].
  do 3 f_equal. unfold renderChunkHeight. lia.
Qed.

Lemma elem_of_tile_box (ctr : XY.t) (p : BlockPos.t) :
  p ∈ tile_box ctr
  <-> XY.x ctr - 4 <= BlockPos.x p <= XY.x ctr + 4
      /\ XY.y ctr - 4 <= BlockPos.y p <= XY.y ctr + 4
      /\ 0 <= BlockPos.z p < renderChunkHeight.
Proof.
  unfold tile_box. rewrite list_elem_of_bind. split.
  - intros (x & Hp & Hx%elem_of_upto).
    apply list_elem_of_bind in Hp as (y & Hp & Hy%elem_of_upto).
    apply list_elem_of_bind in Hp as (z & Hp & Hz%elem_of_upto).
    apply list_elem_of_singleton in Hp as ->. simpl. lia.
  - intros (Hx & Hy & Hz). exists (BlockPos.x p - (XY.x ctr - 4)).
    split; [| apply elem_of_upto; lia].
    apply list_elem_of_bind. exists (BlockPos.y p - (XY.y ctr - 4)).
    split; [| apply elem_of_upto; lia].
    apply list_elem_of_bind. exists (BlockPos.z p).
    split; [| apply elem_of_upto; lia].
    apply list_elem_of_singleton. destruct p as [px py pz]. simpl. f_equal; lia.
Qed.

(** A tile, built: its container shows the box around its centre. *)
Lemma buildTile_shows (ctr : XY.t) (s : RenderState) :
  world_ok s ->
  exists c s',
    buildTile ctr s = Ok c s' /\ tile_built s c s' /\ tile_shows s' c ctr.
Proof.
  intros Hs. destruct (buildTile_spec ctr s Hs) as (c & s' & E & T).
  exists c, s'. split; [done |]. split; [done |].
  pose proof Hs as (Hwf & Hpal & Hheap).
  unfold buildTile in E.
  destruct (getBlockArray_table ctr s) as (d' & E1 & Hsame).
  destruct (getBlockArray_spec ctr s Hwf) as (array & d'' & E2 & Hwf' & _ & Hall).
  rewrite E1 in E2. injection E2 as <- Hd. rewrite (bind_Ok _ _ _ _ _ E1) in E.
  assert (Hw1 : world_ok (set_dimension d' s)).
  { split_and!; [| | done].
    - simpl. by rewrite Hd.
    - apply (palette_ok_same s); [done | by unfold same_config | done]. }
  assert (Hall1 : Forall (Forall (Forall (read_of (dimension (set_dimension d' s)))))
                    (block_table (dimension s) ctr)).
  { simpl. by rewrite Hd. }
  destruct (renderRChunk_children _ ctr _ Hw1 Hall1) as (s'' & k & E3 & Hk & Hface & Hids).
  rewrite E3 in E. injection E as <- <-.
  destruct T as (_ & _ & _ & _ & (Hm & _) & _ & _ & Hblocks & _).
  exists k. split; [done |]. split.
  - rewrite Hm. rewrite (drawn_same_blocks (dimension s) (dimension s'')) by done.
    apply faces_drawn; [| done].
    eapply Forall_impl; [exact Hids |]. by intros sp [? ?].
  - eapply Forall_impl; [exact Hids |]. by intros sp [? ?].
Qed.

(** X9. A new tile shows its box.  From a well-formed state [buildTile]
    returns a new container whose sprites, in order, stand for exactly the
    blocks of the nine by nine by [Chunk.HEIGHT] box around the centre that
    are not empty, in the order of the traversal: the block position the
    pointer handler computes from each sprite is the block's position, its
    texture is the palette colour of the block's type (black when the
    palette lacks the type), and every sprite is filed under the tile's
    centre.  The store answers afterwards as before. *)
Theorem tile_shows_its_box (ctr : XY.t) (s : RenderState) :
  world_ok s ->
  exists c s' k,
    buildTile ctr s = Ok c s'
    /\ containers s' !! c = Some k
    /\ shown <$> ExtendedContainer.children k = drawn (dimension s) (colorMapper s) ctr
    /\ Forall (fun sp => ExtendedSprite.containerCenter sp = ctr)
         (ExtendedContainer.children k)
    /\ (forall p, p ∈ tile_box ctr
                  <-> XY.x ctr - 4 <= BlockPos.x p <= XY.x ctr + 4
                      /\ XY.y ctr - 4 <= BlockPos.y p <= XY.y ctr + 4
                      /\ 0 <= BlockPos.z p < Chunk_HEIGHT)
    /\ (forall p, peek (dimension s') p = peek (dimension s) p).
Proof.
  intros Hs. destruct (buildTile_shows ctr s Hs) as (c & s' & E & T & k & Hk & Hshown & Hctr).
  destruct T as (_ & _ & _ & _ & (Hm & _) & _ & _ & Hblocks & _).
  exists c, s', k. split_and!; try done.
  - rewrite <- Hm. by rewrite <- (drawn_same_blocks (dimension s) (dimension s')).
  - apply elem_of_tile_box.
Qed.

(** ** Which tile a cell shows *)


Lemma destroy_run (c : nat) (k : ExtendedContainer.t) (s : RenderState) :
  containers s !! c = Some k ->
  destroy c s
  = Ok tt (set_containers_of c
             (ExtendedContainer.mk (ExtendedContainer.indexPos k) [] true) s).
Proof. intros Hk. unfold destroy. by rewrite bind_gets, Hk. Qed.

Lemma for_each_destroy_frame (l : list nat) (s : RenderState) :
  Forall (fun c => is_Some (containers s !! c)) l ->
  exists s',
    for_each l destroy s = Ok tt s' /\ same_objects s s'
    /\ (forall r, r ∉ l -> containers s' !! r = containers s !! r)
    /\ currentXOffset s' = currentXOffset s
    /\ currentYOffset s' = currentYOffset s.
Proof.
  intros Hl.
  apply (for_each_inv
           (fun s1 => same_objects s s1
                      /\ (forall r, r ∉ l -> containers s1 !! r = containers s !! r)
                      /\ currentXOffset s1 = currentXOffset s
                      /\ currentYOffset s1 = currentYOffset s));
    [| split; [apply same_objects_refl | done]].
  intros c s1 Hc (H1 & F1 & X1 & Y1). rewrite Forall_forall in Hl.
  assert (Hk : is_Some (containers s1 !! c)) by (apply H1; by apply Hl).
  destruct Hk as [k Hk]. rewrite (destroy_run c k s1 Hk).
  eexists. split; [reflexivity |]. split_and!.
  - eapply same_objects_trans; [exact H1 |].
    by eapply set_containers_of_same_objects.
  - intros r Hr. simpl. rewrite lookup_insert_ne; [by apply F1 |].
    intros ->. by apply Hr.
  - exact X1.
  - exact Y1.
Qed.

(** ** What the cells of the grid hold

    The shifts are followed through a family of properties of containers:
    [T l c s] says that the container [c] answers to the label [l] in the
    state [s].  A tile built for the centre [ctr] answers to the label
    [mk ctr], and a container goes on answering to its labels while it, the
    answers of the store and the palette stay as they are. *)
Section Cells.

Context {Label : Type}.
Variable T : Label -> nat -> RenderState -> Prop.
Variable mk : XY.t -> Label.
Variable base : nat.

Hypothesis T_frame : forall l c s s',
  T l c s ->
  containers s' !! c = containers s !! c ->
  same_blocks (dimension s) (dimension s') ->
  colorMapper s' = colorMapper s ->
  T l c s'.

Hypothesis T_built : forall ctr s c s',
  world_ok s -> (base <= nextId s)%nat ->
  buildTile ctr s = Ok c s' -> tile_built s c s' -> T (mk ctr) c s'.

Lemma buildTile_cell (ctr : XY.t) (s : RenderState) :
  world_ok s -> (base <= nextId s)%nat ->
  exists c s', buildTile ctr s = Ok c s' /\ tile_built s c s' /\ T (mk ctr) c s'.
Proof.
  intros Hs Hn. destruct (buildTile_spec ctr s Hs) as (c & s' & E & Tb).
  exists c, s'. split_and!; try done. by eapply T_built.
Qed.

Lemma T_set_rengerGrid (g : list (list nat)) (s : RenderState) (c : nat) (l : Label) :
  T l c s -> T l c (set_rengerGrid g s).
Proof. intros H. by apply (T_frame l c s). Qed.

(** A row of tiles, built: each container answers to the label of the tile
    it was built for. *)
Lemma for_collect_cells (l : list Z) (ctr_of : Z -> XY.t) (body : Z -> M nat)
    (xo yo : Z) :
  (forall a s, world_ok s -> (base <= nextId s)%nat ->
     currentXOffset s = xo -> currentYOffset s = yo ->
     exists c s', body a s = Ok c s' /\ tile_built s c s' /\ T (mk (ctr_of a)) c s') ->
  forall s, world_ok s -> (base <= nextId s)%nat ->
    currentXOffset s = xo -> currentYOffset s = yo ->
    exists cs s',
      for_collect l body s = Ok cs s' /\ row_built (length l) s cs s'
      /\ Forall2 (fun a c => T (mk (ctr_of a)) c s') l cs.
Proof.
  intros Hbody. induction l as [| a l IH]; intros s Hs Hn Hxo Hyo; simpl.
  - exists [], s. split; [reflexivity |]. split; [| constructor].
    unfold row_built, same_config. split_and!; try done. constructor.
  - destruct (Hbody a s Hs Hn Hxo Hyo) as (c & s1 & E1 & T1 & Sh1).
    rewrite (bind_Ok _ _ _ _ _ E1).
    pose proof T1 as (W1 & Ec & N1 & G1 & (Ca & Cb & Cc & Cd) & H1 & S1 & B1 & X1 & Y1).
    destruct (IH s1 W1) as (cs & s2 & E2 & R2 & F2); [lia | congruence | congruence |].
    rewrite (bind_Ok _ _ _ _ _ E2).
    exists (c :: cs), s2. split; [reflexivity |].
    pose proof R2 as (W2 & L2 & D2 & A2 & G2 & (Ce & Cf & Cg & Ch) & H2 & B2 & X2 & Y2 & N2).
    split.
    + unfold row_built, same_config. split_and!; try congruence; try lia.
      * simpl. by rewrite L2.
      * constructor; [| done].
        intros Hin. rewrite Forall_forall in A2. apply A2 in Hin as [Hge _]. lia.
      * constructor.
        -- split; [lia |]. rewrite H2 by lia. done.
        -- eapply Forall_impl; [exact A2 |]. intros c' [Hge Hsome]. split; [lia | done].
      * intros r Hr. rewrite H2 by lia. apply H1. lia.
    + constructor; [| done].
      apply (T_frame _ _ s1); [done | apply H2; lia | done | done].
Qed.

Lemma tile_body_cell (f : Z -> Z -> XY.t) (s : RenderState) :
  world_ok s -> (base <= nextId s)%nat ->
  exists c s',
    (let* xo := gets currentXOffset in
     let* yo := gets currentYOffset in
     buildTile (f xo yo)) s = Ok c s'
    /\ tile_built s c s'
    /\ T (mk (f (currentXOffset s) (currentYOffset s))) c s'.
Proof. intros Hs Hn. rewrite !bind_gets. by apply buildTile_cell. Qed.

Lemma lookupZ_cons {A : Type} (a : A) (l : list A) (i : Z) :
  lookupZ (a :: l) i = if i =? 0 then Some a else lookupZ l (i - 1).
Proof.
  unfold lookupZ. destruct (i =? 0) eqn:E0.
  - apply Z.eqb_eq in E0 as ->. reflexivity.
  - apply Z.eqb_neq in E0. repeat case_bool_decide; try lia; [| done].
    replace (Z.to_nat i) with (S (Z.to_nat (i - 1))) by lia. reflexivity.
Qed.

Lemma lookupZ_snoc {A : Type} (l : list A) (a : A) (i : Z) :
  lookupZ (l ++ [a]) i
  = if i =? Z.of_nat (length l) then Some a else lookupZ l i.
Proof.
  unfold lookupZ. destruct (i =? Z.of_nat (length l)) eqn:E0.
  - apply Z.eqb_eq in E0 as ->. rewrite bool_decide_eq_true_2 by lia.
    rewrite Nat2Z.id. by rewrite list_lookup_middle.
  - apply Z.eqb_neq in E0. case_bool_decide; [| done].
    destruct (decide (Z.to_nat i < length l)%nat).
    + by rewrite lookup_app_l.
    + rewrite lookup_app_r by lia.
      rewrite (lookup_ge_None_2 l) by lia.
      destruct (Z.to_nat i - length l)%nat eqn:En; [lia | done].
Qed.

Lemma lookupZ_lt {A : Type} (l : list A) (i : Z) (a : A) :
  lookupZ l i = Some a -> 0 <= i < Z.of_nat (length l).
Proof.
  unfold lookupZ. case_bool_decide as Hi; [| done].
  intros Hl%lookup_lt_Some. lia.
Qed.

Lemma Forall2_upto_lookupZ {B : Type} (P : Z -> B -> Prop) (n : Z) (cs : list B)
    (j : Z) (c : B) :
  Forall2 P (upto n) cs -> lookupZ cs j = Some c -> P j c.
Proof.
  intros HF Hc. pose proof (lookupZ_lt _ _ _ Hc) as Hj.
  rewrite lookupZ_nonneg in Hc by lia.
  destruct (Forall2_lookup_r _ _ _ _ _ HF Hc) as (a & Ha & HP).
  apply lookup_upto in Ha. replace j with a by lia. done.
Qed.

(** [addTopRow], with what the cells hold. *)
Lemma addTopRow_cells (s : RenderState) (F : Z -> Z -> Label) :
  1 <= xMaxChunkLength -> 2 <= yMaxChunkLength -> grid_ok s ->
  (base <= nextId s)%nat -> grid_cells T s F ->
  exists s',
    addTopRow s = Ok tt s' /\ shifted s s'
    /\ currentXOffset s' = currentXOffset s
    /\ currentYOffset s' = currentYOffset s - 1
    /\ (nextId s <= nextId s')%nat
    /\ grid_cells T s'
         (fun i j =>
            if i =? 0
            then mk (XY.mk ((j + currentXOffset s - offsetX) * chunkSize)
                           ((currentYOffset s - 1 - offsetY) * chunkSize))
            else F (i - 1) j).
Proof.
  intros Hx Hy Hs Hbase HF.
  destruct (addTopRow_spec s Hx Hy Hs) as (s' & E & Sh).
  exists s'. split; [done |]. split; [done |].
  pose proof Hs as (Hw & [Hlen Hrows] & [Hnd Hall]).
  destruct (last (rengerGrid s)) as [popped |] eqn:Hlast.
  2:{ apply last_None in Hlast. rewrite Hlast in Hlen. simpl in Hlen. lia. }
  apply last_Some in Hlast as [g' Eg].
  rewrite Eg in Hlen, Hrows, Hnd, Hall.
  rewrite concat_app in Hnd, Hall. simpl in Hnd, Hall. rewrite app_nil_r in Hnd, Hall.
  rewrite length_app in Hlen. simpl in Hlen.
  apply Forall_app in Hrows as [Hrows Hpopped].
  apply NoDup_app in Hnd as (Hnd & Hdisj & _).
  apply Forall_app in Hall as [Hall Hallp].
  unfold addTopRow in E. rewrite bind_gets, Eg, last_snoc, removelast_last in E.
  rewrite !bind_assoc, bind_modify in E.
  destruct (for_each_destroy_frame popped (set_rengerGrid g' s) Hallp)
    as (s2 & E2 & O2 & Fr2 & X2 & Y2).
  rewrite (bind_Ok _ _ _ _ _ E2) in E.
  pose proof O2 as (D2 & C2 & G2 & N2 & H2). simpl in D2, G2, N2, H2, Fr2, X2, Y2.
  assert (W2 : world_ok s2) by (by eapply same_objects_world_ok).
  destruct g' as [| row0 g'']; [simpl in Hlen; lia |].
  pose proof (Forall_inv Hrows) as Hrow0. simpl in Hrow0.
  destruct row0 as [| c0 row0']; [simpl in Hrow0; lia |].
  rewrite (bind_Ok _ _ _ _ _ (readCell_ok 0 0 (c0 :: row0') c0 s2
             ltac:(by rewrite G2) eq_refl)) in E.
  rewrite bind_modify in E.
  set (s3 := set_offsets _ _ _ s2) in E.
  destruct (for_collect_cells (upto xMaxChunkLength)
              (fun x => XY.mk ((x + currentXOffset s3 - offsetX) * chunkSize)
                              ((currentYOffset s3 - offsetY) * chunkSize))
              (fun x => let* xo := gets currentXOffset in
                        let* yo := gets currentYOffset in
                        buildTile (XY.mk ((x + xo - offsetX) * chunkSize)
                                         ((yo - offsetY) * chunkSize)))
              (currentXOffset s3) (currentYOffset s3)) with s3
    as (cs & s4 & E4 & R4 & F4); [| done | simpl; lia | done | done |].
  { intros a s0 W0 N0 X0 Y0.
    destruct (tile_body_cell
                (fun xo yo => XY.mk ((a + xo - offsetX) * chunkSize)
                                    ((yo - offsetY) * chunkSize)) s0 W0 N0)
      as (c & s1 & E1 & T1 & Sh1).
    exists c, s1. split; [done |]. split; [done |]. by rewrite X0, Y0 in Sh1. }
  rewrite (bind_Ok _ _ _ _ _ E4) in E. injection E as <-.
  destruct R4 as (W4 & L4 & Dn4 & A4 & G4 & (Cm4 & _) & H4 & B4 & X4 & Y4 & N4).
  destruct C2 as (Cm2 & _).
  simpl in G4, H4, B4, A4, X4, Y4, Cm4, Cm2. rewrite G2 in G4. rewrite D2 in B4.
  simpl. split; [by rewrite X4, X2 |]. split; [by rewrite Y4, Y2 |].
  split; [simpl in N4; lia |].
  intros i j c Hcell. apply T_set_rengerGrid.
  unfold cellAt in Hcell. simpl in Hcell. rewrite lookupZ_cons in Hcell.
  destruct (i =? 0) eqn:Ei; simpl in Hcell.
  - pose proof (Forall2_upto_lookupZ _ _ _ _ _ F4 Hcell) as Hsh. simpl in Hsh.
    by rewrite X2, Y2 in Hsh.
  - apply Z.eqb_neq in Ei. rewrite G4 in Hcell.
    destruct (lookupZ (_ :: g'') (i - 1)) as [row |] eqn:Hrow; [| done].
    simpl in Hcell.
    pose proof (lookupZ_lt _ _ _ Hrow) as Hi.
    assert (Hold : cellAt s (i - 1) j = Some c).
    { unfold cellAt. rewrite Eg, lookupZ_snoc.
      replace (i - 1 =? Z.of_nat (length ((c0 :: row0') :: g''))) with false
        by (symmetry; apply Z.eqb_neq; lia).
      by rewrite Hrow. }
    assert (Hin : c ∈ concat ((c0 :: row0') :: g'')).
    { by eapply lookupZ_concat_elem. }
    apply (T_frame _ _ s); [by apply HF | | done | by rewrite Cm4].
    rewrite Forall_forall in Hall.
    rewrite H4; [apply Fr2; intros Hp; by eapply Hdisj |].
    simpl. rewrite N2. destruct Hw as (_ & _ & Hh). by apply Hh, Hall.
Qed.

(** [addBottomRow], with what the cells hold. *)
Lemma addBottomRow_cells (s : RenderState) (F : Z -> Z -> Label) :
  1 <= xMaxChunkLength -> 2 <= yMaxChunkLength -> grid_ok s ->
  (base <= nextId s)%nat -> grid_cells T s F ->
  exists s',
    addBottomRow s = Ok tt s' /\ shifted s s'
    /\ currentXOffset s' = currentXOffset s
    /\ currentYOffset s' = currentYOffset s + 1
    /\ (nextId s <= nextId s')%nat
    /\ grid_cells T s'
         (fun i j =>
            if i =? yMaxChunkLength - 1
            then mk (XY.mk ((j + currentXOffset s - offsetX) * chunkSize)
                           ((currentYOffset s + 1 - offsetY + yMaxChunkLength) * chunkSize))
            else F (i + 1) j).
Proof.
  intros Hx Hy Hs Hbase HF.
  destruct (addBottomRow_spec s Hx Hy Hs) as (s' & E & Sh).
  exists s'. split; [done |]. split; [done |].
  pose proof Hs as (Hw & [Hlen Hrows] & [Hnd Hall]).
  destruct (rengerGrid s) as [| shifted0 g'] eqn:Eg; [simpl in Hlen; lia |].
  simpl in Hlen, Hnd, Hall.
  apply Forall_cons in Hrows as [Hshifted Hrows].
  apply NoDup_app in Hnd as (_ & Hdisj & Hnd).
  apply Forall_app in Hall as [Hallp Hall].
  unfold addBottomRow in E. rewrite bind_gets, Eg in E.
  rewrite !bind_assoc, bind_modify in E.
  destruct (for_each_destroy_frame shifted0 (set_rengerGrid g' s) Hallp)
    as (s2 & E2 & O2 & Fr2 & X2 & Y2).
  rewrite (bind_Ok _ _ _ _ _ E2) in E.
  pose proof O2 as (D2 & C2 & G2 & N2 & H2). simpl in D2, G2, N2, H2, Fr2, X2, Y2.
  assert (W2 : world_ok s2) by (by eapply same_objects_world_ok).
  unfold gridLength in E. rewrite bind_gets, G2 in E.
  rewrite (bind_Ok _ _ _ _ _
             (readCell_rect g' (Z.of_nat (length g') - 1) 0 s2 G2 Hrows
                ltac:(lia) ltac:(lia))) in E.
  rewrite bind_modify in E.
  set (s3 := set_offsets _ _ _ s2) in E.
  destruct (for_collect_cells (upto xMaxChunkLength)
              (fun x => XY.mk ((x + currentXOffset s3 - offsetX) * chunkSize)
                              ((currentYOffset s3 - offsetY + yMaxChunkLength) * chunkSize))
              (fun x => let* xo := gets currentXOffset in
                        let* yo := gets currentYOffset in
                        buildTile (XY.mk ((x + xo - offsetX) * chunkSize)
                                         ((yo - offsetY + yMaxChunkLength) * chunkSize)))
              (currentXOffset s3) (currentYOffset s3)) with s3
    as (cs & s4 & E4 & R4 & F4); [| done | simpl; lia | done | done |].
  { intros a s0 W0 N0 X0 Y0.
    destruct (tile_body_cell
                (fun xo yo => XY.mk ((a + xo - offsetX) * chunkSize)
                                    ((yo - offsetY + yMaxChunkLength) * chunkSize)) s0 W0 N0)
      as (c & s1 & E1 & T1 & Sh1).
    exists c, s1. split; [done |]. split; [done |]. by rewrite X0, Y0 in Sh1. }
  rewrite (bind_Ok _ _ _ _ _ E4) in E. injection E as <-.
  destruct R4 as (W4 & L4 & Dn4 & A4 & G4 & (Cm4 & _) & H4 & B4 & X4 & Y4 & N4).
  destruct C2 as (Cm2 & _).
  simpl in G4, H4, B4, A4, X4, Y4, Cm4, Cm2. rewrite G2 in G4. rewrite D2 in B4.
  simpl. split; [by rewrite X4, X2 |]. split; [by rewrite Y4, Y2 |].
  split; [simpl in N4; lia |].
  intros i j c Hcell. apply T_set_rengerGrid.
  unfold cellAt in Hcell. simpl in Hcell. rewrite G4, lookupZ_snoc in Hcell.
  replace (Z.of_nat (length g')) with (yMaxChunkLength - 1) in Hcell by lia.
  destruct (i =? yMaxChunkLength - 1) eqn:Ei; simpl in Hcell.
  - pose proof (Forall2_upto_lookupZ _ _ _ _ _ F4 Hcell) as Hsh. simpl in Hsh.
    by rewrite X2, Y2 in Hsh.
  - apply Z.eqb_neq in Ei.
    destruct (lookupZ g' i) as [row |] eqn:Hrow; [| done].
    simpl in Hcell.
    pose proof (lookupZ_lt _ _ _ Hrow) as Hi.
    assert (Hold : cellAt s (i + 1) j = Some c).
    { unfold cellAt. rewrite Eg, lookupZ_cons.
      replace (i + 1 =? 0) with false by (symmetry; apply Z.eqb_neq; lia).
      replace (i + 1 - 1) with i by lia. by rewrite Hrow. }
    assert (Hin : c ∈ concat g') by (by eapply lookupZ_concat_elem).
    apply (T_frame _ _ s); [by apply HF | | done | by rewrite Cm4].
    rewrite Forall_forall in Hall.
    rewrite H4; [apply Fr2; intros Hp; by eapply Hdisj |].
    simpl. rewrite N2. destruct Hw as (_ & _ & Hh). by apply Hh, Hall.
Qed.

(** One row of a column shift, with what the new cell holds and what stays. *)
Lemma column_step_cells (s : RenderState) (y : Z) (row rest : list nat) (removed : nat)
    (f1 : list nat -> list nat) (f2 : nat -> list nat -> list nat)
    (ctr : XY.t) (tail : M unit) :
  grid_ok s -> (base <= nextId s)%nat -> 0 <= y < yMaxChunkLength ->
  lookupZ (rengerGrid s) y = Some row ->
  row ≡ₚ removed :: rest -> f1 row = rest ->
  (forall c, f2 c rest ≡ₚ c :: rest) ->
  (forall s0, currentXOffset s0 = currentXOffset s ->
              currentYOffset s0 = currentYOffset s ->
     tail s0 = bind (buildTile ctr) (fun c => updateRow y (f2 c)) s0) ->
  exists c s',
    (updateRow y f1 ;;; (destroy removed ;;; tail)) s = Ok tt s' /\ shifted s s'
    /\ rengerGrid s' = <[Z.to_nat y := f2 c rest]> (rengerGrid s)
    /\ T (mk ctr) c s'
    /\ (forall r, r <> removed -> is_Some (containers s !! r) ->
          containers s' !! r = containers s !! r)
    /\ currentXOffset s' = currentXOffset s
    /\ currentYOffset s' = currentYOffset s
    /\ (nextId s <= nextId s')%nat.
Proof.
  intros (Hw & [Hlen Hrows] & [Hnd Hall]) Hbase Hy Hrow Hperm Hf1 Hf2 Htail.
  rewrite lookupZ_nonneg in Hrow by lia.
  assert (Hrowlen : length row = Z.to_nat xMaxChunkLength).
  { rewrite Forall_forall in Hrows. apply Hrows. by eapply list_elem_of_lookup_2. }
  rewrite (bind_Ok _ _ _ _ _ (updateRow_run y f1 s)).
  set (s1 := set_rengerGrid _ s).
  destruct (grid_row_swap (rengerGrid s) (Z.to_nat y) row (f2 0%nat rest) rest removed 0%nat
              Hrow Hperm (Hf2 _)) as (K & HK & _).
  rewrite HK in Hnd, Hall.
  apply NoDup_cons in Hnd as [_ Hnd]. apply Forall_cons in Hall as [Hrem Hall].
  destruct Hrem as [krem Hkrem].
  assert (E2 := destroy_run removed krem s1 Hkrem).
  set (s2 := set_containers_of removed _ s1) in E2.
  rewrite (bind_Ok _ _ _ _ _ E2).
  assert (O2 : same_objects s1 s2) by (by eapply set_containers_of_same_objects).
  pose proof O2 as (D2 & C2 & G2 & N2 & H2). simpl in D2, G2, N2, H2.
  assert (W2 : world_ok s2) by (by eapply same_objects_world_ok).
  rewrite Htail by done.
  destruct (buildTile_cell ctr s2 W2) as (c & s3 & E3 & T3 & Sh3); [simpl; lia |].
  rewrite (bind_Ok _ _ _ _ _ E3). rewrite updateRow_run.
  exists c. eexists. split; [reflexivity |].
  destruct T3 as (W3 & Ec & N3 & G3 & C3 & H3 & S3 & B3 & X3 & Y3).
  rewrite G3. change (rengerGrid s2) with (alter f1 (Z.to_nat y) (rengerGrid s)).
  rewrite (alter_alter_insert _ _ _ _ _ Hrow), Hf1.
  destruct (grid_row_swap (rengerGrid s) (Z.to_nat y) row (f2 c rest) rest removed c
              Hrow Hperm (Hf2 _)) as (K' & HK1 & HK2).
  assert (EK : K ≡ₚ K').
  { apply (Permutation_cons_inv (a := removed)). by rewrite <- HK, <- HK1. }
  destruct (fresh_refs_ok s2 s3 K [c]) as [Hnd' Hall']; try done.
  { by destruct W2 as (_ & _ & Hh). }
  { eapply Forall_impl; [exact Hall |]. intros r Hr. by apply H2. }
  { apply NoDup_singleton. }
  { constructor; [| done]. split; [lia | done]. }
  { intros r Hr. apply H3. lia. }
  split; [| split_and!].
  - unfold shifted, grid_ok, grid_rect, grid_refs_ok. simpl.
    split_and!; try done.
    + by rewrite length_insert.
    + apply Forall_insert; [done |].
      rewrite (Permutation_length (Hf2 c)). simpl.
      rewrite <- Hrowlen, (Permutation_length Hperm). done.
    + by rewrite HK2, <- EK.
    + by rewrite HK2, <- EK.
  - reflexivity.
  - by apply T_set_rengerGrid.
  - intros r Hr Hsome. simpl. rewrite H3.
    + unfold s2. simpl. by rewrite lookup_insert_ne.
    + intros ->. destruct Hw as (_ & _ & Hh). apply Hh in Hsome.
      rewrite Ec in Hsome. unfold s2, s1 in Hsome. simpl in Hsome. lia.
  - simpl. by rewrite X3.
  - simpl. by rewrite Y3.
  - simpl. unfold s2, s1 in N3. simpl in N3. lia.
Qed.

Lemma grid_cells_ext (s : RenderState) (F1 F2 : Z -> Z -> Label) :
  (forall i j, 0 <= i < Z.of_nat (length (rengerGrid s)) -> 0 <= j -> F1 i j = F2 i j) ->
  grid_cells T s F1 -> grid_cells T s F2.
Proof.
  intros Hext H1 i j c Hcell. rewrite <- Hext; [by apply H1 | |].
  - unfold cellAt in Hcell. destruct (lookupZ (rengerGrid s) i) eqn:Hrow; [| done].
    by apply lookupZ_lt in Hrow.
  - unfold cellAt in Hcell. destruct (lookupZ (rengerGrid s) i) eqn:Hrow; [| done].
    simpl in Hcell. by apply lookupZ_lt in Hcell as [? _].
Qed.

Lemma lookupZ_insert {A : Type} (l : list A) (n : nat) (x : A) (i : Z) :
  (n < length l)%nat ->
  lookupZ (<[n := x]> l) i = if i =? Z.of_nat n then Some x else lookupZ l i.
Proof.
  intros Hn. unfold lookupZ. destruct (i =? Z.of_nat n) eqn:Ei.
  - apply Z.eqb_eq in Ei as ->. rewrite bool_decide_eq_true_2 by lia.
    rewrite Nat2Z.id. by apply list_lookup_insert_eq.
  - apply Z.eqb_neq in Ei. case_bool_decide as Hi; [| done].
    apply list_lookup_insert_ne. lia.
Qed.

(** One row of a column shift, as a change of the window: in row [y] the
    new tile sits at column [jnew] and the other cells come from the
    columns [sigma] names; the other rows are as before. *)
Lemma column_step_window (s : RenderState) (y : Z) (row rest : list nat) (removed : nat)
    (f1 : list nat -> list nat) (f2 : nat -> list nat -> list nat)
    (ctr : XY.t) (tail : M unit) (F : Z -> Z -> Label) (jnew : Z) (sigma : Z -> Z) :
  grid_ok s -> (base <= nextId s)%nat -> 0 <= y < yMaxChunkLength ->
  lookupZ (rengerGrid s) y = Some row ->
  row ≡ₚ removed :: rest -> f1 row = rest ->
  (forall c, f2 c rest ≡ₚ c :: rest) ->
  (forall s0, currentXOffset s0 = currentXOffset s ->
              currentYOffset s0 = currentYOffset s ->
     tail s0 = bind (buildTile ctr) (fun c => updateRow y (f2 c)) s0) ->
  (forall c j c', lookupZ (f2 c rest) j = Some c' ->
     if j =? jnew then c' = c else lookupZ row (sigma j) = Some c' /\ c' ∈ rest) ->
  grid_cells T s F ->
  exists s',
    (updateRow y f1 ;;; (destroy removed ;;; tail)) s = Ok tt s' /\ shifted s s'
    /\ currentXOffset s' = currentXOffset s
    /\ currentYOffset s' = currentYOffset s
    /\ (nextId s <= nextId s')%nat
    /\ grid_cells T s'
         (fun i j => if i =? y then (if j =? jnew then mk ctr else F y (sigma j)) else F i j).
Proof.
  intros Hs Hbase Hy Hrow Hperm Hf1 Hf2 Htail Hcols HF.
  destruct (column_step_cells s y row rest removed f1 f2 ctr tail
              Hs Hbase Hy Hrow Hperm Hf1 Hf2 Htail)
    as (c & s' & E & Sh & G & Tc & Fr & X & Y & N).
  exists s'. split_and!; try done.
  destruct Hs as (Hw & [Hlen Hrows] & [Hnd Hall]).
  pose proof Sh as (_ & Hb & (Hm & _)).
  pose proof (lookupZ_lt _ _ _ Hrow) as Hylen.
  assert (Hndrow : NoDup (removed :: rest)).
  { rewrite <- Hperm. apply lookupZ_Some_nonneg in Hrow as [_ Hrow].
    rewrite <- (take_drop_middle _ _ _ Hrow), concat_app, concat_cons in Hnd.
    apply NoDup_app in Hnd as (_ & _ & Hnd). by apply NoDup_app in Hnd as (Hnd & _). }
  apply NoDup_cons in Hndrow as [Hnotin _].
  intros i j c' Hcell. unfold cellAt in Hcell. rewrite G, lookupZ_insert in Hcell by lia.
  rewrite Z2Nat.id in Hcell by lia.
  destruct (i =? y) eqn:Ei.
  - simpl in Hcell. specialize (Hcols c j c' Hcell).
    destruct (j =? jnew); [by subst c' |].
    destruct Hcols as [Hold Hin].
    apply Z.eqb_eq in Ei as ->.
    apply (T_frame _ _ s); [| | done | done].
    + apply HF. unfold cellAt. by rewrite Hrow.
    + apply Fr; [intros ->; by apply Hnotin |].
      rewrite Forall_forall in Hall. apply Hall.
      by eapply lookupZ_concat_elem.
  - apply Z.eqb_neq in Ei.
    destruct (lookupZ (rengerGrid s) i) as [row' |] eqn:Hrow'; [| done].
    simpl in Hcell.
    apply (T_frame _ _ s); [| | done | done].
    + apply HF. unfold cellAt. by rewrite Hrow'.
    + apply Fr.
      * intros ->.
        apply lookupZ_Some_nonneg in Hrow' as [Hi Hrow'].
        apply lookupZ_Some_nonneg in Hcell as [Hj Hcell].
        apply lookupZ_Some_nonneg in Hrow as [_ Hrow].
        assert (Hrem : removed ∈ row) by (rewrite Hperm; by left).
        apply list_elem_of_lookup_1 in Hrem as [j' Hj'].
        destruct (NoDup_concat_cell _ _ _ _ _ _ _ _ Hnd Hrow' Hcell Hrow Hj') as [Heq _].
        lia.
      * rewrite Forall_forall in Hall. apply Hall.
        by eapply lookupZ_concat_elem.
Qed.

(** [addRightColumn], with what the cells hold. *)
Lemma addRightColumn_cells (s : RenderState) (F : Z -> Z -> Label) :
  1 <= xMaxChunkLength -> grid_ok s -> (base <= nextId s)%nat -> grid_cells T s F ->
  exists s',
    addRightColumn s = Ok tt s' /\ shifted s s'
    /\ currentXOffset s' = currentXOffset s + 1
    /\ currentYOffset s' = currentYOffset s
    /\ (nextId s <= nextId s')%nat
    /\ grid_cells T s'
         (fun i j =>
            if j =? xMaxChunkLength - 1
            then mk (XY.mk ((xMaxChunkLength - 1 + (currentXOffset s + 1)) * chunkSize)
                           ((i + currentYOffset s - offsetY) * chunkSize))
            else F i (j + 1)).
Proof.
  intros Hx Hs Hbase HF. unfold addRightColumn. rewrite bind_modify.
  set (xo := currentXOffset s). set (yo := currentYOffset s).
  set (F' := fun i j : Z =>
               if j =? xMaxChunkLength - 1
               then mk (XY.mk ((xMaxChunkLength - 1 + (xo + 1)) * chunkSize)
                              ((i + yo - offsetY) * chunkSize))
               else F i (j + 1)).
  set (s0 := set_offsets _ _ _ s).
  set (I := fun (n : nat) (s1 : RenderState) =>
              shifted s s1 /\ currentXOffset s1 = xo + 1 /\ currentYOffset s1 = yo
              /\ (nextId s <= nextId s1)%nat
              /\ grid_cells T s1 (fun i j => if i <? Z.of_nat n then F' i j else F i j)).
  destruct (for_each_inv_count I (upto yMaxChunkLength)
    (fun y =>
       let* row := rowAt y in
       readCell y (Z.of_nat (length row) - 1) ;;;
       match row with
       | first :: rest => updateRow y (fun _ => rest) ;;; destroy first
       | [] => ret tt
       end ;;;
       let* xo := gets currentXOffset in
       let* yo := gets currentYOffset in
       let* container :=
         buildTile (XY.mk ((xMaxChunkLength - 1 + xo) * chunkSize)
                          ((y + yo - offsetY) * chunkSize)) in
       updateRow y (fun r => r ++ [container])) 0%nat) with s0
    as (s' & E & Sh & X & Y & N & G).
  - intros n y s1 Hn (Sh1 & X1 & Y1 & N1 & G1). simpl.
    apply lookup_upto in Hn as [-> Hy].
    pose proof Sh1 as (Gok1 & _). pose proof Gok1 as (_ & R1 & _).
    destruct (grid_rect_lookup _ (Z.of_nat n) R1 Hy) as (row & Hrow & Hlen).
    destruct row as [| first rest]; [simpl in Hlen; lia |].
    rewrite (bind_Ok _ _ _ _ _ (rowAt_ok (Z.of_nat n) _ s1 Hrow)).
    destruct (lookupZ_is_Some (first :: rest) (Z.of_nat (length (first :: rest)) - 1))
      as [c Hc]; [simpl; lia |].
    rewrite (bind_Ok _ _ _ _ _ (readCell_ok (Z.of_nat n) _ _ c s1 Hrow Hc)).
    rewrite bind_assoc.
    destruct (column_step_window s1 (Z.of_nat n) (first :: rest) rest first (fun _ => rest)
                (fun c r => r ++ [c])
                (XY.mk ((xMaxChunkLength - 1 + (xo + 1)) * chunkSize)
                       ((Z.of_nat n + yo - offsetY) * chunkSize))
                (let* xo := gets currentXOffset in
                 let* yo := gets currentYOffset in
                 let* container :=
                   buildTile (XY.mk ((xMaxChunkLength - 1 + xo) * chunkSize)
                                    ((Z.of_nat n + yo - offsetY) * chunkSize)) in
                 updateRow (Z.of_nat n) (fun r => r ++ [container]))
                (fun i j => if i <? Z.of_nat n then F' i j else F i j)
                (xMaxChunkLength - 1) (fun j => j + 1))
      as (s2 & E2 & Sh2 & X2 & Y2 & N2 & G2); try done; try lia.
    { intros c0. by rewrite Permutation_app_comm. }
    { intros s3 X3 Y3. rewrite !bind_gets. by rewrite X3, Y3, X1, Y1. }
    { intros c0 j c' Hj. rewrite lookupZ_snoc in Hj.
      replace (Z.of_nat (length rest)) with (xMaxChunkLength - 1) in Hj
        by (simpl in Hlen; lia).
      destruct (j =? xMaxChunkLength - 1); [congruence |].
      split; [| by eapply lookupZ_elem_of].
      rewrite lookupZ_cons.
      pose proof (lookupZ_lt _ _ _ Hj) as Hjr.
      replace (j + 1 =? 0) with false by (symmetry; apply Z.eqb_neq; lia).
      by replace (j + 1 - 1) with j by lia. }
    exists s2. split; [exact E2 |]. unfold I. split_and!.
    + by eapply shifted_trans.
    + by rewrite X2.
    + by rewrite Y2.
    + lia.
    + eapply grid_cells_ext; [| exact G2]. intros i j Hi Hj. simpl.
      destruct (i =? Z.of_nat n) eqn:Ei.
      * apply Z.eqb_eq in Ei as ->.
        replace (Z.of_nat n <? Z.of_nat (S n)) with true by (symmetry; apply Z.ltb_lt; lia).
        replace (Z.of_nat n <? Z.of_nat n) with false by (symmetry; apply Z.ltb_ge; lia).
        unfold F'. by destruct (j =? xMaxChunkLength - 1).
      * apply Z.eqb_neq in Ei.
        destruct (i <? Z.of_nat n) eqn:Ein.
        -- apply Z.ltb_lt in Ein.
           by replace (i <? Z.of_nat (S n)) with true by (symmetry; apply Z.ltb_lt; lia).
        -- apply Z.ltb_ge in Ein.
           by replace (i <? Z.of_nat (S n)) with false by (symmetry; apply Z.ltb_ge; lia).
  - unfold I. split_and!; [by apply (shifted_refl s) | done | done | done |].
    intros i j c Hcell. simpl.
    assert (Hi : 0 <= i).
    { unfold cellAt in Hcell. destruct (lookupZ (rengerGrid s0) i) eqn:Hrow; [| done].
      by apply lookupZ_lt in Hrow as [? _]. }
    change (Z.of_nat 0) with 0.
    replace (i <? 0) with false by (symmetry; apply Z.ltb_ge; lia).
    apply (T_frame _ _ s); [exact (HF i j c Hcell) | done | done | done].
  - exists s'. split; [exact E |]. split_and!; try done.
    eapply grid_cells_ext; [| exact G]. intros i j Hi Hj. simpl.
    destruct Sh as ((_ & [Hlen _] & _) & _). rewrite length_upto.
    replace (i <? Z.of_nat (Z.to_nat yMaxChunkLength)) with true
      by (symmetry; apply Z.ltb_lt; lia).
    done.
Qed.

(** [addLeftColumn], with what the cells hold. *)
Lemma addLeftColumn_cells (s : RenderState) (F : Z -> Z -> Label) :
  1 <= xMaxChunkLength -> grid_ok s -> (base <= nextId s)%nat -> grid_cells T s F ->
  exists s',
    addLeftColumn s = Ok tt s' /\ shifted s s'
    /\ currentXOffset s' = currentXOffset s - 1
    /\ currentYOffset s' = currentYOffset s
    /\ (nextId s <= nextId s')%nat
    /\ grid_cells T s'
         (fun i j =>
            if j =? 0
            then mk (XY.mk ((0 + (currentXOffset s - 1) - offsetX) * chunkSize)
                           ((i + currentYOffset s - offsetY) * chunkSize))
            else F i (j - 1)).
Proof.
  intros Hx Hs Hbase HF. unfold addLeftColumn. rewrite bind_modify.
  set (xo := currentXOffset s). set (yo := currentYOffset s).
  set (F' := fun i j : Z =>
               if j =? 0
               then mk (XY.mk ((0 + (xo - 1) - offsetX) * chunkSize)
                              ((i + yo - offsetY) * chunkSize))
               else F i (j - 1)).
  set (s0 := set_offsets _ _ _ s).
  set (I := fun (n : nat) (s1 : RenderState) =>
              shifted s s1 /\ currentXOffset s1 = xo - 1 /\ currentYOffset s1 = yo
              /\ (nextId s <= nextId s1)%nat
              /\ grid_cells T s1 (fun i j => if i <? Z.of_nat n then F' i j else F i j)).
  destruct (for_each_inv_count I (upto yMaxChunkLength)
    (fun y =>
       readCell y 0 ;;;
       let* row := rowAt y in
       match last row with
       | Some popped => updateRow y (fun r => removelast r) ;;; destroy popped
       | None => ret tt
       end ;;;
       let* xo := gets currentXOffset in
       let* yo := gets currentYOffset in
       let* container :=
         buildTile (XY.mk ((0 + xo - offsetX) * chunkSize)
                          ((y + yo - offsetY) * chunkSize)) in
       updateRow y (fun r => container :: r)) 0%nat) with s0
    as (s' & E & Sh & X & Y & N & G).
  - intros n y s1 Hn (Sh1 & X1 & Y1 & N1 & G1). simpl.
    apply lookup_upto in Hn as [-> Hy].
    pose proof Sh1 as (Gok1 & _). pose proof Gok1 as (_ & R1 & _).
    destruct (grid_rect_lookup _ (Z.of_nat n) R1 Hy) as (row & Hrow & Hlen).
    destruct (lookupZ_is_Some row 0) as [c Hc]; [lia |].
    rewrite (bind_Ok _ _ _ _ _ (readCell_ok (Z.of_nat n) _ _ c s1 Hrow Hc)).
    rewrite (bind_Ok _ _ _ _ _ (rowAt_ok (Z.of_nat n) _ s1 Hrow)).
    destruct (last row) as [popped |] eqn:Hlast.
    2:{ apply last_None in Hlast. subst row. simpl in Hlen. lia. }
    apply last_Some in Hlast as [rest Erow]. subst row.
    rewrite bind_assoc.
    destruct (column_step_window s1 (Z.of_nat n) (rest ++ [popped]) rest popped
                (fun r => removelast r) (fun c r => c :: r)
                (XY.mk ((0 + (xo - 1) - offsetX) * chunkSize)
                       ((Z.of_nat n + yo - offsetY) * chunkSize))
                (let* xo := gets currentXOffset in
                 let* yo := gets currentYOffset in
                 let* container :=
                   buildTile (XY.mk ((0 + xo - offsetX) * chunkSize)
                                    ((Z.of_nat n + yo - offsetY) * chunkSize)) in
                 updateRow (Z.of_nat n) (fun r => container :: r))
                (fun i j => if i <? Z.of_nat n then F' i j else F i j)
                0 (fun j => j - 1))
      as (s2 & E2 & Sh2 & X2 & Y2 & N2 & G2); try done; try lia.
    { by rewrite Permutation_app_comm. }
    { apply removelast_last. }
    { intros s3 X3 Y3. rewrite !bind_gets. by rewrite X3, Y3, X1, Y1. }
    { intros c0 j c' Hj. rewrite lookupZ_cons in Hj.
      destruct (j =? 0); [congruence |].
      split; [| by eapply lookupZ_elem_of].
      rewrite lookupZ_snoc.
      pose proof (lookupZ_lt _ _ _ Hj) as Hjr.
      by replace (j - 1 =? Z.of_nat (length rest)) with false
        by (symmetry; apply Z.eqb_neq; lia). }
    exists s2. split; [exact E2 |]. unfold I. split_and!.
    + by eapply shifted_trans.
    + by rewrite X2.
    + by rewrite Y2.
    + lia.
    + eapply grid_cells_ext; [| exact G2]. intros i j Hi Hj. simpl.
      destruct (i =? Z.of_nat n) eqn:Ei.
      * apply Z.eqb_eq in Ei as ->.
        replace (Z.of_nat n <? Z.of_nat (S n)) with true by (symmetry; apply Z.ltb_lt; lia).
        replace (Z.of_nat n <? Z.of_nat n) with false by (symmetry; apply Z.ltb_ge; lia).
        unfold F'. by destruct (j =? 0).
      * apply Z.eqb_neq in Ei.
        destruct (i <? Z.of_nat n) eqn:Ein.
        -- apply Z.ltb_lt in Ein.
           by replace (i <? Z.of_nat (S n)) with true by (symmetry; apply Z.ltb_lt; lia).
        -- apply Z.ltb_ge in Ein.
           by replace (i <? Z.of_nat (S n)) with false by (symmetry; apply Z.ltb_ge; lia).
  - unfold I. split_and!; [by apply (shifted_refl s) | done | done | done |].
    intros i j c Hcell. simpl.
    assert (Hi : 0 <= i).
    { unfold cellAt in Hcell. destruct (lookupZ (rengerGrid s0) i) eqn:Hrow; [| done].
      by apply lookupZ_lt in Hrow as [? _]. }
    change (Z.of_nat 0) with 0.
    replace (i <? 0) with false by (symmetry; apply Z.ltb_ge; lia).
    apply (T_frame _ _ s); [exact (HF i j c Hcell) | done | done | done].
  - exists s'. split; [exact E |]. split_and!; try done.
    eapply grid_cells_ext; [| exact G]. intros i j Hi Hj. simpl.
    destruct Sh as ((_ & [Hlen _] & _) & _). rewrite length_upto.
    replace (i <? Z.of_nat (Z.to_nat yMaxChunkLength)) with true
      by (symmetry; apply Z.ltb_lt; lia).
    done.
Qed.


End Cells.

(** *** The tiles the cells show *)









(** *** Where the containers of the cells come from *)

Lemma cellAt_lt (s : RenderState) (i j : Z) (c : nat) :
  grid_rect (rengerGrid s) -> cellAt s i j = Some c ->
  0 <= i < yMaxChunkLength /\ 0 <= j < xMaxChunkLength.
Proof.
  intros [Hlen Hrows] Hcell. unfold cellAt in Hcell.
  destruct (lookupZ (rengerGrid s) i) as [row |] eqn:Hrow; [| done]. simpl in Hcell.
  pose proof (lookupZ_lt _ _ _ Hrow) as Hi. pose proof (lookupZ_lt _ _ _ Hcell) as Hj.
  rewrite Forall_forall in Hrows.
  rewrite (Hrows row) in Hj by (by eapply lookupZ_elem_of). lia.
Qed.

Lemma cellAt_inj (s : RenderState) (i j i' j' : Z) (c : nat) :
  NoDup (concat (rengerGrid s)) ->
  cellAt s i j = Some c -> cellAt s i' j' = Some c -> i = i' /\ j = j'.
Proof.
  intros Hnd H1 H2. unfold cellAt in H1, H2.
  destruct (lookupZ (rengerGrid s) i) as [row |] eqn:Hrow; [| done].
  destruct (lookupZ (rengerGrid s) i') as [row' |] eqn:Hrow'; [| done].
  simpl in H1, H2.
  apply lookupZ_Some_nonneg in Hrow as [Hi Hrow].
  apply lookupZ_Some_nonneg in Hrow' as [Hi' Hrow'].
  apply lookupZ_Some_nonneg in H1 as [Hj H1].
  apply lookupZ_Some_nonneg in H2 as [Hj' H2].
  destruct (NoDup_concat_cell _ _ _ _ _ _ _ _ Hnd Hrow H1 Hrow' H2). lia.
Qed.

Lemma cellAt_is_Some (s : RenderState) (i j : Z) (c : nat) :
  grid_refs_ok s -> cellAt s i j = Some c -> is_Some (containers s !! c).
Proof.
  intros [_ Hall] Hcell. unfold cellAt in Hcell.
  destruct (lookupZ (rengerGrid s) i) as [row |] eqn:Hrow; [| done]. simpl in Hcell.
  rewrite Forall_forall in Hall. apply Hall. by eapply lookupZ_concat_elem.
Qed.

(** One shift: it returns, keeps the invariant and replaces one edge. *)
Lemma shift_edge (op : Shift) (s : RenderState) :
  1 <= xMaxChunkLength -> 2 <= yMaxChunkLength -> grid_ok s ->
  exists s', shift op s = Ok tt s' /\ shifted s s' /\ edge_replaced op s s'.
Proof.
  intros Hx Hy Hs.
  pose proof Hs as ((_ & _ & Hheap) & Hrect & Hrefs).
  set (T := fun (source : option (Z * Z)) (c : nat) (_ : RenderState) =>
              came_from s source c).
  assert (Hframe : forall l c s1 s2, T l c s1 ->
            containers s2 !! c = containers s1 !! c ->
            same_blocks (dimension s1) (dimension s2) ->
            colorMapper s2 = colorMapper s1 -> T l c s2) by done.
  assert (Hbuilt : forall ctr s1 c s2, world_ok s1 -> (nextId s <= nextId s1)%nat ->
            buildTile ctr s1 = Ok c s2 -> tile_built s1 c s2 ->
            T ((fun _ : XY.t => @None (Z * Z)) ctr) c s2).
  { intros ctr s1 c s2 _ Hn _ (_ & -> & _). unfold T. simpl.
    destruct (containers s !! nextId s1) eqn:Hc; [| done].
    assert (nextId s1 < nextId s)%nat by (apply Hheap; eauto). lia. }
  assert (H0 : grid_cells T s (fun i j => Some (i, j))) by (by intros i j c Hc).
  assert (Hgoal : exists s', shift op s = Ok tt s' /\ shifted s s'
                    /\ grid_cells T s' (shift_source op)).
  { destruct op; simpl.
    - destruct (addTopRow_cells T _ _ Hframe Hbuilt s _ Hx Hy Hs (le_n _) H0)
        as (s' & E & Sh & _ & _ & _ & G).
      exists s'. by split_and!.
    - destruct (addBottomRow_cells T _ _ Hframe Hbuilt s _ Hx Hy Hs (le_n _) H0)
        as (s' & E & Sh & _ & _ & _ & G).
      exists s'. by split_and!.
    - destruct (addRightColumn_cells T _ _ Hframe Hbuilt s _ Hx Hs (le_n _) H0)
        as (s' & E & Sh & _ & _ & _ & G).
      exists s'. by split_and!.
    - destruct (addLeftColumn_cells T _ _ Hframe Hbuilt s _ Hx Hs (le_n _) H0)
        as (s' & E & Sh & _ & _ & _ & G).
      exists s'. by split_and!. }
  destruct Hgoal as (s' & E & Sh & G).
  exists s'. split_and!; try done.
  pose proof Sh as ((_ & Hrect' & _) & _).
  unfold edge_replaced. split_and!; [done | exact G |].
  intros i j c Hc Hrem i' j' Hc'.
  pose proof (cellAt_lt s' i' j' c Hrect' Hc') as [Hi' Hj'].
  specialize (G i' j' c Hc'). unfold T, came_from in G.
  destruct (shift_source op i' j') as [[i0 j0] |] eqn:Hsrc.
  - destruct Hrefs as [Hnd _].
    destruct (cellAt_inj s i0 j0 i j c Hnd G Hc) as [-> ->].
    destruct op; simpl in Hsrc, Hrem.
    + destruct (i' =? 0); [done |]. injection Hsrc as Hi Hj.
      apply Z.eqb_eq in Hrem. lia.
    + destruct (i' =? yMaxChunkLength - 1); [done |]. injection Hsrc as Hi Hj.
      apply Z.eqb_eq in Hrem. lia.
    + destruct (j' =? xMaxChunkLength - 1); [done |]. injection Hsrc as Hi Hj.
      apply Z.eqb_eq in Hrem. lia.
    + destruct (j' =? 0); [done |]. injection Hsrc as Hi Hj.
      apply Z.eqb_eq in Hrem. lia.
  - destruct (cellAt_is_Some s i j c Hrefs Hc) as [k Hk]. congruence.
Qed.

Lemma shifts_edges (ops : list Shift) (s : RenderState) :
  1 <= xMaxChunkLength -> 2 <= yMaxChunkLength -> grid_ok s ->
  shifts_replace_edges ops s.
Proof.
  intros Hx Hy. revert s. induction ops as [| op ops IH]; intros s Hs; simpl; [done |].
  destruct (shift_edge op s Hx Hy Hs) as (s' & E & (G & _) & Hedge).
  exists s'. split_and!; try done. by apply IH.
Qed.

(** C4 (as the code has it).  After [initStage] and any further actions that
    keep to the proviso of [safe_action] (every colour registered is of the
    form #hhhhhh, no type named like a member of [Object.prototype] is
    selected), with a generator that makes no block of such a name, whatever
    sequence of [addTopRow], [addBottomRow], [addRightColumn] and
    [addLeftColumn] runs, every shift returns and replaces one edge: the grid
    is again a complete rectangle of [yMaxChunkLength] rows of
    [xMaxChunkLength] containers, each container has moved one cell over or
    is a new one at the edge the shift fills, and the containers of the
    opposite edge are in no cell any more. *)
Theorem shifts_keep_grid_rectangular (ctr : option XY.t) (acts : list Action)
    (ops : list Shift) :
  1 <= xMaxChunkLength -> 2 <= yMaxChunkLength -> generator_ok ->
  forallb safe_action acts = true ->
  exists s0 s2,
    initStage ctr initial_state = Ok tt s0
    /\ grid_rect (rengerGrid s0)
    /\ grid_rect (rengerGrid (after_actions acts s0))
    /\ shifts_replace_edges ops (after_actions acts s0)
    /\ run_shifts ops (after_actions acts s0) = Ok tt s2
    /\ grid_rect (rengerGrid s2).
Proof.
  intros Hx Hy Hgen Hsafe.
  destruct (initStage_spec ctr initial_state (initial_state_world_ok Hgen) eq_refl)
    as (s0 & E0 & (G0 & _)).
  pose proof (after_actions_grid_ok acts s0 Hx Hy Hsafe G0) as G1.
  destruct (run_shifts_spec ops _ Hx Hy G1) as (s2 & E2 & (G2 & _)).
  exists s0, s2. split_and!; try done.
  - by destruct G0 as (_ & ? & _).
  - by destruct G1 as (_ & ? & _).
  - by apply shifts_edges.
  - by destruct G2 as (_ & ? & _).
Qed.

(** C5 (as the code has it).  After [initStage] and any further actions that
    keep to the proviso of [safe_action] (ticks, pointer-downs, key events,
    selections of types not named like a member of [Object.prototype],
    registrations of colours of the form #hhhhhh), with a generator that makes
    no block of such a name, a tick, whichever of its four shifts fire,
    returns with every cell of the grid holding a container whose [indexPos]
    is the cell's row and column. *)
Theorem tick_stamps_every_cell (ctr : option XY.t) (acts : list Action)
    (top bottom right left : bool) :
  1 <= xMaxChunkLength -> 2 <= yMaxChunkLength -> generator_ok ->
  forallb safe_action acts = true ->
  exists s0 s2,
    initStage ctr initial_state = Ok tt s0
    /\ tick top bottom right left (after_actions acts s0) = Ok tt s2
    /\ indexed_ok s2.
Proof.
  intros Hx Hy Hgen Hsafe.
  destruct (initStage_spec ctr initial_state (initial_state_world_ok Hgen) eq_refl)
    as (s0 & E0 & (G0 & _)).
  pose proof (after_actions_grid_ok acts s0 Hx Hy Hsafe G0) as G1.
  destruct (tick_spec top bottom right left _ Hx Hy G1) as (s2 & E2 & _ & I2).
  by exists s0, s2.
Qed.







End Render.

(** C1 (refuted on the code). With [Chunk.HEIGHT = 16] and the render position
    (0, 0, 0), which lies in the height-bounded domain, converting to the data
    model and back yields (0, 15, 15); likewise the data position (0, 0, 0) comes
    back as (0, 15, 15).  [convertRenderBlockPosToBlockPos] is not the inverse of
    [convertBlockPosToRenderBlockPos]. *)
Theorem convert_roundtrip_fails_at_origin :
  let r := RenderBlockPos.mk 0 0 0 in
  let p := BlockPos.mk 0 0 0 in
  (0 <= RenderBlockPos.y r < 16 /\ 0 <= RenderBlockPos.z r < 16 /\ 0 <= BlockPos.z p < 16)
  /\ convertBlockPosToRenderBlockPos 16 (convertRenderBlockPosToBlockPos 16 r)
     = RenderBlockPos.mk 0 15 15
  /\ convertBlockPosToRenderBlockPos 16 (convertRenderBlockPosToBlockPos 16 r) <> r
  /\ convertRenderBlockPosToBlockPos 16 (convertBlockPosToRenderBlockPos 16 p)
     = BlockPos.mk 0 15 15
  /\ convertRenderBlockPosToBlockPos 16 (convertBlockPosToRenderBlockPos 16 p) <> p.
Proof.
  cbv zeta. repeat split; try lia; try reflexivity; discriminate.
Qed.

(** ** The facing latch *)

Lemma parseInt_digit_key (d : Z) :
  0 <= d <= 9 -> JS.parseInt (digit_key d) 10 = Some d.
Proof.
  intros Hd.
  assert (Hcases : d = 0 \/ d = 1 \/ d = 2 \/ d = 3 \/ d = 4 \/ d = 5 \/ d = 6
                   \/ d = 7 \/ d = 8 \/ d = 9) by lia.
  repeat (destruct Hcases as [-> | Hcases]; [reflexivity |]).
  subst d. reflexivity.
Qed.

Lemma keydown_digit (d : Z) (ks : KeyState) :
  1 <= d <= 6 -> keydown (digit_key d) ks = Facing d.
Proof.
  intros Hd. unfold keydown. rewrite parseInt_digit_key by lia. simpl.
  replace (1 <=? d) with true by (symmetry; apply Z.leb_le; lia).
  replace (d <=? 6) with true by (symmetry; apply Z.leb_le; lia).
  reflexivity.
Qed.

Lemma keyup_digit (d : Z) (ks : KeyState) :
  1 <= d <= 6 -> keyup (digit_key d) ks = Neutral.
Proof.
  intros Hd. unfold keyup. rewrite parseInt_digit_key by lia. simpl.
  replace (1 <=? d) with true by (symmetry; apply Z.leb_le; lia).
  replace (d <=? 6) with true by (symmetry; apply Z.leb_le; lia).
  reflexivity.
Qed.

Lemma key_run_app (es1 es2 : list KeyEvent) (ks : KeyState) :
  key_run (es1 ++ es2) ks = key_run es2 (key_run es1 ks).
Proof. unfold key_run. apply foldl_app. Qed.

(** The digit 1..6 a key stands for, if any: what both listeners test. *)
Definition names_digit (event_key : string) (d : Z) : Prop :=
  JS.parseInt event_key 10 = Some d /\ 1 <= d <= 6.

Lemma keydown_cases (event_key : string) (ks : KeyState) :
  (exists d, names_digit event_key d /\ keydown event_key ks = Facing d)
  \/ ((forall d, ~ names_digit event_key d) /\ keydown event_key ks = ks).
Proof.
  unfold keydown, names_digit.
  destruct (JS.parseInt event_key 10) as [d |]; simpl.
  - destruct (1 <=? d) eqn:H1; destruct (d <=? 6) eqn:H6; simpl;
      try (right; split; [intros d' [[= ->] ?]; lia | reflexivity]).
    left. exists d. split; [split; [done | lia] | done].
  - right. split; [by intros d [? ?] | done].
Qed.

Lemma keyup_cases (event_key : string) (ks : KeyState) :
  (exists d, names_digit event_key d /\ keyup event_key ks = Neutral)
  \/ ((forall d, ~ names_digit event_key d) /\ keyup event_key ks = ks).
Proof.
  unfold keyup, names_digit.
  destruct (JS.parseInt event_key 10) as [d |]; simpl.
  - destruct (1 <=? d) eqn:H1; destruct (d <=? 6) eqn:H6; simpl;
      try (right; split; [intros d' [[= ->] ?]; lia | reflexivity]).
    left. exists d. split; [split; [done | lia] | done].
  - right. split; [by intros d [? ?] | done].
Qed.

(** C2 (as the code has it).  After any event sequence, a keydown of a digit
    d in 1..6 latches Facing(d), whatever was latched before (last pressed
    wins), and a keyup of any digit d in 1..6 releases the latch to Neutral,
    whether or not d is the digit that is latched.  Nothing else moves the
    latch: an event whose key does not stand for a digit 1..6 leaves it as it
    was, an event that changes it is a keydown of a digit, which latches that
    digit, or a keyup of a digit, which releases; so the latch goes back to
    Neutral only on the keyup of a digit. *)
Theorem latch_after_digit_event (es : list KeyEvent) (ks : KeyState) (d : Z) :
  1 <= d <= 6 ->
  key_run (es ++ [KeyDown (digit_key d)]) ks = Facing d
  /\ key_run (es ++ [KeyUp (digit_key d)]) ks = Neutral
  /\ (forall event_key,
        (forall d', ~ names_digit event_key d') ->
        key_run (es ++ [KeyDown event_key]) ks = key_run es ks
        /\ key_run (es ++ [KeyUp event_key]) ks = key_run es ks)
  /\ (forall e,
        key_run (es ++ [e]) ks <> key_run es ks ->
        exists event_key d',
          names_digit event_key d'
          /\ ((e = KeyDown event_key /\ key_run (es ++ [e]) ks = Facing d')
              \/ (e = KeyUp event_key /\ key_run (es ++ [e]) ks = Neutral)))
  /\ (forall e,
        key_run (es ++ [e]) ks = Neutral -> key_run es ks <> Neutral ->
        exists event_key d', e = KeyUp event_key /\ names_digit event_key d').
Proof.
  intros Hd. split_and!.
  - rewrite key_run_app. by apply keydown_digit.
  - rewrite key_run_app. by apply keyup_digit.
  - intros event_key Hno. rewrite !key_run_app. simpl. split.
    + destruct (keydown_cases event_key (key_run es ks)) as [(d' & Hd' & _) | [_ E]];
        [by destruct (Hno d') | done].
    + destruct (keyup_cases event_key (key_run es ks)) as [(d' & Hd' & _) | [_ E]];
        [by destruct (Hno d') | done].
  - intros e. rewrite key_run_app. simpl. intros Hne.
    destruct e as [event_key | event_key]; simpl in *.
    + destruct (keydown_cases event_key (key_run es ks)) as [(d' & Hd' & E) | [_ E]];
        [| congruence].
      exists event_key, d'. split; [done |]. left. by split.
    + destruct (keyup_cases event_key (key_run es ks)) as [(d' & Hd' & E) | [_ E]];
        [| congruence].
      exists event_key, d'. split; [done |]. right. by split.
  - intros e. rewrite key_run_app. simpl. intros Hn Hne.
    destruct e as [event_key | event_key]; simpl in *.
    + destruct (keydown_cases event_key (key_run es ks)) as [(d' & Hd' & E) | [_ E]].
      * rewrite E in Hn. discriminate Hn.
      * congruence.
    + destruct (keyup_cases event_key (key_run es ks)) as [(d' & Hd' & E) | [_ E]].
      * eauto.
      * congruence.
Qed.

Lemma latch_after_digit_event_witness :
  key_run ([KeyDown "3"] ++ [KeyDown (digit_key 4)]) Neutral = Facing 4
  /\ key_run ([KeyDown "3"] ++ [KeyUp (digit_key 4)]) Neutral = Neutral.
Proof.
  destruct (latch_after_digit_event [KeyDown "3"] Neutral 4) as (H1 & H2 & _); [lia |].
  by split.
Defined.

(** C2 fails as stated: with 2 latched (1 pressed, then 2), the keyup of 1
    clears the latch instead of leaving Facing(2). *)
Lemma latch_keyup_other_digit_clears :
  key_run [KeyDown "1"; KeyDown "2"] Neutral = Facing 2
  /\ key_run [KeyDown "1"; KeyDown "2"; KeyUp "1"] Neutral = Neutral
  /\ key_run [KeyDown "1"; KeyDown "2"; KeyUp "1"] Neutral <> Facing 2.
Proof. repeat split; try reflexivity. discriminate. Qed.

(** ** Palette colours *)

Lemma is_hex_class_spec (c : ascii) :
  is_hex_class c = bool_decide (c ∈ hex_digits).
Proof. destruct c as [[] [] [] [] [] [] [] []]; vm_compute; reflexivity. Qed.

Lemma is_hex_class_true (c : ascii) : is_hex_class c = true <-> c ∈ hex_digits.
Proof. rewrite is_hex_class_spec. apply bool_decide_eq_true. Qed.

Lemma match_hex_times_spec (k : nat) (s rest : string) :
  match_hex_times k s = Some rest <->
  exists h : list ascii,
    List.length h = k /\ Forall (fun c => c ∈ hex_digits) h
    /\ s = String.string_of_list_ascii h +:+ rest.
Proof.
  revert s. induction k as [|k IH]; intros s; simpl.
  - split.
    + intros [= ->]. exists []. by repeat split.
    + intros (h & Hlen & _ & ->). destruct h; [done | discriminate].
  - destruct s as [|c r].
    + split; [discriminate |].
      intros (h & Hlen & _ & Hs). destruct h; discriminate.
    + destruct (is_hex_class c) eqn:Hc.
      * rewrite IH. split.
        -- intros (h & Hlen & Hall & ->). exists (c :: h). repeat split.
           ++ simpl. by rewrite Hlen.
           ++ constructor; [by apply is_hex_class_true | done].
        -- intros (h & Hlen & Hall & Hs). destruct h as [|c' h]; [discriminate |].
           simpl in Hs. injection Hs as <- ->. exists h. repeat split.
           ++ simpl in Hlen. lia.
           ++ by inversion Hall.
      * split; [discriminate |].
        intros (h & Hlen & Hall & Hs). destruct h as [|c' h]; [discriminate |].
        simpl in Hs. injection Hs as <- ->. inversion Hall as [|? ? Hin _]; subst.
        apply is_hex_class_true in Hin. congruence.
Qed.

Lemma string_app_empty_r (s : string) : s +:+ EmptyString = s.
Proof. induction s as [|c s IH]; [done |]. change (String c (s +:+ EmptyString) = String c s). by rewrite IH. Qed.

(** The regular expression of the source accepts exactly the colours the
    specification calls well formed. *)
Lemma test_hex_color_spec (color : string) :
  test_hex_color color = true <-> strict_hex_color color.
Proof.
  unfold test_hex_color, strict_hex_color. split.
  - destruct color as [|c r]; [discriminate |].
    destruct c as [[] [] [] [] [] [] [] []]; try discriminate.
    destruct (match_hex_times 6 r) as [rest|] eqn:Hm; [| discriminate].
    destruct rest; [| discriminate]. intros _.
    apply match_hex_times_spec in Hm as (h & Hlen & Hall & ->).
    exists h. by rewrite string_app_empty_r.
  - intros (h & Hlen & Hall & ->).
    assert (Hm : match_hex_times 6 (String.string_of_list_ascii h) = Some EmptyString).
    { apply match_hex_times_spec. exists h. by rewrite string_app_empty_r. }
    by rewrite Hm.
Qed.

Lemma strict_hex_color_dec (color : string) :
  strict_hex_color color \/ ~ strict_hex_color color.
Proof.
  destruct (test_hex_color color) eqn:Ht.
  - left. by apply test_hex_color_spec.
  - right. intros H. apply test_hex_color_spec in H. congruence.
Qed.

(** C8. [colorVariants] throws exactly on the strings that are not a [#]
    followed by six hexadecimal digits, and returns a list on all the others. *)
Theorem colorVariants_throws_iff (color : string) :
  ((exists msg, colorVariants color = inl msg) <-> ~ strict_hex_color color)
  /\ ((exists variants, colorVariants color = inr variants) <-> strict_hex_color color).
Proof.
  unfold colorVariants.
  destruct (test_hex_color color) eqn:Ht; simpl.
  - assert (Hs : strict_hex_color color) by by apply test_hex_color_spec.
    split; split.
    + intros [msg Hmsg]. discriminate.
    + intros Hn. by destruct Hn.
    + done.
    + intros _. eauto.
  - assert (Hs : ~ strict_hex_color color).
    { intros H. apply test_hex_color_spec in H. congruence. }
    split; split.
    + done.
    + intros _. eauto.
    + intros [vs Hvs]. discriminate.
    + intros H. by destruct Hs.
Qed.

Lemma hex_pairs_checked :
  forallb (fun a => forallb (hex_pair_ok a) hex_digits) hex_digits = true.
Proof. vm_compute. reflexivity. Qed.

Lemma parse_hex_pair (a b : ascii) :
  a ∈ hex_digits -> b ∈ hex_digits ->
  exists v, JS.parseInt (String a (String b EmptyString)) 16 = Some v /\ 0 <= v <= 255.
Proof.
  intros Ha%list_elem_of_In Hb%list_elem_of_In.
  pose proof hex_pairs_checked as Hall.
  rewrite forallb_forall in Hall. specialize (Hall a Ha).
  rewrite forallb_forall in Hall. specialize (Hall b Hb).
  unfold hex_pair_ok in Hall.
  destruct (JS.parseInt (String a (String b EmptyString)) 16) as [v|]; [| discriminate].
  exists v. split; [done | lia].
Qed.

Lemma padded_hex_checked : forallb padded_hex_ok (seqZ 0 256) = true.
Proof. vm_compute. reflexivity. Qed.

Lemma shade_channel_shape (c i : Z) :
  0 <= c <= 255 -> 0 <= i ->
  exists a b,
    shade_channel (Some c) i = String a (String b EmptyString)
    /\ a ∈ hex_digits /\ b ∈ hex_digits
    /\ JS.parseInt (String a (String b EmptyString)) 16 = Some (Z.max 0 (c - 30 * (i + 1))).
Proof.
  intros Hc Hi. unfold shade_channel. simpl JS.sub. simpl JS.max.
  set (n := Z.max 0 (c - 30 * (i + 1))).
  assert (Hn : 0 <= n < 256).
  { subst n. lia. }
  pose proof padded_hex_checked as Hall. rewrite forallb_forall in Hall.
  assert (Hin : In n (seqZ 0 256)).
  { apply list_elem_of_In, elem_of_seqZ. lia. }
  specialize (Hall n Hin). unfold padded_hex_ok in Hall.
  destruct (JS.padStart 2 "0" (JS.toString (Some n) 16)) as [|a [|b [|? ?]]]; try discriminate.
  apply andb_prop in Hall as [Hab Hp]. apply andb_prop in Hab as [Ha Hb].
  exists a, b. repeat split.
  - by apply is_hex_class_true.
  - by apply is_hex_class_true.
  - by apply bool_decide_eq_true in Hp.
Qed.

(** C7. On a colour of the form #hhhhhh, [colorVariants] returns three
    colours: the input itself, then two well-formed colours whose red, green
    and blue channels are the input's channels lowered by 60 and by 90 and
    clamped at 0, so each channel never increases along the list. *)
Theorem colorVariants_shades (color : string) :
  strict_hex_color color ->
  exists v1 v2,
    colorVariants color = inr [color; v1; v2]
    /\ strict_hex_color v1 /\ strict_hex_color v2
    /\ forall k, (k < 3)%nat ->
       exists c,
         channel k color = Some c /\ 0 <= c <= 255
         /\ channel k v1 = Some (Z.max 0 (c - 30 * (1 + 1)))
         /\ channel k v2 = Some (Z.max 0 (c - 30 * (2 + 1)))
         /\ Z.max 0 (c - 30 * (2 + 1)) <= Z.max 0 (c - 30 * (1 + 1)) <= c.
Proof.
  intros Hs. pose proof Hs as Ht. apply test_hex_color_spec in Ht.
  destruct Hs as (h & Hlen & Hall & ->).
  destruct h as [|h1 [|h2 [|h3 [|h4 [|h5 [|h6 [|? ?]]]]]]]; try discriminate.
  repeat match goal with H : Forall _ (_ :: _) |- _ => inversion_clear H end.
  destruct (parse_hex_pair h1 h2) as (r & Hr & Hrb); [done.. |].
  destruct (parse_hex_pair h3 h4) as (g & Hg & Hgb); [done.. |].
  destruct (parse_hex_pair h5 h6) as (b & Hb & Hbb); [done.. |].
  destruct (shade_channel_shape r 1) as (r1a & r1b & Er1 & ? & ? & Pr1); [done | lia |].
  destruct (shade_channel_shape g 1) as (g1a & g1b & Eg1 & ? & ? & Pg1); [done | lia |].
  destruct (shade_channel_shape b 1) as (b1a & b1b & Eb1 & ? & ? & Pb1); [done | lia |].
  destruct (shade_channel_shape r 2) as (r2a & r2b & Er2 & ? & ? & Pr2); [done | lia |].
  destruct (shade_channel_shape g 2) as (g2a & g2b & Eg2 & ? & ? & Pg2); [done | lia |].
  destruct (shade_channel_shape b 2) as (b2a & b2b & Eb2 & ? & ? & Pb2); [done | lia |].
  unfold colorVariants. rewrite Ht. cbn [negb].
  change (JS.slice 1 3 (String "#" (String.string_of_list_ascii [h1; h2; h3; h4; h5; h6])))
    with (String h1 (String h2 EmptyString)).
  change (JS.slice 3 5 (String "#" (String.string_of_list_ascii [h1; h2; h3; h4; h5; h6])))
    with (String h3 (String h4 EmptyString)).
  change (JS.slice 5 7 (String "#" (String.string_of_list_ascii [h1; h2; h3; h4; h5; h6])))
    with (String h5 (String h6 EmptyString)).
  rewrite Hr, Hg, Hb. cbn [foldl app].
  rewrite Er1, Eg1, Eb1, Er2, Eg2, Eb2.
  eexists _, _. split; [reflexivity |]. split; [| split].
  - exists [r1a; r1b; g1a; g1b; b1a; b1b].
    split; [done |]. split; [| done].
    repeat (apply Forall_cons_2; [assumption |]). apply Forall_nil_2.
  - exists [r2a; r2b; g2a; g2b; b2a; b2b].
    split; [done |]. split; [| done].
    repeat (apply Forall_cons_2; [assumption |]). apply Forall_nil_2.
  - intros k Hk.
    destruct k as [|[|[|k]]]; [exists r | exists g | exists b | lia];
      (split; [assumption |]); (split; [assumption |]);
      (split; [assumption |]); (split; [assumption |]); lia.
Qed.

Lemma colorVariants_shades_witness :
  exists v1 v2,
    colorVariants "#00ff00" = inr ["#00ff00"%string; v1; v2]
    /\ strict_hex_color v1 /\ strict_hex_color v2
    /\ forall k, (k < 3)%nat ->
       exists c,
         channel k "#00ff00" = Some c /\ 0 <= c <= 255
         /\ channel k v1 = Some (Z.max 0 (c - 30 * (1 + 1)))
         /\ channel k v2 = Some (Z.max 0 (c - 30 * (2 + 1)))
         /\ Z.max 0 (c - 30 * (2 + 1)) <= Z.max 0 (c - 30 * (1 + 1)) <= c.
Proof.
  apply (colorVariants_shades "#00ff00").
  apply test_hex_color_spec. vm_compute. reflexivity.
Defined.

Example colorVariants_grass :
  colorVariants "#00ff00" = inr ["#00ff00"; "#00c300"; "#00a500"]%string.
Proof. vm_compute. reflexivity. Qed.

Example colorVariants_not_a_color :
  colorVariants "not-a-color" = inl "Invalid hex color format"%string.
Proof. vm_compute. reflexivity. Qed.

(** ** Concrete instances *)

(** A flat world for the instances below: stone up to height 3, air above. *)
Definition flat_generator (p : BlockPos.t) : Block :=
  if BlockPos.z p <? 4 then Material "stone" else Empty "air".

Lemma flat_generator_ok : generator_ok flat_generator.
Proof.
  intros p type H. unfold flat_generator in H.
  destruct (BlockPos.z p <? 4); [| discriminate H].
  injection H as <-. reflexivity.
Qed.

Lemma shifts_keep_grid_rectangular_witness :
  exists s0 s2,
    initStage 16 flat_generator 6 7 None (initial_state 16 flat_generator) = Ok tt s0
    /\ grid_rect 6 7 (rengerGrid s0)
    /\ grid_rect 6 7
         (rengerGrid
            (after_actions 16 flat_generator 6 7
               [ActNewBlocks [("lava.blockcolor", "#ff4500")%string];
                ActEvent (EvSelect "lava")] s0))
    /\ shifts_replace_edges 16 flat_generator 6 7
         [ShiftTop; ShiftRight; ShiftBottom; ShiftLeft]
         (after_actions 16 flat_generator 6 7
            [ActNewBlocks [("lava.blockcolor", "#ff4500")%string];
             ActEvent (EvSelect "lava")] s0)
    /\ run_shifts 16 flat_generator 6 7 [ShiftTop; ShiftRight; ShiftBottom; ShiftLeft]
         (after_actions 16 flat_generator 6 7
            [ActNewBlocks [("lava.blockcolor", "#ff4500")%string];
             ActEvent (EvSelect "lava")] s0)
       = Ok tt s2
    /\ grid_rect 6 7 (rengerGrid s2).
Proof.
  apply (shifts_keep_grid_rectangular 16 flat_generator 6 7 None
           [ActNewBlocks [("lava.blockcolor", "#ff4500")%string];
            ActEvent (EvSelect "lava")]
           [ShiftTop; ShiftRight; ShiftBottom; ShiftLeft]).
  - lia.
  - lia.
  - apply flat_generator_ok.
  - reflexivity.
Defined.

(** A window of two rows of one tile over the flat world, in which the
    colour "#" has been registered for stone after [initStage]. *)
Definition bad_stone_window : RenderState :=
  after_actions 16 flat_generator 1 2 [ActNewBlocks [("stone", "#")%string]]
    (final_state (initStage 16 flat_generator 1 2 None (initial_state 16 flat_generator))).

(** C4 fails as stated: after [initStage] has built a complete grid of two
    rows, once a colour that is not of the form #hhhhhh has been registered
    for a block type the world holds, [addTopRow] pops the last row, throws in
    the first tile it builds, and leaves a grid of one row. *)
Lemma shift_after_bad_colour_breaks_grid :
  (exists s0,
     initStage 16 flat_generator 1 2 None (initial_state 16 flat_generator) = Ok tt s0
     /\ grid_rect 1 2 (rengerGrid s0)
     /\ bad_stone_window
        = final_state (addNewBlockType [("stone", "#")%string] s0))
  /\ grid_rect 1 2 (rengerGrid bad_stone_window)
  /\ (exists s', run_shifts 16 flat_generator 1 2 [ShiftTop] bad_stone_window
                 = Throw "Invalid hex color format" s')
  /\ length (rengerGrid (final_state (run_shifts 16 flat_generator 1 2 [ShiftTop]
                                        bad_stone_window))) = 1%nat
  /\ ~ grid_rect 1 2
        (rengerGrid (final_state (run_shifts 16 flat_generator 1 2 [ShiftTop]
                                    bad_stone_window))).
Proof.
  assert (Hlen : length (rengerGrid (final_state (run_shifts 16 flat_generator 1 2 [ShiftTop]
                                                    bad_stone_window))) = 1%nat)
    by (vm_compute; reflexivity).
  split_and!.
  - eexists. split; [vm_compute; reflexivity |]. split; [| vm_compute; reflexivity].
    split; [vm_compute; reflexivity |]. repeat constructor.
  - split; [vm_compute; reflexivity |]. vm_compute. repeat constructor.
  - eexists. vm_compute. reflexivity.
  - exact Hlen.
  - intros [H _]. rewrite Hlen in H. vm_compute in H. discriminate H.
Qed.

(** ** Registering block types *)









(** A value that is no colour at all is registered as long as it has a [#]. *)
Example addNewBlockType_no_validation :
  let s' := final_state (addNewBlockType [("lava.blockcolor", "#hot")%string;
                                          ("lava.blockdes", "molten rock")%string]
                           (initial_state 16 flat_generator)) in
  colorMapper s' !! "lava"%string = Some "#hot"%string
  /\ head (inventory_items s') = Some (Item.mk "lava" "#hot")
  /\ test_hex_color "#hot" = false
  /\ colorMapper s' !! "lava.blockdes"%string = None.
Proof. vm_compute. repeat split. Qed.

(** ** A clicked block *)

(** A window of two rows of one tile over the flat world, after [initStage]
    and a first tick in which no shift fires. *)
Definition demo_window : RenderState :=
  after_events 16 flat_generator 1 2 [EvTick false false false false]
    (final_state (initStage 16 flat_generator 1 2 None (initial_state 16 flat_generator))).

(** The same window with the digit key [d] held down. *)
Definition demo_state (d : Z) : RenderState :=
  after_events 16 flat_generator 1 2 [EvKeyDown (digit_key d)] demo_window.

(** The container of the upper tile, and in it the sprite of the surface
    block above the tile's centre: the stone block at (0, -8, 3), with stone
    below it and air above. *)
Definition demo_container : ExtendedContainer.t :=
  default (ExtendedContainer.mk (XY.mk 0 0) [] false) (containers demo_window !! 0%nat).

Definition demo_sprite : ExtendedSprite.t :=
  ExtendedSprite.mk 164 (TextureOf "#808080") (RenderBlockPos.mk 4 12 4) (XY.mk 0 (-8))
    (drawKey (RenderBlockPos.mk 4 12 4)).

Example demo_sprite_on_stage (d : Z) :
  rengerGrid (demo_state d) = [[0%nat]; [325%nat]]
  /\ containers (demo_state d) !! 0%nat = Some demo_container
  /\ ExtendedContainer.indexPos demo_container = XY.mk 0 0
  /\ demo_sprite ∈ ExtendedContainer.children demo_container
  /\ absolutePos 16 demo_sprite = BlockPos.mk 0 (-8) 3
  /\ selectedBlockType (demo_state d) = "grass"%string.
Proof.
  split_and!; try (vm_compute; reflexivity).
  assert (H : bool_decide (demo_sprite ∈ ExtendedContainer.children demo_container) = true)
    by (vm_compute; reflexivity).
  by apply bool_decide_eq_true in H.
Qed.

(** C3 fails as stated: with 6 (down) latched, a left click on the surface
    block at (0, -8, 3), which rests on stone, returns without writing the
    selected "grass" at (0, -8, 2) and without adding a scene node. *)
Lemma pointer_place_down_blocked :
  keyState (demo_state 6) = Facing 6
  /\ (exists s', pointerdown 16 flat_generator 0 0 demo_sprite (demo_state 6) = Ok tt s')
  /\ peek 16 flat_generator
       (dimension (final_state (pointerdown 16 flat_generator 0 0 demo_sprite (demo_state 6))))
       (neighbor 6 (absolutePos 16 demo_sprite))
     = Some (Material "stone")
  /\ containers (final_state (pointerdown 16 flat_generator 0 0 demo_sprite (demo_state 6)))
     = containers (demo_state 6).
Proof.
  split_and!.
  - reflexivity.
  - eexists. vm_compute. reflexivity.
  - vm_compute. reflexivity.
  - vm_compute. reflexivity.
Qed.

Lemma pointer_place_witness :
  exists s',
    pointerdown 16 flat_generator 0 0 demo_sprite (demo_state 1) = Ok tt s'
    /\ dimension s'
       = Dimension_setBlock 16 flat_generator (neighbor 1 (absolutePos 16 demo_sprite))
           (Material (selectedBlockType (demo_state 1))) (dimension (demo_state 1))
    /\ containers s'
       = <[0%nat := with_child demo_container
                      (ExtendedSprite.mk (nextId (demo_state 1))
                         (texture_of (selectedColor (demo_state 1)) (demo_state 1))
                         (RenderBlockPos.mk 4 12 5)
                         (ExtendedSprite.containerCenter demo_sprite)
                         (drawKey (RenderBlockPos.mk 4 12 5)))]>
           (containers (demo_state 1)).
Proof.
  apply (pointer_place 16 flat_generator (demo_state 1) 0%nat 0%nat
           demo_container demo_container demo_sprite 1 (RenderBlockPos.mk 4 12 5)).
  - lia.
  - reflexivity.
  - vm_compute. reflexivity.
  - left. exists "#00ff00"%string. split; vm_compute; reflexivity.
  - reflexivity.
  - reflexivity.
  - vm_compute. reflexivity.
Defined.

Lemma vertical_place_guarded_witness :
  (vertical_guard 16 flat_generator (demo_state 6) demo_sprite 6 = false ->
     containers (final_state (pointerdown 16 flat_generator 0 0 demo_sprite (demo_state 6)))
     = containers (demo_state 6)
     /\ textures (final_state (pointerdown 16 flat_generator 0 0 demo_sprite (demo_state 6)))
        = textures (demo_state 6)
     /\ nextId (final_state (pointerdown 16 flat_generator 0 0 demo_sprite (demo_state 6)))
        = nextId (demo_state 6)
     /\ (forall p,
           peek 16 flat_generator
             (dimension (final_state (pointerdown 16 flat_generator 0 0 demo_sprite
                                        (demo_state 6)))) p
           = peek 16 flat_generator (dimension (demo_state 6)) p)
     /\ (0 = 0 -> is_Some (containers (demo_state 6) !! 0%nat) ->
         exists s', pointerdown 16 flat_generator 0 0 demo_sprite (demo_state 6) = Ok tt s'))
  /\ (6 = 6 ->
      forall p, BlockPos.z p = 0 ->
        peek 16 flat_generator
          (dimension (final_state (pointerdown 16 flat_generator 0 0 demo_sprite
                                     (demo_state 6)))) p
        = peek 16 flat_generator (dimension (demo_state 6)) p).
Proof.
  apply (vertical_place_guarded 16 flat_generator (demo_state 6) 0 0%nat demo_sprite 6).
  - reflexivity.
  - right. reflexivity.
Defined.

Example demo_guard_fails :
  vertical_guard 16 flat_generator (demo_state 6) demo_sprite 6 = false.
Proof. vm_compute. reflexivity. Qed.

Lemma tick_stamps_every_cell_witness :
  exists s0 s2,
    initStage 16 flat_generator 6 7 None (initial_state 16 flat_generator) = Ok tt s0
    /\ tick 16 flat_generator 6 7 false true true false
         (after_actions 16 flat_generator 6 7
            [ActEvent (EvTick true false false true);
             ActNewBlocks [("lava.blockcolor", "#ff4500")%string];
             ActEvent (EvKeyDown "2");
             ActEvent (EvSelect "lava")] s0)
       = Ok tt s2
    /\ indexed_ok 6 7 s2.
Proof.
  apply (tick_stamps_every_cell 16 flat_generator 6 7 None
           [ActEvent (EvTick true false false true);
            ActNewBlocks [("lava.blockcolor", "#ff4500")%string];
            ActEvent (EvKeyDown "2");
            ActEvent (EvSelect "lava")]
           false true true false).
  - lia.
  - lia.
  - apply flat_generator_ok.
  - reflexivity.
Defined.

(** C5 fails as stated: in a complete grid of two rows, once a colour that
    is not of the form #hhhhhh has been registered for a block type the world
    holds, a tick whose top probe fires throws inside [addTopRow], before
    [reassignIndex] runs: the grid is left with one row, so the cell (1, 0)
    has no container to carry that index. *)
Lemma tick_after_bad_colour_leaves_short_grid :
  grid_rect 1 2 (rengerGrid bad_stone_window)
  /\ (exists s', tick 16 flat_generator 1 2 true false false false bad_stone_window
                 = Throw "Invalid hex color format" s')
  /\ rengerGrid (final_state (tick 16 flat_generator 1 2 true false false false
                                bad_stone_window)) = [[0%nat]]
  /\ ~ indexed_ok 1 2 (final_state (tick 16 flat_generator 1 2 true false false false
                                      bad_stone_window)).
Proof.
  assert (Hg : rengerGrid (final_state (tick 16 flat_generator 1 2 true false false false
                                          bad_stone_window)) = [[0%nat]])
    by (vm_compute; reflexivity).
  split_and!.
  - split; [vm_compute; reflexivity |]. vm_compute. repeat constructor.
  - eexists. vm_compute. reflexivity.
  - exact Hg.
  - intros H. destruct (H 1 0 ltac:(lia) ltac:(lia)) as (row & c & k & Hr & _).
    rewrite Hg in Hr. vm_compute in Hr. discriminate Hr.
Qed.

(** ** The latch over whole key histories *)

Lemma key_step_latch (ks : KeyState) (e : KeyEvent) :
  (ks = Neutral \/ exists d, 1 <= d <= 6 /\ ks = Facing d) ->
  key_step ks e = Neutral \/ exists d, 1 <= d <= 6 /\ key_step ks e = Facing d.
Proof.
  intros Hks. destruct e as [key | key]; simpl.
  - unfold keydown. destruct (JS.parseInt key 10) as [u |]; simpl; [| done].
    destruct (1 <=? u) eqn:H1; simpl; [| done].
    destruct (u <=? 6) eqn:H6; simpl; [| done].
    right. exists u. split; [lia | done].
  - unfold keyup. destruct (_ && _); [by left | done].
Qed.

(** X1. The latch is always Neutral or Facing(d) with d in 1..6.  After any
    sequence of key events on the freshly loaded module, whatever their
    [event.key] strings, [isActive] is set exactly when [lastKey] holds a
    digit from 1 to 6, and [lastKey] is [null] otherwise. *)
Theorem latch_neutral_or_facing (es : list KeyEvent) :
  key_run es Neutral = Neutral
  \/ exists d, 1 <= d <= 6 /\ key_run es Neutral = Facing d.
Proof.
  unfold key_run.
  assert (H : forall ks,
             (ks = Neutral \/ exists d, 1 <= d <= 6 /\ ks = Facing d) ->
             foldl key_step ks es = Neutral
             \/ exists d, 1 <= d <= 6 /\ foldl key_step ks es = Facing d).
  { induction es as [| e es IH]; intros ks Hks; simpl; [done |].
    apply IH. by apply key_step_latch. }
  apply H. by left.
Qed.

(** ** Instances of the pointer handler's properties *)

(** A closed chain of comparisons on numbers, by evaluation. *)
Ltac closed_range := vm_compute; split; first [reflexivity | intros ?; discriminate].

Lemma demo_window_grid_ok : grid_ok 16 flat_generator 1 2 demo_window.
Proof.
  unfold demo_window.
  destruct (initStage_spec 16 flat_generator 1 2 None (initial_state 16 flat_generator)
              (initial_state_world_ok 16 flat_generator flat_generator_ok) eq_refl) as (s1 & E & (G & _)).
  rewrite E. simpl final_state.
  apply (after_actions_grid_ok 16 flat_generator 1 2
           [ActEvent (EvTick false false false false)]);
    [lia | lia | reflexivity | done].
Qed.

Lemma demo_state_grid_ok (d : Z) : grid_ok 16 flat_generator 1 2 (demo_state d).
Proof.
  unfold demo_state.
  apply (after_actions_grid_ok 16 flat_generator 1 2 [ActEvent (EvKeyDown (digit_key d))]);
    [lia | lia | reflexivity |].
  apply demo_window_grid_ok.
Qed.

Lemma demo_container_ids :
  Forall (fun sp => (ExtendedSprite.id sp < nextId (demo_state 1))%nat)
    (ExtendedContainer.children demo_container).
Proof.
  assert (H : bool_decide
                (Forall (fun sp => (ExtendedSprite.id sp < nextId (demo_state 1))%nat)
                   (ExtendedContainer.children demo_container)) = true)
    by (vm_compute; reflexivity).
  apply bool_decide_eq_true in H. exact H.
Qed.

Lemma pointer_break_witness :
  exists s',
    pointerdown 16 flat_generator 0 0 demo_sprite demo_window = Ok tt s'
    /\ containers s'
       = <[0%nat := without_child demo_container demo_sprite]> (containers demo_window)
    /\ (forall p, p <> absolutePos 16 demo_sprite ->
          peek 16 flat_generator (dimension s') p
          = peek 16 flat_generator (dimension demo_window) p)
    /\ (wf_dimension 16 (dimension demo_window) ->
        0 <= BlockPos.z (absolutePos 16 demo_sprite) < 16 ->
        peek 16 flat_generator (dimension s') (absolutePos 16 demo_sprite)
        = Some (Empty "air"))
    /\ rengerGrid s' = rengerGrid demo_window
    /\ same_config demo_window s'.
Proof.
  apply (pointer_break 16 flat_generator demo_window 0%nat demo_container demo_sprite).
  - reflexivity.
  - vm_compute. reflexivity.
Defined.




Lemma place_then_break_witness :
  exists s1 s2 placed,
    pointerdown 16 flat_generator 0 0 demo_sprite (demo_state 1) = Ok tt s1
    /\ containers s1 = <[0%nat := with_child demo_container placed]> (containers (demo_state 1))
    /\ absolutePos 16 placed = neighbor 1 (absolutePos 16 demo_sprite)
    /\ peek 16 flat_generator (dimension s1) (neighbor 1 (absolutePos 16 demo_sprite))
       = Some (Material (selectedBlockType (demo_state 1)))
    /\ pointerdown 16 flat_generator 0 0 placed
         (final_state (handle 16 flat_generator 1 2 (EvKeyUp "1") s1)) = Ok tt s2
    /\ peek 16 flat_generator (dimension s2) (neighbor 1 (absolutePos 16 demo_sprite))
       = Some (Empty "air")
    /\ containers s2 = containers (demo_state 1)
    /\ (forall p, p <> neighbor 1 (absolutePos 16 demo_sprite) ->
          peek 16 flat_generator (dimension s2) p
          = peek 16 flat_generator (dimension (demo_state 1)) p).
Proof.
  apply (place_then_break 16 flat_generator 1 2 (demo_state 1) 0%nat demo_container
           demo_sprite 1 (RenderBlockPos.mk 4 12 5) "1").
  - lia.
  - reflexivity.
  - vm_compute. reflexivity.
  - left. exists "#00ff00"%string. split; vm_compute; reflexivity.
  - reflexivity.
  - reflexivity.
  - reflexivity.
  - exact (proj1 (proj1 (demo_state_grid_ok 1))).
  - closed_range.
  - exact demo_container_ids.
  - reflexivity.
Defined.

(** The sprite of the surface block at the front edge of the upper tile, and
    the container of the tile below it in the grid. *)
Definition demo_edge_sprite : ExtendedSprite.t :=
  ExtendedSprite.mk 180 (TextureOf "#808080") (RenderBlockPos.mk 4 12 8) (XY.mk 0 (-8))
    (drawKey (RenderBlockPos.mk 4 12 8)).

Definition demo_container_below : ExtendedContainer.t :=
  default (ExtendedContainer.mk (XY.mk 0 0) [] false) (containers demo_window !! 325%nat).

Lemma place_across_edge_witness :
  exists s1 s2 placed,
    pointerdown 16 flat_generator 0 0 demo_edge_sprite (demo_state 1) = Ok tt s1
    /\ containers s1
       = <[325%nat := with_child demo_container_below placed]> (containers (demo_state 1))
    /\ peek 16 flat_generator (dimension s1) (neighbor 1 (absolutePos 16 demo_edge_sprite))
       = Some (Material (selectedBlockType (demo_state 1)))
    /\ absolutePos 16 placed = step_by 1 (-8) (absolutePos 16 demo_edge_sprite)
    /\ pointerdown 16 flat_generator 0 325 placed
         (final_state (handle 16 flat_generator 1 2 (EvKeyUp "1") s1)) = Ok tt s2
    /\ peek 16 flat_generator (dimension s2) (neighbor 1 (absolutePos 16 demo_edge_sprite))
       = Some (Material (selectedBlockType (demo_state 1)))
    /\ peek 16 flat_generator (dimension s2) (step_by 1 (-8) (absolutePos 16 demo_edge_sprite))
       = Some (Empty "air").
Proof.
  apply (place_across_edge 16 flat_generator 1 2 (demo_state 1) 0%nat 325%nat
           demo_container demo_container_below demo_edge_sprite 1
           (RenderBlockPos.mk 4 12 0) "1").
  - lia.
  - reflexivity.
  - vm_compute. reflexivity.
  - left. exists "#00ff00"%string. split; vm_compute; reflexivity.
  - closed_range.
  - closed_range.
  - vm_compute. reflexivity.
  - vm_compute. discriminate.
  - vm_compute. reflexivity.
  - exact (proj1 (proj1 (demo_state_grid_ok 1))).
  - closed_range.
  - reflexivity.
Defined.

Lemma tick_on_empty_grid_witness :
  exists msg,
    tick 16 flat_generator 1 2 true false false true (initial_state 16 flat_generator)
    = Throw msg (initial_state 16 flat_generator).
Proof.
  apply (tick_on_empty_grid 16 flat_generator 1 2 true false false true
           (initial_state 16 flat_generator)).
  reflexivity.
Defined.

Lemma drawKey_orders_blocks_witness :
  (0 + 0 < 1 + 0 ->
   drawKey (convertBlockPosToRenderBlockPos 16 (BlockPos.mk 0 0 15))
   < drawKey (convertBlockPosToRenderBlockPos 16 (BlockPos.mk 1 0 0)))
  /\ (0 + 0 = 1 + 0 -> 15 < 0 ->
      drawKey (convertBlockPosToRenderBlockPos 16 (BlockPos.mk 0 0 15))
      < drawKey (convertBlockPosToRenderBlockPos 16 (BlockPos.mk 1 0 0)))
  /\ (drawKey (convertBlockPosToRenderBlockPos 16 (BlockPos.mk 0 0 15))
      = drawKey (convertBlockPosToRenderBlockPos 16 (BlockPos.mk 1 0 0))
      <-> 0 + 0 = 1 + 0 /\ 15 = 0).
Proof.
  apply (drawKey_orders_blocks 16 (BlockPos.mk 0 0 15) (BlockPos.mk 1 0 0)); simpl; lia.
Defined.

(** ** Instances of the window properties *)



Lemma tile_shows_its_box_witness :
  exists c s' k,
    buildTile 16 flat_generator (XY.mk 0 0) (initial_state 16 flat_generator) = Ok c s'
    /\ containers s' !! c = Some k
    /\ shown 16 <$> ExtendedContainer.children k
       = drawn 16 flat_generator (dimension (initial_state 16 flat_generator))
           (colorMapper (initial_state 16 flat_generator)) (XY.mk 0 0)
    /\ Forall (fun sp => ExtendedSprite.containerCenter sp = XY.mk 0 0)
         (ExtendedContainer.children k)
    /\ (forall p, p ∈ tile_box 16 (XY.mk 0 0)
                  <-> XY.x (XY.mk 0 0) - 4 <= BlockPos.x p <= XY.x (XY.mk 0 0) + 4
                      /\ XY.y (XY.mk 0 0) - 4 <= BlockPos.y p <= XY.y (XY.mk 0 0) + 4
                      /\ 0 <= BlockPos.z p < 16)
    /\ (forall p, peek 16 flat_generator (dimension s') p
                  = peek 16 flat_generator (dimension (initial_state 16 flat_generator)) p).
Proof.
  apply (tile_shows_its_box 16 flat_generator (XY.mk 0 0) (initial_state 16 flat_generator)).
  apply initial_state_world_ok. apply flat_generator_ok.
Defined.




